(** * MAT-DP-SSG: [scripts/process_template.py]

    A shallow embedding of the report pipeline: the three CSV inputs are
    regrouped into seven labelled tables ([load_dfs]), every table is turned
    into nested dictionaries ([df_to_dict]) and the dictionaries are bound as
    template variables ([main]).

    The script is written against a dataframe library.  Module [Pandas]
    models the operations the script calls, on labelled tables with explicit
    row tuples; module [Script] is the script itself, written with those
    operations in the order of the source. *)

From stdpp Require Import prelude strings sorting.

#[local] Set Warnings "-clear-no-such-hyp".

Local Open Scope string_scope.
Local Open Scope Z_scope.
Local Open Scope list_scope.

(** ** Exceptions *)

Inductive exn := KeyError | ValueError.

Inductive result (A : Type) : Type :=
| Ok (a : A)
| Raise (e : exn).
Global Arguments Ok {A} a.
Global Arguments Raise {A} e.

Global Instance result_ret : MRet result := λ A a, Ok a.
Global Instance result_bind : MBind result := λ A B f m,
  match m with Ok a => f a | Raise e => Raise e end.
Global Instance result_fmap : FMap result := λ A B f m,
  match m with Ok a => Ok (f a) | Raise e => Raise e end.

(** ** Python dictionaries

    Insertion ordered, keys unique: assigning to a key that is present
    replaces its value where it stands. *)

Abbreviation dict K V := (list (K * V)).

Fixpoint dict_get {K V} `{EqDecision K} (d : dict K V) (k : K) : option V :=
  match d with
  | [] => None
  | (k', v) :: d' => if decide (k = k') then Some v else dict_get d' k
  end.

Fixpoint dict_set {K V} `{EqDecision K} (d : dict K V) (k : K) (v : V) : dict K V :=
  match d with
  | [] => [(k, v)]
  | (k', v') :: d' =>
      if decide (k = k') then (k, v) :: d' else (k', v') :: dict_set d' k v
  end.

(** [dict(pairs)] and [{k: v for ...}]: the pairs are assigned in order. *)
Definition dict_of_pairs {K V} `{EqDecision K} (l : list (K * V)) : dict K V :=
  foldl (λ d kv, dict_set d kv.1 kv.2) [] l.

Module Pandas.

(** ** Labels, cells

    Index and column labels are strings or integers (the [Year] column).
    Numeric cells are integers, [None] is a missing value (NaN). *)

Inductive label := LStr (s : string) | LInt (z : Z).

Global Instance label_eq_dec : EqDecision label.
Proof. solve_decision. Defined.

Abbreviation key := (list label).
Abbreviation cell := (option Z).

(** Labels of one level are of one type; integers are put before strings
    to make the order total. *)
Definition label_leb (a b : label) : bool :=
  match a, b with
  | LInt x, LInt y => bool_decide (x ≤ y)
  | LStr s, LStr t => String.leb s t
  | LInt _, LStr _ => true
  | LStr _, LInt _ => false
  end.
Definition label_le (a b : label) : Prop := label_leb a b.

(** Tuples are ordered level by level. *)
Fixpoint key_leb (k1 k2 : key) : bool :=
  match k1, k2 with
  | [], _ => true
  | _ :: _, [] => false
  | a :: k1', b :: k2' =>
      if decide (a = b) then key_leb k1' k2' else label_leb a b
  end.
Definition key_le (k1 k2 : key) : Prop := key_leb k1 k2.

Global Instance label_le_dec : RelDecision label_le.
Proof. intros a b. unfold label_le. apply _. Defined.
Global Instance key_le_dec : RelDecision key_le.
Proof. intros a b. unfold key_le. apply _. Defined.

(** The distinct values of a list of labels or tuples, sorted: the group
    keys of [groupby] and the labels a pivot creates. *)
Definition sort_labels (l : list label) : list label :=
  merge_sort label_le (remove_dups l).
Definition sort_keys (l : list key) : list key :=
  merge_sort key_le (remove_dups l).

(** ** Tables *)

Record DataFrame := mkDF {
  index_names : list (option string);   (* one name per index level *)
  columns : list label;
  rows : list (key * list cell)          (* index tuple, cells by column *)
}.

Record Series := mkSeries {
  s_names : list (option string);
  s_items : list (key * cell)
}.

Definition set_rows (df : DataFrame) (rs : list (key * list cell)) : DataFrame :=
  mkDF (index_names df) (columns df) rs.

Definition index (df : DataFrame) : list key := (rows df).*1.

(** [isinstance(df.index, pd.MultiIndex)]: the tables of the script have a
    multi-level index exactly when they have two levels or more. *)
Definition is_multiindex (df : DataFrame) : bool :=
  bool_decide (2 ≤ length (index_names df))%nat.

(** Values of the outermost index level, row by row. *)
Definition level0 (df : DataFrame) : list label := omap head (index df).

(** [df.groupby(level=0)], iterated: the sub-table of each outer label, in
    sorted label order. *)
Definition groupby_level0 (df : DataFrame) : list (label * DataFrame) :=
  (λ name, (name, set_rows df (filter (λ r, head r.1 = Some name) (rows df))))
    <$> sort_labels (level0 df).

(** [g.droplevel(0)] *)
Definition droplevel0 (df : DataFrame) : DataFrame :=
  mkDF (tail (index_names df)) (columns df) ((λ r, (tail r.1, r.2)) <$> rows df).

(** [c != 0]; a missing value is different from zero. *)
Definition nonzero (c : cell) : bool :=
  match c with
  | Some z => negb (z =? 0)
  | None => true
  end.

(** [df.loc[(df != 0).any(1)]] *)
Definition drop_zero_rows (df : DataFrame) : DataFrame :=
  set_rows df (filter (λ r, existsb nonzero r.2) (rows df)).

(** Cells of column number [j]. *)
Definition column_cells (j : nat) (df : DataFrame) : list cell :=
  omap (λ r, r.2 !! j) (rows df).

(** [(df != 0).any(axis=0)] *)
Definition nonzero_columns (df : DataFrame) : list bool :=
  (λ j, existsb nonzero (column_cells j df)) <$> seq 0 (length (columns df)).

(** Selection by a boolean mask. *)
Fixpoint select {A} (mask : list bool) (l : list A) : list A :=
  match mask, l with
  | b :: mask', x :: l' => if b then x :: select mask' l' else select mask' l'
  | _, _ => []
  end.

(** [df.loc[:, (df != 0).any(axis=0)]] *)
Definition drop_zero_cols (df : DataFrame) : DataFrame :=
  let mask := nonzero_columns df in
  mkDF (index_names df) (select mask (columns df))
       ((λ r, (r.1, select mask r.2)) <$> rows df).

(** The label of a row of a single-level index. *)
Definition scalar (k : key) : label := default (LStr "") (head k).

(** [df.to_dict('index')]: row label to (column label to cell); refused
    when the row labels are not unique. *)
Definition to_dict_index (df : DataFrame) : result (dict label (dict label cell)) :=
  if decide (NoDup (index df))
  then Ok (dict_of_pairs
             ((λ r, (scalar r.1, dict_of_pairs (zip (columns df) r.2))) <$> rows df))
  else Raise ValueError.

(** ** Grouping and aggregation *)

(** Cells of column [j] that hold a value, over the rows of one group. *)
Definition column_values (j : nat) (rs : list (list cell)) : list Z :=
  omap (λ r, mjoin (r !! j)) rs.

(** The numbers of a column are [int64]: an addition that leaves the range
    wraps around.  (A column that pandas holds as [float64], as one read
    from a file with an empty cell, is added in floating point; the two
    agree on whole numbers for as long as the sums stay below [2^53] in
    absolute value.) *)
Definition int64 (z : Z) : Z := (z + 2 ^ 63) `mod` 2 ^ 64 - 2 ^ 63.
Definition add64 (a b : Z) : Z := int64 (a + b).
Definition sum64 (l : list Z) : Z := foldr add64 0 l.

(** [.sum()] of a group: per column, missing values skipped. *)
Definition agg_sum (ncols : nat) (rs : list (list cell)) : list cell :=
  (λ j, Some (sum64 (column_values j rs))) <$> seq 0 ncols.

(** [.first()] of a group: per column, the first value that is not missing. *)
Definition agg_first (ncols : nat) (rs : list (list cell)) : list cell :=
  (λ j, head (column_values j rs)) <$> seq 0 ncols.

(** [groupby(keys).agg()] on rows already paired with their group key: one
    row per distinct key, keys sorted. *)
Definition groupby_agg (agg : list (list cell) → list cell)
    (keys : list string) (cols : list label) (rs : list (key * list cell)) : DataFrame :=
  mkDF (Some <$> keys) cols
       ((λ k, (k, agg (filter (λ r, r.1 = k) rs).*2)) <$> sort_keys rs.*1).

(** Position of the index level called [name]. *)
Definition level_pos (name : string) (names : list (option string)) : result nat :=
  match list_find (λ n, n = Some name) names with
  | Some (i, _) => Ok i
  | None => Raise KeyError
  end.

(** The values of a tuple at the given level positions. *)
Definition project (ps : list nat) (k : key) : key := omap (λ p, k !! p) ps.

(** [df.groupby(keys).sum()], [keys] naming index levels. *)
Definition groupby_levels_sum (keys : list string) (df : DataFrame) : result DataFrame :=
  ps ← mapM (λ n, level_pos n (index_names df)) keys;
  mret (groupby_agg (agg_sum (length (columns df))) keys (columns df)
          ((λ r, (project ps r.1, r.2)) <$> rows df)).

(** [s.groupby(keys).sum()] on a series. *)
Definition series_groupby_sum (keys : list string) (s : Series) : result Series :=
  ps ← mapM (λ n, level_pos n (s_names s)) keys;
  let keyed := (λ it, (project ps it.1, it.2)) <$> s_items s in
  mret (mkSeries (Some <$> keys)
          ((λ k, (k, Some (sum64 (omap id (filter (λ it, it.1 = k) keyed).*2))))
             <$> sort_keys keyed.*1)).

(** [df.loc[labels]] on a table that comes straight out of [groupby]: the
    rows of each label in turn; a label that is no value of the outer level
    is a [KeyError]. *)
Definition loc (labels : list label) (df : DataFrame) : result DataFrame :=
  if decide (Forall (λ c, c ∈ level0 df) labels)
  then Ok (set_rows df
             (labels ≫= λ c, filter (λ r, head r.1 = Some c) (rows df)))
  else Raise KeyError.

(** ** Reshaping *)

(** [df.stack()]: the column label becomes a new innermost, unnamed index
    level; missing cells are left out. *)
Definition stack (df : DataFrame) : Series :=
  mkSeries (index_names df ++ [None])
    (rows df ≫= λ r,
       omap (λ cv, match cv.2 with
                   | Some z => Some (r.1 ++ [cv.1], Some z)
                   | None => None
                   end)
            (zip (columns df) r.2)).

(** [s.droplevel(-1)] *)
Definition series_droplevel_last (s : Series) : Series :=
  mkSeries (removelast (s_names s)) ((λ it, (removelast it.1, it.2)) <$> s_items s).

Definition insert_at {A} (p : nat) (x : A) (l : list A) : list A :=
  take p l ++ x :: drop p l.

(** [s.unstack(level=name, fill_value=v)]: the values of that level become
    the columns, sorted; the rest of the tuple stays as row index, sorted;
    combinations that do not occur are filled.  Duplicate tuples cannot be
    reshaped.  (The rows are sorted by label here.  pandas sorts them by the
    codes of the index levels, which is the same but for a level whose
    labels are not kept in sorted order, as the level that [stack] makes of
    the column headers.) *)
Definition unstack (level : string) (fill_value : Z) (s : Series) : result DataFrame :=
  p ← level_pos level (s_names s);
  if decide (NoDup (s_items s).*1)
  then
    let cols := sort_labels (omap (λ it, it.1 !! p) (s_items s)) in
    let idx := sort_keys ((λ it, delete p it.1) <$> s_items s) in
    mret (mkDF (delete p (s_names s)) cols
            ((λ k, (k, (λ c, default (Some fill_value)
                               (dict_get (s_items s) (insert_at p c k))) <$> cols))
               <$> idx))
  else Raise ValueError.

(** [df.index.set_names(name, -1, True)] *)
Definition set_last_name (name : string) (df : DataFrame) : DataFrame :=
  mkDF (match index_names df with
        | [] => []
        | ns => removelast ns ++ [Some name]
        end) (columns df) (rows df).

(** [cells.fillna(v)] *)
Definition fillna (v : Z) (cells : list cell) : list cell :=
  (λ c, Some (default v c)) <$> cells.

(** [df.rename(index=mapper, inplace=True)]: on a multi-level index the
    mapper is applied to the labels of every level. *)
Definition rename_label (mapper : dict string string) (l : label) : label :=
  match l with
  | LStr s => match dict_get mapper s with
              | Some s' => LStr s'
              | None => l
              end
  | LInt _ => l
  end.

Definition rename_index (mapper : dict string string) (df : DataFrame) : DataFrame :=
  set_rows df ((λ r : key * list cell, (rename_label mapper <$> r.1, r.2)) <$> rows df).

End Pandas.

Module Script.
Import Pandas.

(** ** Inputs

    [E_matbytech_bycountry.csv]: the key columns, the technology and one
    numeric column per material.  [jobs_forplot.csv]: the identifying
    columns and one numeric column.  Key columns always hold a value;
    numeric cells may be empty.  The numbers are whole numbers: pandas
    reads a column of them as [int64] when no cell of the column is empty
    and as [float64] otherwise, which holds them exactly up to [2^53] in
    absolute value. *)

Record EmissionsRow := mkE {
  e_Country : string;
  e_Scenario : string;
  e_Year : Z;
  e_tech : string;
  e_values : list cell
}.

Record EmissionsCSV := mkECSV {
  e_materials : list string;          (* headers of the numeric columns *)
  e_rows : list EmissionsRow
}.

Record JobsRow := mkJ {
  j_Country : string;                 (* dropped by the script *)
  j_ISO3 : string;                    (* dropped by the script *)
  j_country : string;
  j_scenario : string;
  j_tech : string;
  j_parameter : string;
  j_Indicator : string;
  j_Year : Z;
  j_value : cell
}.

Record JobsCSV := mkJCSV {
  j_value_column : string;            (* header of the numeric column *)
  j_rows : list JobsRow
}.

(** ** [load_dfs] *)

Definition rename_dict : dict string string :=
  [ ("KE", "Kenya");
    ("RW", "Rwanda");
    ("UG", "Uganda");
    ("UK", "United Kingdom");
    ("ZM", "Zambia") ].

Definition countries : list string := rename_dict.*1.
Definition countries_alt : list string := filter (λ n, n ≠ "UK") countries.

(** [pd.read_csv(dir / filenames[...], index_col=0).fillna(0)] on the
    emissions file. *)
Definition read_emissions (emissions : EmissionsCSV) : list EmissionsRow :=
  (λ r, mkE (e_Country r) (e_Scenario r) (e_Year r) (e_tech r)
            (fillna 0 (e_values r))) <$> e_rows emissions.

(** The block [# emissions by year]. *)
Definition emissions_by_year (emissions : EmissionsCSV) : result DataFrame :=
  let mats := LStr <$> e_materials emissions in
  let df_ey := read_emissions emissions in
  df_ey ← loc (LStr <$> countries)
            (groupby_agg (agg_sum (length mats)) ["Country"; "Scenario"; "Year"] mats
               ((λ r, ([LStr (e_Country r); LStr (e_Scenario r); LInt (e_Year r)],
                       e_values r)) <$> df_ey));
  df_ey ← unstack "Year" 0 (stack df_ey);
  mret (set_last_name "Mat" df_ey).

(** The first statement of the block [# emissions by mat and tech]:
    [groupby([...]).first().loc[countries]]; the column [tech] is the level
    [Tech]. *)
Definition emissions_first (emissions : EmissionsCSV) : result DataFrame :=
  let mats := LStr <$> e_materials emissions in
  let df_et := read_emissions emissions in
  loc (LStr <$> countries)
    (groupby_agg (agg_first (length mats))
       ["Country"; "Scenario"; "Year"; "Tech"] mats
       ((λ r, ([LStr (e_Country r); LStr (e_Scenario r); LInt (e_Year r);
                LStr (e_tech r)],
               e_values r)) <$> df_et)).

(** The block [# emissions by mat and tech]: [(df_em, df_et)]. *)
Definition emissions_by_mat_and_tech (emissions : EmissionsCSV)
    : result (DataFrame * DataFrame) :=
  df_et ← emissions_first emissions;
  df_em ← groupby_levels_sum ["Country"; "Scenario"] df_et;
  df_et ← groupby_levels_sum ["Country"; "Scenario"; "Tech"] df_et;
  df_et ← unstack "Tech" 0 (stack df_et);
  mret (df_em, set_last_name "Mat" df_et).

(** The block [# employment data] up to the series [df_j]: the columns
    [Country] and [ISO3] are dropped, [country], [scenario] and [tech] are
    the levels [Country], [Scenario] and [Tech]. *)
Definition employment_series (jobs : JobsCSV) : result Series :=
  let df_j := j_rows jobs in
  (* drop first derivative rows *)
  let df_j := filter (λ r, j_parameter r = "Power Generation Capacity (Aggregate)") df_j in
  (* drop strange "Capacity" Indicator value *)
  let df_j := filter (λ r, j_Indicator r ≠ "Capacity") df_j in
  df_j ← loc (LStr <$> countries_alt)
           (groupby_agg (agg_first 1)
              ["Country"; "Scenario"; "Year"; "Tech"; "Indicator"]
              [LStr (j_value_column jobs)]
              ((λ r, ([LStr (j_country r); LStr (j_scenario r); LInt (j_Year r);
                       LStr (j_tech r); LStr (j_Indicator r)],
                      [j_value r])) <$> df_j));
  (* only one column left, transform into series with MultiIndex, drop last index level *)
  mret (series_droplevel_last (stack df_j)).

(** The four pivots of the series: [(df_jy, df_jyf, df_jt, df_ji)]. *)
Definition employment (jobs : JobsCSV)
    : result (DataFrame * DataFrame * DataFrame * DataFrame) :=
  df_j ← employment_series jobs;
  df_jyf ← unstack "Year" 0 df_j;
  df_jy ← series_groupby_sum ["Country"; "Scenario"; "Year"; "Tech"] df_j
            ≫= unstack "Year" 0;
  df_jt ← series_groupby_sum ["Country"; "Scenario"; "Indicator"; "Tech"] df_j
            ≫= unstack "Tech" 0;
  df_ji ← series_groupby_sum ["Country"; "Scenario"; "Indicator"] df_j
            ≫= unstack "Indicator" 0;
  mret (df_jy, df_jyf, df_jt, df_ji).

(** The seven tables as they stand before the renaming loop at the end of
    [load_dfs]. *)
Definition aggregate_tables (emissions : EmissionsCSV) (jobs : JobsCSV)
    : result (dict string DataFrame) :=
  df_ey ← emissions_by_year emissions;
  tables_e ← emissions_by_mat_and_tech emissions;
  let '(df_em, df_et) := tables_e in
  tables_j ← employment jobs;
  let '(df_jy, df_jyf, df_jt, df_ji) := tables_j in
  let res := [ ("emissions_year", df_ey);
               ("emissions_tech", df_et);
               ("emissions_mat", df_em);
               ("jobs_year", df_jy);
               ("jobs_year_full", df_jyf);
               ("jobs_tech", df_jt);
               ("jobs_ind", df_ji) ] in
  mret res.

(** [for name, df in res.items(): df.rename(index=rename_dict, inplace=True)] *)
Definition load_dfs (emissions : EmissionsCSV) (jobs : JobsCSV)
    : result (dict string DataFrame) :=
  res ← aggregate_tables emissions jobs;
  mret (fmap (M:=list) (λ nd, (nd.1, rename_index rename_dict nd.2)) res).

(** ** [df_to_dict] *)

#[local] Unset Elimination Schemes.
Inductive nested :=
| Leaf (d : dict label (dict label cell))
| Node (d : dict label nested).
#[local] Set Elimination Schemes.

(** The recursion strips one index level at a time; [levels] is the list of
    level names still on the table.  The recursive call does not pass
    [drop_full_zeros], which is then its default, [True]. *)
Fixpoint df_to_dict_levels (levels : list (option string)) (df : DataFrame)
    (drop_full_zeros : bool) : result nested :=
  match levels with
  | _ :: (_ :: _) as inner =>
      d ← mapM (λ ng, v ← df_to_dict_levels inner (droplevel0 ng.2) true;
                      mret (ng.1, v))
               (groupby_level0 df);
      mret (Node (dict_of_pairs d))
  | _ =>
      let df := if drop_full_zeros
                then drop_zero_cols (drop_zero_rows df) else df in
      Leaf <$> to_dict_index df
  end.

Definition df_to_dict (df : DataFrame) (drop_full_zeros : bool) : result nested :=
  df_to_dict_levels (index_names df) df drop_full_zeros.

(** ** [main]: the variables handed to the template *)

Definition template_variables (dfs : dict string DataFrame) (preserve_zeros : bool)
    : result (dict string nested) :=
  d ← mapM (λ nd, v ← df_to_dict nd.2 (negb preserve_zeros); mret (nd.1, v)) dfs;
  mret (dict_of_pairs d).

Definition main (emissions : EmissionsCSV) (jobs : JobsCSV) (preserve_zeros : bool)
    : result (dict string nested) :=
  dfs ← load_dfs emissions jobs;
  template_variables dfs preserve_zeros.

End Script.

Import Pandas Script.

(** * Vocabulary of the statements *)

(** Every row has one cell per column. *)
Definition rectangular (df : DataFrame) : Prop :=
  Forall (λ r, length r.2 = length (columns df)) (rows df).

(** The leaf-level zero filter of [df_to_dict]: rows first, then columns. *)
Definition zero_filter (df : DataFrame) : DataFrame :=
  drop_zero_cols (drop_zero_rows df).

(** The numeric content of a table: its cells row by row, and all of them
    in one list. *)
Definition cells (df : DataFrame) : list (list cell) := (rows df).*2.
Definition cell_values (df : DataFrame) : list cell := concat (cells df).
Definition shape (df : DataFrame) : nat * nat :=
  (length (rows df), length (columns df)).

(** The names of the result set, in the order of the source. *)
Definition table_names : list string :=
  [ "emissions_year"; "emissions_tech"; "emissions_mat";
    "jobs_year"; "jobs_year_full"; "jobs_tech"; "jobs_ind" ].

(** Reading a nested dictionary along an index tuple: the outer labels
    select sub-dictionaries, the last label selects the row mapping. *)
Fixpoint nested_get (v : nested) (path : key) : option (dict label cell) :=
  match path with
  | [] => None
  | l :: rest =>
      match v with
      | Leaf d => match rest with [] => dict_get d l | _ => None end
      | Node d => v' ← dict_get d l; nested_get v' rest
      end
  end.

(** [depth_is n v]: [v] has exactly [n] dictionary levels above its row
    mappings, on every branch. *)
Fixpoint depth_is (n : nat) (v : nested) : Prop :=
  match n, v with
  | O, Leaf _ => True
  | S n', Node d => Forall (λ kv, depth_is n' kv.2) d
  | _, _ => False
  end.

(** The row mapping found in a rendered variable set under a table name and
    an index tuple. *)
Definition lookup_row (vars : result (dict string nested)) (name : string)
    (path : key) : option (dict label cell) :=
  match vars with
  | Ok d => v ← dict_get d name; nested_get v path
  | Raise _ => None
  end.

(** ** Sample inputs *)

(** An emissions file with one material column, [Steel]: Kenya has 5 in
    2020 and 0 in 2021; the four other countries are present. *)
Definition ex_emissions : EmissionsCSV :=
  mkECSV ["Steel"]
    [ mkE "KE" "Base" 2020 "Solar" [Some 5];
      mkE "KE" "Base" 2021 "Solar" [Some 0];
      mkE "RW" "Base" 2020 "Solar" [Some 1];
      mkE "UG" "Base" 2020 "Solar" [Some 1];
      mkE "UK" "Base" 2020 "Solar" [Some 1];
      mkE "ZM" "Base" 2020 "Solar" [Some 1] ].

Definition aggregate_capacity : string := "Power Generation Capacity (Aggregate)".

(** A jobs file for the four countries that have jobs data; the second row
    has the indicator the script drops. *)
Definition ex_jobs : JobsCSV :=
  mkJCSV "value"
    [ mkJ "Kenya" "KEN" "KE" "Base" "Solar" aggregate_capacity "Direct" 2020 (Some 3);
      mkJ "Kenya" "KEN" "KE" "Base" "Solar" aggregate_capacity "Capacity" 2020 (Some 7);
      mkJ "Rwanda" "RWA" "RW" "Base" "Solar" aggregate_capacity "Direct" 2020 (Some 3);
      mkJ "Uganda" "UGA" "UG" "Base" "UK" aggregate_capacity "Direct" 2021 (Some 3);
      mkJ "Zambia" "ZMB" "ZM" "Base" "Wind" aggregate_capacity "Indirect" 2020 (Some 3) ].

(** The seven tables of the sample inputs before the renaming loop. *)
Definition ex_before : dict string DataFrame :=
  Eval vm_compute in
    match aggregate_tables ex_emissions ex_jobs with
    | Ok res => res
    | Raise _ => []
    end.

(** A two-level table with a zero row and a zero column in its only group. *)
Definition ex_two_level : DataFrame :=
  mkDF [Some "Country"; Some "Scenario"] [LStr "Steel"; LStr "Glass"]
    [ ([LStr "Kenya"; LStr "Base"], [Some 5; Some 0]);
      ([LStr "Kenya"; LStr "High"], [Some 0; Some 0]) ].

(** The same rows under a single-level index. *)
Definition ex_flat : DataFrame :=
  mkDF [Some "Scenario"] [LStr "Steel"; LStr "Glass"]
    [ ([LStr "Base"], [Some 5; Some 0]);
      ([LStr "High"], [Some 0; Some 0]) ].

(** A well-formed table: every row tuple has one label per index level and
    one cell per column, the row tuples are pairwise different, so are the
    column labels, and there is at least one index level.  This is what
    [groupby] and [unstack] produce. *)
Record wf_table (df : DataFrame) : Prop := mk_wf {
  wf_levels : Forall (λ r, length r.1 = length (index_names df)) (rows df);
  wf_cells : rectangular df;
  wf_index : NoDup (index df);
  wf_columns : NoDup (columns df);
  wf_named : index_names df ≠ []
}.

(** What [to_dict('index')] returns on a well-formed single-level table. *)
Definition flat_dict (df : DataFrame) : dict label (dict label cell) :=
  (λ r, (scalar r.1, zip (columns df) r.2)) <$> rows df.

(** Every row mapping of [v] sits under the index tuple of a row of [df] and
    maps column labels of [df] to the cells of that row. *)
Definition from_table (df : DataFrame) (v : nested) : Prop :=
  ∀ path row, nested_get v path = Some row →
    ∃ cs, (path, cs) ∈ rows df
          ∧ ∀ c x, dict_get row c = Some x →
              ∃ j, columns df !! j = Some c ∧ cs !! j = Some x.

(** Every cell of [df] that is not zero is found in [v] under its index
    tuple and its column label. *)
Definition keeps_nonzero (df : DataFrame) (v : nested) : Prop :=
  ∀ path cs j c x,
    (path, cs) ∈ rows df → columns df !! j = Some c → cs !! j = Some x →
    nonzero x = true →
    ∃ row, nested_get v path = Some row ∧ dict_get row c = Some x.

(** The labels of a column of labels with adjacent repetitions collapsed:
    for the outer index level, the labels of the blocks of rows in order. *)
Fixpoint uniq (l : list label) : list label :=
  match l with
  | [] => []
  | x :: l' =>
      match l' with
      | y :: _ => if decide (x = y) then uniq l' else x :: uniq l'
      | [] => [x]
      end
  end.

(** The outer labels of a list of tuples, and the tuples of a series. *)
Definition heads (ks : list key) : list label := omap head ks.
Definition s_index (s : Series) : list key := (s_items s).*1.

(** The full country names in configured order, and those of the countries
    that have jobs data. *)
Definition country_names : list label :=
  LStr <$> rename_dict.*2.
Definition country_names_alt : list label :=
  LStr <$> (filter (λ cn, cn.1 ≠ "UK") rename_dict).*2.

(** The jobs rows that pass the two filters of [load_dfs]. *)
Definition kept_jobs (jobs : JobsCSV) : list JobsRow :=
  filter (λ r, j_Indicator r ≠ "Capacity")
    (filter (λ r, j_parameter r = "Power Generation Capacity (Aggregate)")
       (j_rows jobs)).

Definition emissions_tables : list string :=
  [ "emissions_year"; "emissions_tech"; "emissions_mat" ].
Definition jobs_tables : list string :=
  [ "jobs_year"; "jobs_year_full"; "jobs_tech"; "jobs_ind" ].

(** The sub-dictionary reached through the outer levels along [p]. *)
Fixpoint nested_sub (v : nested) (p : key) : option nested :=
  match p with
  | [] => Some v
  | l :: rest =>
      match v with
      | Node d => v' ← dict_get d l; nested_sub v' rest
      | Leaf _ => None
      end
  end.

(** The keys of the outer dictionaries are label values of their level:
    whatever is reached along [p ++ [l]] lies on the index tuple of a row. *)
Definition keyed_by_levels (df : DataFrame) (v : nested) : Prop :=
  ∀ p l v', nested_sub v (p ++ [l]) = Some v' →
    ∃ k cs, (k, cs) ∈ rows df ∧ (p ++ [l]) `prefix_of` k.


(** The sub-table [g] that [df.groupby(level=0)] yields for an outer label. *)
Definition group_of (df : DataFrame) (name : label) : DataFrame :=
  set_rows df (filter (λ r, head r.1 = Some name) (rows df)).

(** The index level names of the seven tables, as the reshaping leaves
    them. *)
Definition table_levels : dict string (list (option string)) :=
  [ ("emissions_year", [Some "Country"; Some "Scenario"; Some "Mat"]);
    ("emissions_tech", [Some "Country"; Some "Scenario"; Some "Mat"]);
    ("emissions_mat", [Some "Country"; Some "Scenario"]);
    ("jobs_year", [Some "Country"; Some "Scenario"; Some "Tech"]);
    ("jobs_year_full",
     [Some "Country"; Some "Scenario"; Some "Tech"; Some "Indicator"]);
    ("jobs_tech", [Some "Country"; Some "Scenario"; Some "Indicator"]);
    ("jobs_ind", [Some "Country"; Some "Scenario"]) ].

(** No row mapping of [v] is zero everywhere. *)
Definition no_zero_rows (v : nested) : Prop :=
  ∀ path row, nested_get v path = Some row →
    ∃ c x, dict_get row c = Some x ∧ nonzero x = true.

(** Every column label of a row mapping of [v] has a cell that is not zero
    in some row of the same leaf. *)
Definition no_zero_columns (v : nested) : Prop :=
  ∀ path row c x, nested_get v path = Some row → dict_get row c = Some x →
    ∃ path' row' x',
      removelast path' = removelast path
      ∧ nested_get v path' = Some row'
      ∧ dict_get row' c = Some x' ∧ nonzero x' = true.

(** In every outer dictionary of [v] the keys are sorted and pairwise
    different. *)
Definition keys_sorted (v : nested) : Prop :=
  ∀ p d, nested_sub v p = Some (Node d) →
    StronglySorted label_le d.*1 ∧ NoDup d.*1.

(** The rows of a single-level table read back from its dictionary. *)
Definition rows_of_dict (d : dict label (dict label cell)) : list (key * list cell) :=
  (λ e, ([e.1], e.2.*2)) <$> d.

(** A well-formed table whose index labels all satisfy [P]. *)
Record good_table (P : label → Prop) (df : DataFrame) : Prop := mk_good {
  good_wf : wf_table df;
  good_index : Forall (Forall P) (index df)
}.

(** The same for a series: one label per level in every tuple, tuples
    pairwise different, no missing value. *)
Record good_series (P : label → Prop) (s : Series) : Prop := mk_goods {
  goods_levels : Forall (λ it, length it.1 = length (s_names s)) (s_items s);
  goods_index : NoDup (s_index s);
  goods_values : Forall (λ it, is_Some it.2) (s_items s);
  goods_labels : Forall (Forall P) (s_index s)
}.

(** No cell of the table is missing. *)
Definition no_missing (df : DataFrame) : Prop :=
  Forall (λ r, Forall is_Some r.2) (rows df).

(** The full country names that the renaming writes, and the labels that
    are none of them. *)
Definition full_names : list string := rename_dict.*2.
Definition plain (l : label) : Prop :=
  match l with
  | LStr s => s ∉ full_names
  | LInt _ => True
  end.

(** The labels that reach the index of a table satisfy [P]: the material
    headers and the key columns of the emissions rows of the configured
    countries; the key columns of the jobs rows that pass the filters, for
    the countries with jobs data. *)
Definition labelled_emissions (P : label → Prop) (emissions : EmissionsCSV) : Prop :=
  Forall P (LStr <$> e_materials emissions)
  ∧ Forall (λ r, e_Country r ∈ countries →
                 Forall P [LStr (e_Country r); LStr (e_Scenario r);
                           LInt (e_Year r); LStr (e_tech r)])
      (e_rows emissions).

Definition labelled_jobs (P : label → Prop) (jobs : JobsCSV) : Prop :=
  Forall (λ r, j_country r ∈ countries_alt →
               Forall P [LStr (j_country r); LStr (j_scenario r);
                         LInt (j_Year r); LStr (j_tech r);
                         LStr (j_Indicator r)])
    (kept_jobs jobs).

(** Every configured country has a row in the emissions file, and every
    country with jobs data has a row that passes the filters of the jobs
    file. *)
Definition countries_present (emissions : EmissionsCSV) (jobs : JobsCSV) : Prop :=
  Forall (λ c, c ∈ e_Country <$> e_rows emissions) countries
  ∧ Forall (λ c, c ∈ j_country <$> kept_jobs jobs) countries_alt.

(** No material, scenario, technology or indicator of the rows of the
    configured countries is called like a full country name. *)
Definition plain_inputs (emissions : EmissionsCSV) (jobs : JobsCSV) : Prop :=
  Forall (λ m, m ∉ full_names) (e_materials emissions)
  ∧ Forall (λ r, e_Country r ∈ countries →
                 (e_Scenario r ∉ full_names) ∧ (e_tech r ∉ full_names))
      (e_rows emissions)
  ∧ Forall (λ r, j_country r ∈ countries_alt →
                 (j_scenario r ∉ full_names) ∧ (j_tech r ∉ full_names)
                 ∧ (j_Indicator r ∉ full_names))
      (kept_jobs jobs).

(** An emissions file whose numeric columns pandas reads as [int64]: every
    row has a cell for every material column, no cell is empty, and every
    number is in the range of [int64]. *)
Definition is_int64 (c : cell) : Prop :=
  match c with
  | Some z => - 2 ^ 63 ≤ z < 2 ^ 63
  | None => False
  end.

Definition int64_columns (emissions : EmissionsCSV) : Prop :=
  Forall (λ r, length (e_values r) = length (e_materials emissions)
               ∧ Forall is_int64 (e_values r))
    (e_rows emissions).

(** The value of material number [i] in a row of the emissions file, a
    missing cell read as [0]; and its sum over the rows of a country, a
    scenario and a year. *)
Definition e_value (i : nat) (r : EmissionsRow) : Z :=
  default 0 (mjoin (e_values r !! i)).

Definition yearly_total (emissions : EmissionsCSV) (c s : string) (y : Z)
    (i : nat) : Z :=
  foldr Z.add 0
    (e_value i <$> filter (λ r, e_Country r = c ∧ e_Scenario r = s ∧ e_Year r = y)
                     (e_rows emissions)).


(** The column mask of a bare matrix of cells of width [n]. *)
Definition mask (M : list (list cell)) (n : nat) : list bool :=
  (λ j, existsb nonzero (omap (λ r, r !! j) M)) <$> seq 0 n.

Definition count_true (m : list bool) : nat := length (filter (λ b, b = true) m).

(** * The zero filter *)

Section zero_filter.
Implicit Types (M : list (list cell)) (r : list cell) (m : list bool).

Lemma omap_pointwise {A B} (f g : A → option B) (l : list A) :
  (∀ x, f x = g x) → omap f l = omap g l.
Proof. intros E. induction l as [|x l IH]; cbn; [done|]. by rewrite E, IH. Qed.

Lemma omap_fmap_comp {A B C} (f : A → B) (g : B → option C) (l : list A) :
  omap g (f <$> l) = omap (g ∘ f) l.
Proof. induction l as [|x l IH]; cbn; [done|]. by rewrite IH. Qed.

Lemma mask_S M n :
  mask M (S n) = existsb nonzero (omap head M) :: mask (tail <$> M) n.
Proof.
  unfold mask. cbn [seq fmap list_fmap]. f_equal.
  - f_equal. apply omap_pointwise. intros r. by rewrite head_lookup.
  - rewrite <-fmap_S_seq, <-list_fmap_compose. apply list_fmap_ext.
    intros _ j _. cbn. f_equal. rewrite omap_fmap_comp.
    apply omap_pointwise. intros r. cbn. by rewrite lookup_tail.
Qed.

Lemma select_nil {A} m : select m (@nil A) = [].
Proof. by destruct m. Qed.

(** A row that is zero everywhere does not change which columns are zero. *)
Lemma existsb_omap_filter M j :
  existsb nonzero (omap (λ r, r !! j) (filter (λ r, existsb nonzero r) M))
  = existsb nonzero (omap (λ r, r !! j) M).
Proof.
  induction M as [|r M IH]; [done|].
  rewrite filter_cons. destruct (decide _) as [Hr|Hr]; cbn.
  - destruct (r !! j); cbn; by rewrite IH.
  - destruct (r !! j) as [c|] eqn:Hj; cbn; [|done].
    rewrite IH. destruct (nonzero c) eqn:Hc; [|done].
    exfalso. apply Hr. apply Is_true_true, existsb_exists.
    exists c. split; [|done]. apply list_elem_of_In. by eapply list_elem_of_lookup_2.
Qed.

Lemma mask_filter M n : mask (filter (λ r, existsb nonzero r) M) n = mask M n.
Proof.
  unfold mask. apply list_fmap_ext. intros _ j _. apply existsb_omap_filter.
Qed.

(** Dropping the zero columns keeps every non-zero cell of a row. *)
Lemma existsb_select M n r :
  r ∈ M → (length r ≤ n)%nat →
  existsb nonzero (select (mask M n) r) = existsb nonzero r.
Proof.
  revert M r. induction n as [|n IH]; intros M r Hr Hlen.
  - destruct r; [done|]. cbn in Hlen. lia.
  - rewrite mask_S. destruct r as [|x r]; [by rewrite select_nil|].
    assert (x ∈ omap head M) as Hx.
    { apply list_elem_of_omap. by exists (x :: r). }
    assert (r ∈ tail <$> M) as Hr'.
    { apply list_elem_of_fmap. by exists (x :: r). }
    cbn in Hlen. cbn [select].
    destruct (existsb nonzero (omap head M)) eqn:Hb; cbn [existsb].
    + rewrite IH; [done|done|lia].
    + rewrite IH; [|done|lia].
      assert (nonzero x = false) as ->; [|done].
      destruct (nonzero x) eqn:Hnx; [|done].
      assert (existsb nonzero (omap head M) = true); [|congruence].
      apply existsb_exists. exists x. split; [|done]. by apply list_elem_of_In.
Qed.

Lemma fmap_select_cons_true M m :
  omap head (select (true :: m) <$> M) = omap head M
  ∧ tail <$> (select (true :: m) <$> M) = select m <$> (tail <$> M).
Proof.
  induction M as [|r M [IH1 IH2]]; [done|].
  destruct r as [|x r]; cbn.
  - rewrite select_nil. split; [done|]. by f_equal.
  - split; by f_equal.
Qed.

Lemma fmap_select_cons_false M m :
  select (false :: m) <$> M = select m <$> (tail <$> M).
Proof.
  induction M as [|r M IH]; [done|].
  destruct r as [|x r]; cbn; [rewrite select_nil|]; by f_equal.
Qed.

(** After the column drop, no column is zero. *)
Lemma mask_select M n :
  mask (select (mask M n) <$> M) (count_true (mask M n))
  = replicate (count_true (mask M n)) true.
Proof.
  revert M. induction n as [|n IH]; intros M; [done|].
  rewrite mask_S. destruct (existsb nonzero (omap head M)) eqn:Hb.
  - unfold count_true. rewrite filter_cons_True by done. cbn [length replicate].
    rewrite mask_S.
    destruct (fmap_select_cons_true M (mask (tail <$> M) n)) as [-> ->].
    rewrite Hb. f_equal. apply IH.
  - unfold count_true. rewrite filter_cons_False by done.
    rewrite fmap_select_cons_false. apply IH.
Qed.

Lemma count_true_cons b m :
  count_true (b :: m) = if b then S (count_true m) else count_true m.
Proof.
  unfold count_true. destruct b.
  - by rewrite filter_cons_True.
  - by rewrite filter_cons_False.
Qed.

Lemma length_select_le {A} m (l : list A) : (length (select m l) ≤ count_true m)%nat.
Proof.
  revert l. induction m as [|b m IH]; intros l.
  - destruct l; cbn; lia.
  - rewrite count_true_cons. destruct l as [|x l]; [cbn; lia|].
    specialize (IH l). destruct b; cbn [select length]; lia.
Qed.

Lemma length_select {A} m (l : list A) :
  length l = length m → length (select m l) = count_true m.
Proof.
  revert l. induction m as [|b m IH]; intros [|x l]; try done.
  intros [= Hl]. rewrite count_true_cons. cbn [select].
  destruct b; cbn [length]; by rewrite IH.
Qed.

Lemma select_replicate_true {A} n (l : list A) :
  (length l ≤ n)%nat → select (replicate n true) l = l.
Proof.
  revert l. induction n as [|n IH]; intros [|x l]; cbn; try done; try lia.
  intros. f_equal. apply IH. lia.
Qed.

Lemma filter_fmap_on {A B} (f : A → B) (P : B → Prop) (Q : A → Prop)
    `{∀ y, Decision (P y)} `{∀ x, Decision (Q x)} (l : list A) :
  Forall (λ x, P (f x) ↔ Q x) l → filter P (f <$> l) = f <$> filter Q l.
Proof.
  induction 1 as [|x l Hx Hl IH]; [done|].
  cbn [fmap list_fmap]. rewrite !filter_cons, IH.
  destruct (decide (P (f x))), (decide (Q x)); [done|tauto|tauto|done].
Qed.

Lemma filter_all {A} (P : A → Prop) `{∀ x, Decision (P x)} (l : list A) :
  Forall P l → filter P l = l.
Proof.
  induction 1 as [|x l Hx _ IH]; [done|]. by rewrite filter_cons_True, IH.
Qed.

Lemma nonzero_columns_mask df :
  nonzero_columns df = mask (rows df).*2 (length (columns df)).
Proof.
  unfold nonzero_columns, mask, column_cells. apply list_fmap_ext.
  intros _ j _. by rewrite omap_fmap_comp.
Qed.

Lemma snd_drop_zero_rows df :
  (rows (drop_zero_rows df)).*2
  = filter (λ c : list cell, existsb nonzero c) (rows df).*2.
Proof.
  cbn. symmetry. apply filter_fmap_on, Forall_true. done.
Qed.

Lemma nonzero_columns_drop_zero_rows df :
  nonzero_columns (drop_zero_rows df) = nonzero_columns df.
Proof. by rewrite !nonzero_columns_mask, snd_drop_zero_rows, mask_filter. Qed.

Lemma rectangular_drop_zero_rows df : rectangular df → rectangular (drop_zero_rows df).
Proof.
  unfold rectangular. cbn. rewrite !Forall_forall.
  intros Hr r [_ Hin]%list_elem_of_filter. by apply Hr.
Qed.

Lemma existsb_select_row df (rw : key * list cell) :
  rectangular df → rw ∈ rows df →
  existsb nonzero (select (nonzero_columns df) rw.2) = existsb nonzero rw.2.
Proof.
  revert rw. intros r Hrect Hr. rewrite nonzero_columns_mask. apply existsb_select.
  - apply list_elem_of_fmap. by exists r.
  - unfold rectangular in Hrect. rewrite Forall_forall in Hrect.
    by rewrite (Hrect r Hr).
Qed.

Lemma drop_zero_rows_zero_filter df :
  rectangular df → drop_zero_rows (zero_filter df) = zero_filter df.
Proof.
  intros Hrect. unfold zero_filter.
  pose proof (rectangular_drop_zero_rows df Hrect) as H1.
  assert (Forall (λ rw : key * list cell, existsb nonzero rw.2)
            (rows (drop_zero_rows df))) as Hnz.
  { cbn. apply Forall_forall. by intros rw [? _]%list_elem_of_filter. }
  revert H1 Hnz. generalize (drop_zero_rows df). intros d1 H1 Hnz.
  unfold drop_zero_rows, set_rows, drop_zero_cols. cbn [index_names columns rows].
  f_equal. apply filter_all, Forall_forall.
  intros r' (rw & -> & Hr)%list_elem_of_fmap. cbn [snd].
  rewrite existsb_select_row by done.
  rewrite Forall_forall in Hnz. by apply Hnz.
Qed.

Lemma nonzero_columns_drop_zero_cols df :
  nonzero_columns (drop_zero_cols df)
  = replicate (count_true (nonzero_columns df)) true.
Proof.
  rewrite (nonzero_columns_mask (drop_zero_cols df)).
  assert ((rows (drop_zero_cols df)).*2
          = select (nonzero_columns df) <$> (rows df).*2) as ->.
  { unfold drop_zero_cols. cbn [rows]. by rewrite <-!list_fmap_compose. }
  assert (length (columns (drop_zero_cols df))
          = count_true (nonzero_columns df)) as ->.
  { unfold drop_zero_cols. cbn [columns]. apply length_select.
    unfold nonzero_columns. by rewrite length_fmap, length_seq. }
  rewrite (nonzero_columns_mask df). apply mask_select.
Qed.

Lemma drop_zero_cols_idem df :
  drop_zero_cols (drop_zero_cols df) = drop_zero_cols df.
Proof.
  unfold drop_zero_cols at 1. rewrite nonzero_columns_drop_zero_cols.
  destruct (drop_zero_cols df) as [ns cs rs] eqn:E. cbn [index_names columns rows].
  assert (cs = select (nonzero_columns df) (columns df)) as Hcs.
  { unfold drop_zero_cols in E. by injection E. }
  assert (rs = (λ rw : key * list cell, (rw.1, select (nonzero_columns df) rw.2))
                 <$> rows df) as Hrs.
  { unfold drop_zero_cols in E. by injection E. }
  f_equal.
  - rewrite Hcs. apply select_replicate_true, length_select_le.
  - rewrite <-(list_fmap_id rs) at 2. apply list_fmap_ext.
    intros i [k cells] Hi. cbn. f_equal.
    apply select_replicate_true.
    rewrite Hrs, list_lookup_fmap in Hi.
    destruct (rows df !! i) as [rw|]; [|done]. injection Hi as _ <-.
    apply length_select_le.
Qed.
End zero_filter.

(** C6.  The leaf-level zero filter (drop the all-zero rows, then the columns
    that are all zero in the rows that are left) is idempotent: applied to a
    table that has been filtered, it returns that table. *)
Theorem zero_filter_idempotent (df : DataFrame) :
  rectangular df →
  drop_zero_cols (drop_zero_rows (drop_zero_cols (drop_zero_rows df)))
  = drop_zero_cols (drop_zero_rows df).
Proof.
  intros Hrect. fold (zero_filter df).
  rewrite drop_zero_rows_zero_filter by done. unfold zero_filter.
  apply drop_zero_cols_idem.
Qed.

Lemma zero_filter_idempotent_witness :
  rectangular ex_flat
  ∧ drop_zero_cols (drop_zero_rows (drop_zero_cols (drop_zero_rows ex_flat)))
    = drop_zero_cols (drop_zero_rows ex_flat).
Proof.
  assert (rectangular ex_flat) as H by (repeat constructor).
  split; [exact H|]. apply (zero_filter_idempotent ex_flat), H.
Defined.

(** C9.  The two passes of the zero filter commute: dropping the all-zero
    rows and then the columns that are all zero in the remaining rows gives
    the table obtained by dropping the all-zero columns first and the
    all-zero rows second. *)
Theorem zero_filter_passes_commute (df : DataFrame) :
  rectangular df →
  drop_zero_cols (drop_zero_rows df) = drop_zero_rows (drop_zero_cols df).
Proof.
  intros Hrect. unfold drop_zero_cols at 1.
  rewrite nonzero_columns_drop_zero_rows.
  unfold drop_zero_rows, drop_zero_cols, set_rows. cbn. f_equal.
  symmetry. apply filter_fmap_on. apply Forall_forall. intros r Hr. cbn.
  by rewrite existsb_select_row.
Qed.

Lemma zero_filter_passes_commute_witness :
  rectangular ex_flat
  ∧ drop_zero_cols (drop_zero_rows ex_flat) = drop_zero_rows (drop_zero_cols ex_flat).
Proof.
  assert (rectangular ex_flat) as H by (repeat constructor).
  split; [exact H|]. apply (zero_filter_passes_commute ex_flat), H.
Defined.

(** * [df_to_dict]: the two branches *)

Section df_to_dict_equations.

Lemma mapM_result_ext {A B} (f g : A → result B) (l : list A) :
  Forall (λ x, f x = g x) l → mapM f l = mapM g l.
Proof.
  induction 1 as [|x l Hx Hl IH]; [done|]. cbn. by rewrite Hx, IH.
Qed.

Lemma index_names_group df ng :
  ng ∈ groupby_level0 df → index_names ng.2 = index_names df.
Proof. by intros (name & -> & _)%list_elem_of_fmap. Qed.

Lemma df_to_dict_multi df flag :
  is_multiindex df = true →
  df_to_dict df flag
  = d ← mapM (λ ng, v ← df_to_dict (droplevel0 ng.2) true; mret (ng.1, v))
             (groupby_level0 df);
    mret (Node (dict_of_pairs d)).
Proof.
  unfold is_multiindex, df_to_dict. intros Hm%bool_decide_eq_true.
  destruct (index_names df) as [|n0 [|n1 inner]] eqn:E; cbn in Hm; [lia..|].
  cbn [df_to_dict_levels]. f_equal. apply mapM_result_ext, Forall_forall.
  intros ng Hng. cbn [droplevel0 index_names].
  by rewrite (index_names_group df ng Hng), E.
Qed.

Lemma df_to_dict_flat df flag :
  is_multiindex df = false →
  df_to_dict df flag
  = Leaf <$> to_dict_index (if flag then drop_zero_cols (drop_zero_rows df) else df).
Proof.
  unfold is_multiindex, df_to_dict. intros Hm%bool_decide_eq_false.
  destruct (index_names df) as [|n0 [|n1 inner]] eqn:E; cbn in Hm; [done..|lia].
Qed.

End df_to_dict_equations.

(** The zero row and the zero column of the sample table are gone although
    the caller asked to keep them. *)
Example two_level_preserve_zeros :
  df_to_dict ex_two_level false
  = Ok (Node [(LStr "Kenya", Leaf [(LStr "Base", [(LStr "Steel", Some 5)])])]).
Proof. vm_compute. reflexivity. Qed.

Example flat_preserve_zeros :
  df_to_dict ex_flat false
  = Ok (Leaf [(LStr "Base", [(LStr "Steel", Some 5); (LStr "Glass", Some 0)]);
              (LStr "High", [(LStr "Steel", Some 0); (LStr "Glass", Some 0)])]).
Proof. vm_compute. reflexivity. Qed.

(** * The renaming loop *)

Section renaming.

Lemma rename_index_cells mapper df : cells (rename_index mapper df) = cells df.
Proof.
  unfold cells, rename_index. cbn. rewrite <-list_fmap_compose.
  by apply list_fmap_ext.
Qed.

Lemma rename_index_shape mapper df : shape (rename_index mapper df) = shape df.
Proof. unfold shape, rename_index. cbn. by rewrite length_fmap. Qed.

Lemma rename_index_index mapper df :
  index (rename_index mapper df)
  = (λ k : key, rename_label mapper <$> k) <$> index df.
Proof.
  unfold index, rename_index. cbn. rewrite <-!list_fmap_compose.
  by apply list_fmap_ext.
Qed.

Lemma load_dfs_renames emissions jobs res0 :
  aggregate_tables emissions jobs = Ok res0 →
  load_dfs emissions jobs
  = Ok ((λ nd, (nd.1, rename_index rename_dict nd.2)) <$> res0).
Proof. unfold load_dfs. by intros ->. Qed.

Lemma aggregate_tables_names emissions jobs res0 :
  aggregate_tables emissions jobs = Ok res0 → res0.*1 = table_names.
Proof.
  unfold aggregate_tables. intros H.
  destruct (emissions_by_year emissions) as [df_ey|]; [|done].
  destruct (emissions_by_mat_and_tech emissions) as [[df_em df_et]|]; [|done].
  destruct (employment jobs) as [[[[df_jy df_jyf] df_jt] df_ji]|]; [|done].
  by injection H as <-.
Qed.

End renaming.

(** C7.  The renaming loop only relabels: for each of the seven tables the
    cells after the loop are the cells before it (so the multiset of cell
    values is the same) and the numbers of rows and columns are unchanged. *)
Theorem renaming_is_pure_relabeling emissions jobs (before : dict string DataFrame) :
  aggregate_tables emissions jobs = Ok before →
  ∃ after,
    load_dfs emissions jobs = Ok after
    ∧ after.*1 = table_names
    ∧ Forall2 (λ b a, a.1 = b.1
                      ∧ cells a.2 = cells b.2
                      ∧ cell_values a.2 ≡ₚ cell_values b.2
                      ∧ shape a.2 = shape b.2)
              before after.
Proof.
  intros Hagg. eexists. split; [by apply load_dfs_renames|]. split.
  - rewrite <-list_fmap_compose. rewrite <-(aggregate_tables_names _ _ _ Hagg).
    by apply list_fmap_ext.
  - apply Forall2_fmap_r, Forall_Forall2_diag, Forall_forall.
    intros [name df] _. unfold compose, cell_values. cbn [fst snd].
    rewrite rename_index_cells, rename_index_shape. done.
Qed.

Lemma renaming_is_pure_relabeling_witness :
  aggregate_tables ex_emissions ex_jobs = Ok ex_before
  ∧ ∃ after,
      load_dfs ex_emissions ex_jobs = Ok after
      ∧ after.*1 = table_names
      ∧ Forall2 (λ b a, a.1 = b.1
                        ∧ cells a.2 = cells b.2
                        ∧ cell_values a.2 ≡ₚ cell_values b.2
                        ∧ shape a.2 = shape b.2)
                ex_before after.
Proof.
  split; [vm_compute; reflexivity|].
  apply (renaming_is_pure_relabeling ex_emissions ex_jobs ex_before).
  vm_compute. reflexivity.
Defined.

(** C10.  The renaming is applied to the labels of every level of the row
    index of each table: the index after the loop is the index before it
    with every label mapped through [rename_dict], so a label of any level
    that equals one of the five codes becomes the country name. *)
Theorem renaming_applies_to_every_level emissions jobs (before : dict string DataFrame) :
  aggregate_tables emissions jobs = Ok before →
  ∃ after,
    load_dfs emissions jobs = Ok after
    ∧ Forall2 (λ b a, a.1 = b.1
                      ∧ index a.2 = (λ k : key, rename_label rename_dict <$> k) <$> index b.2
                      ∧ ∀ j k i code name,
                          index b.2 !! j = Some k →
                          k !! i = Some (LStr code) →
                          (code, name) ∈ rename_dict →
                          ∃ k', index a.2 !! j = Some k' ∧ k' !! i = Some (LStr name))
              before after.
Proof.
  intros Hagg. eexists. split; [by apply load_dfs_renames|].
  apply Forall2_fmap_r, Forall_Forall2_diag, Forall_forall.
  intros [name df] _. unfold compose. cbn [fst snd]. rewrite rename_index_index.
  split; [done|]. split; [done|].
  intros j k i code nm Hj Hi Hin.
  exists (rename_label rename_dict <$> k). split.
  - by rewrite list_lookup_fmap, Hj.
  - rewrite list_lookup_fmap, Hi. cbn. f_equal.
    unfold rename_dict in Hin. set_unfold in Hin.
    destruct Hin as [Hin|[Hin|[Hin|[Hin|[Hin|Hin]]]]]; [..|done];
      injection Hin as -> ->; reflexivity.
Qed.

Lemma renaming_applies_to_every_level_witness :
  aggregate_tables ex_emissions ex_jobs = Ok ex_before
  ∧ ∃ after,
      load_dfs ex_emissions ex_jobs = Ok after
      ∧ Forall2 (λ b a, a.1 = b.1
                        ∧ index a.2 = (λ k : key, rename_label rename_dict <$> k) <$> index b.2
                        ∧ ∀ j k i code name,
                            index b.2 !! j = Some k →
                            k !! i = Some (LStr code) →
                            (code, name) ∈ rename_dict →
                            ∃ k', index a.2 !! j = Some k' ∧ k' !! i = Some (LStr name))
                ex_before after.
Proof.
  split; [vm_compute; reflexivity|].
  apply (renaming_applies_to_every_level ex_emissions ex_jobs ex_before).
  vm_compute. reflexivity.
Defined.

(** In the sample jobs file Uganda has a technology called [UK]; in
    [jobs_year] it sits in the third index level and is renamed. *)
Example tech_label_renamed :
  (λ dfs, index <$> dict_get dfs "jobs_year") <$> load_dfs ex_emissions ex_jobs
  = Ok (Some [ [LStr "Kenya"; LStr "Base"; LStr "Solar"];
               [LStr "Rwanda"; LStr "Base"; LStr "Solar"];
               [LStr "Uganda"; LStr "Base"; LStr "United Kingdom"];
               [LStr "Zambia"; LStr "Base"; LStr "Wind"] ]).
Proof. vm_compute. reflexivity. Qed.

(** * The jobs filters *)




(** * The end-to-end emissions scenario *)

(** C2.  With the sample emissions file (Kenya, Base, Steel: 5 in 2020 and 0
    in 2021) the variable [emissions_year] maps Kenya, Base, Steel to
    [{2020: 5}] when zeros are dropped, and to the same [{2020: 5}] when
    [preserve_zeros] is set: the 2021 column is not kept. *)
Theorem emissions_year_scenario :
  lookup_row (main ex_emissions ex_jobs false) "emissions_year"
    [LStr "Kenya"; LStr "Base"; LStr "Steel"]
  = Some [(LInt 2020, Some 5)]
  ∧ lookup_row (main ex_emissions ex_jobs true) "emissions_year"
      [LStr "Kenya"; LStr "Base"; LStr "Steel"]
    = Some [(LInt 2020, Some 5)]
  ∧ lookup_row (main ex_emissions ex_jobs true) "emissions_year"
      [LStr "Kenya"; LStr "Base"; LStr "Steel"]
    ≠ Some [(LInt 2020, Some 5); (LInt 2021, Some 0)].
Proof. split; [|split]; vm_compute; [reflexivity..|discriminate]. Qed.

(** * Dictionaries and sorted labels *)

Section dicts.
Context {K V : Type} `{EqDecision K}.
Implicit Types (d : dict K V) (k : K) (v : V).

Lemma dict_set_fresh d k v : k ∉ d.*1 → dict_set d k v = d ++ [(k, v)].
Proof.
  induction d as [|[k' v'] d IH]; [done|]. cbn. intros Hk.
  destruct (decide (k = k')) as [->|Hne]; [set_solver|].
  rewrite IH; [done|set_solver].
Qed.

Lemma foldl_dict_set d (l : list (K * V)) :
  NoDup (d ++ l).*1 → foldl (λ d kv, dict_set d kv.1 kv.2) d l = d ++ l.
Proof.
  revert d. induction l as [|[k v] l IH]; intros d Hnd; cbn.
  - by rewrite app_nil_r.
  - rewrite fmap_app in Hnd. cbn in Hnd.
    apply NoDup_app in Hnd as (Hd & Hdl & Hl).
    rewrite dict_set_fresh by (intros Hk; apply (Hdl k Hk); left).
    rewrite IH; [by rewrite <-app_assoc|].
    rewrite <-app_assoc, fmap_app. cbn. apply NoDup_app. done.
Qed.

Lemma dict_of_pairs_nodup (l : list (K * V)) : NoDup l.*1 → dict_of_pairs l = l.
Proof. intros Hnd. unfold dict_of_pairs. by rewrite foldl_dict_set. Qed.

Lemma dict_get_Some d k v : NoDup d.*1 → dict_get d k = Some v ↔ (k, v) ∈ d.
Proof.
  induction d as [|[k' v'] d IH]; cbn; [set_solver|].
  intros [Hk' Hd]%NoDup_cons. destruct (decide (k = k')) as [->|Hne].
  - split; [intros [= ->]; left|].
    intros [[= ->]|Hin]%elem_of_cons; [done|].
    exfalso. apply Hk'. apply list_elem_of_fmap. by exists (k', v).
  - rewrite IH by done. split; [by right|].
    intros [[= -> ->]|Hin]%elem_of_cons; done.
Qed.

Lemma dict_get_None d k : dict_get d k = None ↔ k ∉ d.*1.
Proof.
  induction d as [|[k' v'] d IH]; cbn; [set_solver|].
  destruct (decide (k = k')) as [->|Hne]; [set_solver|].
  rewrite IH. set_solver.
Qed.

Lemma dict_get_elem_of d k v : dict_get d k = Some v → (k, v) ∈ d.
Proof.
  induction d as [|[k' v'] d IH]; cbn; [done|].
  destruct (decide (k = k')) as [->|Hne]; [intros [= ->]; left|].
  intros Hg. right. by apply IH.
Qed.
End dicts.

Section sorted_labels.

Lemma elem_of_sort_labels (l : list label) x : x ∈ sort_labels l ↔ x ∈ l.
Proof.
  unfold sort_labels. by rewrite merge_sort_Permutation, elem_of_remove_dups.
Qed.

Lemma NoDup_sort_labels (l : list label) : NoDup (sort_labels l).
Proof.
  unfold sort_labels. rewrite merge_sort_Permutation. apply NoDup_remove_dups.
Qed.

Lemma elem_of_sort_keys (l : list key) x : x ∈ sort_keys l ↔ x ∈ l.
Proof.
  unfold sort_keys. by rewrite merge_sort_Permutation, elem_of_remove_dups.
Qed.

End sorted_labels.

(** * Single-level tables *)

Section flat_tables.
Implicit Types (df : DataFrame) (m : list bool).

Lemma zip_select {A B} m (a : list A) (b : list B) :
  zip (select m a) (select m b) = select m (zip a b).
Proof.
  revert a b. induction m as [|[] m IH]; intros [|x a] [|y b]; cbn;
    rewrite ?select_nil, ?IH; try done; by destruct (select m a).
Qed.

Lemma elem_of_select {A} m (l : list A) y :
  y ∈ select m l ↔ ∃ j, m !! j = Some true ∧ l !! j = Some y.
Proof.
  revert l. induction m as [|b m IH]; intros [|x l]; cbn.
  - split; [by intros ?%elem_of_nil|by intros (j & ? & ?)].
  - split; [by intros ?%elem_of_nil|by intros (j & ? & ?)].
  - split; [by intros ?%elem_of_nil|by intros (j & ? & ?)].
  - destruct b.
    + rewrite elem_of_cons, IH. split.
      * intros [->|(j & ? & ?)]; [by exists 0%nat|by exists (S j)].
      * intros ([|j] & Hm & Hl); cbn in *; [left; congruence|right; eauto].
    + rewrite IH. split.
      * intros (j & ? & ?). by exists (S j).
      * intros ([|j] & Hm & Hl); cbn in *; [done|eauto].
Qed.

Lemma select_sublist {A} m (l : list A) : select m l `sublist_of` l.
Proof.
  revert l. induction m as [|[] m IH]; intros [|x l]; cbn; try done.
  - apply sublist_nil_l.
  - by apply sublist_skip.
  - by apply sublist_cons.
Qed.

Lemma nonzero_columns_lookup df j :
  nonzero_columns df !! j = Some true
  ↔ (j < length (columns df))%nat
    ∧ ∃ r x, r ∈ rows df ∧ r.2 !! j = Some x ∧ nonzero x = true.
Proof.
  unfold nonzero_columns, column_cells. rewrite list_lookup_fmap. split.
  - intros Hj. destruct (seq 0 (length (columns df)) !! j) as [i|] eqn:Hi; [|done].
    apply lookup_seq in Hi as [-> Hlt]. cbn in Hj. injection Hj as Hj.
    split; [done|].
    apply existsb_exists in Hj as (x & Hx & Hnz).
    apply list_elem_of_In, list_elem_of_omap in Hx as (r & Hr & Hrj). eauto.
  - intros (Hlt & r & x & Hr & Hrj & Hnz).
    rewrite (lookup_seq_lt _ _ _ Hlt). cbn. f_equal.
    apply existsb_exists. exists x. split; [|done].
    apply list_elem_of_In, list_elem_of_omap. eauto.
Qed.

Lemma length_nonzero_columns df : length (nonzero_columns df) = length (columns df).
Proof. unfold nonzero_columns. by rewrite length_fmap, length_seq. Qed.

Lemma columns_zero_filter df :
  columns (zero_filter df) = select (nonzero_columns df) (columns df).
Proof.
  unfold zero_filter, drop_zero_cols. cbn [columns].
  by rewrite nonzero_columns_drop_zero_rows.
Qed.

Lemma rows_zero_filter df :
  rows (zero_filter df)
  = (λ r : key * list cell, (r.1, select (nonzero_columns df) r.2))
      <$> filter (λ r, existsb nonzero r.2) (rows df).
Proof.
  unfold zero_filter, drop_zero_cols. cbn [rows].
  by rewrite nonzero_columns_drop_zero_rows.
Qed.

Lemma elem_of_rows_zero_filter df k cs' :
  (k, cs') ∈ rows (zero_filter df)
  ↔ ∃ cs, (k, cs) ∈ rows df ∧ existsb nonzero cs = true
          ∧ cs' = select (nonzero_columns df) cs.
Proof.
  rewrite rows_zero_filter, list_elem_of_fmap. split.
  - intros ([k0 cs] & [= -> ->] & [Hnz Hin]%list_elem_of_filter).
    exists cs. cbn in Hnz. by apply Is_true_true in Hnz.
  - intros (cs & Hin & Hnz & ->). exists (k, cs). split; [done|].
    apply list_elem_of_filter. split; [|done]. cbn. by apply Is_true_true.
Qed.

Lemma wf_zero_filter df : wf_table df → wf_table (zero_filter df).
Proof.
  intros [Hlev Hrect Hidx Hcols Hnm]. split.
  - rewrite rows_zero_filter. apply Forall_fmap, Forall_forall.
    intros r [_ Hr]%list_elem_of_filter. cbn.
    rewrite Forall_forall in Hlev. by apply Hlev.
  - unfold rectangular. rewrite columns_zero_filter, rows_zero_filter.
    apply Forall_fmap, Forall_forall.
    intros r [_ Hr]%list_elem_of_filter. cbn.
    unfold rectangular in Hrect. rewrite Forall_forall in Hrect.
    rewrite !length_select; [done|by rewrite length_nonzero_columns|].
    by rewrite length_nonzero_columns, (Hrect r Hr).
  - unfold index. rewrite rows_zero_filter, <-list_fmap_compose.
    eapply sublist_NoDup; [exact Hidx|].
    unfold index. apply (fmap_sublist fst), sublist_filter.
  - rewrite columns_zero_filter. eapply sublist_NoDup; [exact Hcols|].
    apply select_sublist.
  - done.
Qed.

Lemma flat_key df r :
  wf_table df → length (index_names df) = 1%nat → r ∈ rows df →
  r.1 = [scalar r.1].
Proof.
  intros [Hlev _ _ _ _] Hn Hr. rewrite Forall_forall in Hlev.
  specialize (Hlev r Hr). rewrite Hn in Hlev.
  by destruct (r.1) as [|l [|??]].
Qed.

Lemma zip_get (cols : list label) (cs : list cell) c x :
  NoDup cols → length cs = length cols →
  dict_get (zip cols cs) c = Some x
  ↔ ∃ j, cols !! j = Some c ∧ cs !! j = Some x.
Proof.
  intros Hnd Hlen. rewrite dict_get_Some by (rewrite fst_zip; [done|lia]).
  rewrite list_elem_of_lookup. by setoid_rewrite lookup_zip_Some.
Qed.

Lemma NoDup_flat_dict df :
  wf_table df → length (index_names df) = 1%nat → NoDup (flat_dict df).*1.
Proof.
  intros Hwf Hn. unfold flat_dict. rewrite <-list_fmap_compose.
  pose proof (wf_index df Hwf) as Hidx. unfold index in Hidx.
  assert ((fst ∘ (λ r : key * list cell, (scalar r.1, zip (columns df) r.2)))
          <$> rows df = scalar <$> (rows df).*1) as ->.
  { rewrite <-list_fmap_compose. by apply list_fmap_ext. }
  apply NoDup_fmap_2_strong; [|done].
  intros k1 k2 (r1 & -> & Hr1)%list_elem_of_fmap (r2 & -> & Hr2)%list_elem_of_fmap Hs.
  rewrite (flat_key df r1), (flat_key df r2) by done. by rewrite Hs.
Qed.

Lemma to_dict_index_wf df :
  wf_table df → length (index_names df) = 1%nat →
  to_dict_index df = Ok (flat_dict df).
Proof.
  intros Hwf Hn. unfold to_dict_index.
  destruct (decide (NoDup (index df))) as [_|Hnd]; [|by destruct Hnd, Hwf].
  f_equal.
  assert ((λ r : key * list cell,
             (scalar r.1, dict_of_pairs (zip (columns df) r.2))) <$> rows df
          = flat_dict df) as ->.
  { apply list_fmap_ext. intros i r Hr. f_equal. apply dict_of_pairs_nodup.
    pose proof (wf_cells df Hwf) as Hrect. unfold rectangular in Hrect.
    rewrite Forall_forall in Hrect.
    rewrite fst_zip; [by destruct Hwf|].
    rewrite (Hrect r); [done|]. by eapply list_elem_of_lookup_2. }
  apply dict_of_pairs_nodup. by apply NoDup_flat_dict.
Qed.

Lemma flat_dict_get df l row :
  wf_table df → length (index_names df) = 1%nat →
  dict_get (flat_dict df) l = Some row
  ↔ ∃ cs, ([l], cs) ∈ rows df ∧ row = zip (columns df) cs.
Proof.
  intros Hwf Hn. rewrite dict_get_Some by by apply NoDup_flat_dict.
  unfold flat_dict. rewrite list_elem_of_fmap. split.
  - intros ([k cs] & [= -> ->] & Hr). exists cs. split; [|done].
    pose proof (flat_key df (k, cs) Hwf Hn Hr) as Hk. cbn in Hk. by rewrite <-Hk.
  - intros (cs & Hr & ->). by exists ([l], cs).
Qed.

Lemma nested_get_leaf d path :
  nested_get (Leaf d) path
  = match path with [l] => dict_get d l | _ => None end.
Proof. by destruct path as [|l [|??]]. Qed.

End flat_tables.

Section flat_result.
Implicit Types (df : DataFrame).

Lemma wf_row_length df r : wf_table df → r ∈ rows df → length r.2 = length (columns df).
Proof.
  intros Hwf Hr. pose proof (wf_cells df Hwf) as Hrect.
  unfold rectangular in Hrect. rewrite Forall_forall in Hrect. by apply Hrect.
Qed.

Lemma row_dict_get df k cs c x :
  wf_table df → (k, cs) ∈ rows df →
  dict_get (zip (columns df) cs) c = Some x
  ↔ ∃ j, columns df !! j = Some c ∧ cs !! j = Some x.
Proof.
  intros Hwf Hr. apply zip_get; [by destruct Hwf|].
  apply (wf_row_length df (k, cs) Hwf Hr).
Qed.

Lemma df_to_dict_flat_wf df flag :
  wf_table df → length (index_names df) = 1%nat →
  df_to_dict df flag = Ok (Leaf (flat_dict (if flag then zero_filter df else df))).
Proof.
  intros Hwf Hn. rewrite df_to_dict_flat
    by (unfold is_multiindex; rewrite Hn; apply bool_decide_eq_false; lia).
  fold (zero_filter df). rewrite to_dict_index_wf; [done|..].
  - destruct flag; [by apply wf_zero_filter|done].
  - by destruct flag.
Qed.

Lemma flat_from_table df (flag : bool) :
  wf_table df → length (index_names df) = 1%nat →
  from_table df (Leaf (flat_dict (if flag then zero_filter df else df))).
Proof.
  intros Hwf Hn. unfold from_table. intros path row. rewrite nested_get_leaf.
  destruct path as [|l [|??]]; [done| |done]. destruct flag.
  - intros (cs' & Hr' & ->)%flat_dict_get; [|by apply wf_zero_filter|done].
    apply elem_of_rows_zero_filter in Hr' as (cs & Hr & Hnz & ->).
    exists cs. split; [done|]. intros c x Hg%dict_get_elem_of.
    rewrite columns_zero_filter, zip_select in Hg.
    apply elem_of_select in Hg as (j & _ & Hj).
    apply lookup_zip_Some in Hj. eauto.
  - intros (cs & Hr & ->)%flat_dict_get; [|done..].
    exists cs. split; [done|]. intros c x Hg.
    by apply (row_dict_get df [l] cs c x Hwf Hr).
Qed.

Lemma nonzero_cell_row (cs : list cell) j x :
  cs !! j = Some x → nonzero x = true → existsb nonzero cs = true.
Proof.
  intros Hj Hnz. apply existsb_exists. exists x. split; [|done].
  apply list_elem_of_In. by eapply list_elem_of_lookup_2.
Qed.

Lemma flat_keeps_nonzero df (flag : bool) :
  wf_table df → length (index_names df) = 1%nat →
  keeps_nonzero df (Leaf (flat_dict (if flag then zero_filter df else df))).
Proof.
  intros Hwf Hn. unfold keeps_nonzero. intros path cs j c x Hr Hc Hx Hnz.
  rewrite nested_get_leaf.
  pose proof (flat_key df (path, cs) Hwf Hn Hr) as Hk. cbn in Hk.
  rewrite Hk in Hr |- *. set (l := scalar path) in *. clearbody l. clear Hk.
  destruct flag.
  - pose proof (wf_zero_filter df Hwf) as Hwf'.
    assert (([l], select (nonzero_columns df) cs) ∈ rows (zero_filter df)) as Hr'.
    { apply elem_of_rows_zero_filter. exists cs. split; [done|]. split; [|done].
      by eapply nonzero_cell_row. }
    eexists. split.
    { apply flat_dict_get; [done..|]. eexists. split; [exact Hr'|done]. }
    apply dict_get_Some.
    { rewrite fst_zip; [by destruct Hwf'|].
      pose proof (wf_row_length _ _ Hwf' Hr') as Hlen. cbn in Hlen.
      by rewrite Hlen. }
    rewrite columns_zero_filter, zip_select. apply elem_of_select.
    exists j. split.
    + apply nonzero_columns_lookup. split; [by eapply lookup_lt_Some|].
      by exists ([l], cs), x.
    + by apply lookup_zip_Some.
  - eexists. split.
    { apply flat_dict_get; [done..|]. eexists. split; [exact Hr|done]. }
    apply (row_dict_get df [l] cs c x Hwf Hr). eauto.
Qed.

End flat_result.

(** * Multi-level tables *)

Section multi_level.
Implicit Types (df : DataFrame).

Lemma mapM_result_Ok {A B} (f : A → result B) (P : A → B → Prop) (l : list A) :
  Forall (λ x, ∃ y, f x = Ok y ∧ P x y) l →
  ∃ k, mapM f l = Ok k ∧ Forall2 P l k.
Proof.
  induction 1 as [|x l (y & Hy & HP) Hl (k & Hk & HF)].
  - exists []. by split.
  - exists (y :: k). cbn. rewrite Hy, Hk. split; [done|by constructor].
Qed.

Lemma groupby_level0_groups df :
  groupby_level0 df = (λ name, (name, group_of df name)) <$> sort_labels (level0 df).
Proof. done. Qed.

Lemma elem_of_level0 df k cs l :
  (k, cs) ∈ rows df → head k = Some l → l ∈ level0 df.
Proof.
  intros Hr Hh. unfold level0, index. apply list_elem_of_omap.
  exists k. split; [|done]. apply list_elem_of_fmap. by exists (k, cs).
Qed.

Lemma rows_group df name rest cs :
  (rest, cs) ∈ rows (droplevel0 (group_of df name))
  ↔ (name :: rest, cs) ∈ rows df.
Proof.
  unfold droplevel0, group_of. cbn. rewrite list_elem_of_fmap. split.
  - intros ([k cs'] & [= -> ->] & [Hh Hr]%list_elem_of_filter). cbn in Hh.
    destruct k as [|l k]; [done|]. cbn in Hh. by injection Hh as ->.
  - intros Hr. exists (name :: rest, cs). split; [done|].
    by apply list_elem_of_filter.
Qed.

Lemma wf_group df name :
  wf_table df → (2 ≤ length (index_names df))%nat →
  wf_table (droplevel0 (group_of df name)).
Proof.
  intros [Hlev Hrect Hidx Hcols Hnm] Hn.
  rewrite Forall_forall in Hlev. unfold rectangular in Hrect.
  rewrite Forall_forall in Hrect.
  split.
  - apply Forall_forall. intros [rest cs] Hr%rows_group.
    specialize (Hlev _ Hr). cbn in *. rewrite length_tl. lia.
  - apply Forall_forall. intros [rest cs] Hr%rows_group.
    by apply (Hrect _ Hr).
  - unfold index, droplevel0, group_of. cbn. rewrite <-list_fmap_compose.
    apply NoDup_fmap_2_strong.
    + intros [k1 c1] [k2 c2] [Hh1 Hr1]%list_elem_of_filter
        [Hh2 Hr2]%list_elem_of_filter Ht. cbn in *.
      assert (k1 = k2) as ->.
      { destruct k1, k2; cbn in *; congruence. }
      f_equal. unfold index in Hidx.
      pose proof (proj1 (NoDup_alt _) Hidx) as Hidx'.
      apply list_elem_of_lookup in Hr1 as [i1 Hi1], Hr2 as [i2 Hi2].
      assert (i1 = i2) as ->; [|congruence].
      apply (Hidx' i1 i2 k2); by rewrite list_lookup_fmap, ?Hi1, ?Hi2.
    + eapply sublist_NoDup; [|apply sublist_filter].
      by eapply NoDup_fmap_1.
  - done.
  - cbn. destruct (index_names df) as [|? [|??]]; cbn in *; [lia..|done].
Qed.

Lemma nested_get_node d l rest :
  nested_get (Node d) (l :: rest) = v' ← dict_get d l; nested_get v' rest.
Proof. done. Qed.

(** [df_to_dict] succeeds on a well-formed table with [S n] index levels;
    its result has [n] outer levels, holds only cells of the table and
    holds every cell that is not zero. *)
Lemma df_to_dict_spec n :
  ∀ df flag, wf_table df → length (index_names df) = S n →
    ∃ v, df_to_dict df flag = Ok v
         ∧ depth_is n v ∧ keyed_by_levels df v
         ∧ from_table df v ∧ keeps_nonzero df v.
Proof.
  induction n as [|n IH]; intros df flag Hwf Hn.
  - eexists. split; [by apply df_to_dict_flat_wf|]. split; [done|].
    split; [by intros [|??] ???|].
    split; [by apply flat_from_table|by apply flat_keeps_nonzero].
  - rewrite df_to_dict_multi
      by (unfold is_multiindex; rewrite Hn; apply bool_decide_eq_true; lia).
    set (P := λ (ng : label * DataFrame) (y : label * nested),
                y.1 = ng.1 ∧ depth_is n y.2
                ∧ keyed_by_levels (droplevel0 ng.2) y.2
                ∧ from_table (droplevel0 ng.2) y.2
                ∧ keeps_nonzero (droplevel0 ng.2) y.2).
    destruct (mapM_result_Ok
                (λ ng, v ← df_to_dict (droplevel0 ng.2) true; mret (ng.1, v))
                P (groupby_level0 df)) as (d & -> & HF).
    { apply Forall_forall. intros ng (name & -> & Hname)%list_elem_of_fmap.
      fold (group_of df name). cbn [fst snd].
      destruct (IH (droplevel0 (group_of df name)) true) as (v & -> & Hv).
      - apply wf_group; [done|lia].
      - cbn. rewrite length_tl, Hn. cbn. lia.
      - exists (name, v). by split. }
    assert (d.*1 = sort_labels (level0 df)) as Hkeys.
    { rewrite groupby_level0_groups in HF.
      apply Forall2_fmap_l in HF.
      clear -HF. induction HF as [|x [y1 y2] l k [Hxy _] _ IH']; [done|].
      cbn in *. by rewrite IH', Hxy. }
    assert (NoDup d.*1) as Hnd by (rewrite Hkeys; apply NoDup_sort_labels).
    assert (∀ l v', (l, v') ∈ d → P (l, group_of df l) (l, v')) as Hd.
    { intros l v' [i Hi]%list_elem_of_lookup.
      destruct (Forall2_lookup_r _ _ _ _ _ HF Hi) as (ng & Hng & HP).
      apply list_elem_of_lookup_2 in Hng.
      apply list_elem_of_fmap in Hng as (name & -> & _).
      destruct HP as [Hl HP]. cbn in Hl. subst name. by split. }
    cbn [mbind result_bind mret result_ret].
    rewrite dict_of_pairs_nodup by done.
    eexists. split; [done|]. split; [|split; [|split]].
    + cbn. apply Forall_forall. intros [l v'] Hin. by apply Hd in Hin as (_ & ? & _).
    + intros p l v'. destruct p as [|l0 p]; cbn.
      * destruct (dict_get d l) as [v0|] eqn:Hg; [|done]. intros _.
        apply dict_get_elem_of in Hg.
        assert (l ∈ level0 df) as Hl.
        { apply elem_of_sort_labels. rewrite <-Hkeys.
          apply list_elem_of_fmap. by exists (l, v0). }
        unfold level0, index in Hl.
        apply list_elem_of_omap in Hl as (k & ([k0 cs] & -> & Hr)%list_elem_of_fmap & Hh).
        exists k0, cs. split; [done|]. cbn in Hh.
        destruct k0 as [|? k0]; [done|]. injection Hh as ->.
        by exists k0.
      * destruct (dict_get d l0) as [v0|] eqn:Hg; [|done]. cbn.
        apply dict_get_elem_of, Hd in Hg as (_ & _ & Hkeyed & _). cbn in Hkeyed.
        intros (k & cs & Hr%rows_group & Hpre)%Hkeyed.
        exists (l0 :: k), cs. split; [done|]. by apply prefix_cons.
    + intros path row. destruct path as [|l rest]; [done|].
      rewrite nested_get_node.
      destruct (dict_get d l) as [v'|] eqn:Hg; [|done]. cbn.
      apply dict_get_elem_of, Hd in Hg as (_ & _ & _ & Hfrom & _). cbn in Hfrom.
      intros (cs & Hr & Hcs)%Hfrom. exists cs. split; [|done].
      by apply rows_group.
    + intros path cs j c x Hr Hc Hx Hnz.
      destruct path as [|l rest].
      { pose proof (wf_levels df Hwf) as Hlev. rewrite Forall_forall in Hlev.
        specialize (Hlev _ Hr). cbn in Hlev. lia. }
      assert (l ∈ d.*1) as ([l' v'] & Hl' & Hin)%list_elem_of_fmap.
      { rewrite Hkeys. apply elem_of_sort_labels.
        by eapply elem_of_level0. }
      cbn in Hl'. subst l'.
      pose proof (Hd _ _ Hin) as (_ & _ & _ & _ & Hkeep). cbn in Hkeep.
      destruct (Hkeep rest cs j c x) as (row & Hrow & Hget); [|done..|].
      { by apply rows_group. }
      exists row. split; [|done]. rewrite nested_get_node.
      apply (dict_get_Some d l v' Hnd) in Hin. by rewrite Hin.
Qed.

End multi_level.


(** * Keeping the zeros *)

Section preserve_zeros.
Implicit Types (df : DataFrame).

Lemma NoDup_fst_functional {A B} (l : list (A * B)) x y1 y2 :
  NoDup l.*1 → (x, y1) ∈ l → (x, y2) ∈ l → y1 = y2.
Proof.
  intros Hnd [i1 Hi1]%list_elem_of_lookup [i2 Hi2]%list_elem_of_lookup.
  pose proof (proj1 (NoDup_alt _) Hnd) as Halt.
  assert (i1 = i2) as ->; [|congruence].
  apply (Halt i1 i2 x); by rewrite list_lookup_fmap, ?Hi1, ?Hi2.
Qed.



End preserve_zeros.


Lemma wf_ex_flat : wf_table ex_flat.
Proof.
  split; [|unfold rectangular| | |done];
    apply (bool_decide_unpack _); vm_compute; exact I.
Qed.

Lemma wf_ex_two_level : wf_table ex_two_level.
Proof.
  split; [|unfold rectangular| | |done];
    apply (bool_decide_unpack _); vm_compute; exact I.
Qed.



(** * The order of labels and tuples *)

Section label_order.

Lemma label_le_spec a b :
  label_le a b
  ↔ match a, b with
    | LInt x, LInt y => x ≤ y
    | LStr s, LStr t => String.le s t
    | LInt _, LStr _ => True
    | LStr _, LInt _ => False
    end.
Proof.
  unfold label_le. destruct a, b; cbn; try done.
  apply bool_decide_spec.
Qed.

Global Instance label_le_po : PartialOrder label_le.
Proof.
  split; [split|].
  - intros a. apply label_le_spec. destruct a; [reflexivity|lia].
  - intros a b c. rewrite !label_le_spec.
    destruct a, b, c; try done; [apply transitivity|lia].
  - intros a b. rewrite !label_le_spec.
    destruct a, b; try done.
    + intros H1 H2. f_equal. by apply (anti_symm String.le).
    + intros H1 H2. f_equal. lia.
Qed.

Global Instance label_le_total : Total label_le.
Proof.
  intros a b. rewrite !label_le_spec. destruct a, b; try tauto.
  - apply String.le_total.
  - lia.
Qed.

Lemma key_le_cons a b k1 k2 :
  key_le (a :: k1) (b :: k2)
  ↔ (a = b ∧ key_le k1 k2) ∨ (a ≠ b ∧ label_le a b).
Proof.
  unfold key_le, label_le. cbn. destruct (decide (a = b)); tauto.
Qed.

Global Instance key_le_trans : Transitive key_le.
Proof.
  intros k1. induction k1 as [|a k1 IH]; intros [|b k2] [|c k3]; try done.
  rewrite !key_le_cons.
  intros [[-> H12]|[Hab H12]] [[-> H23]|[Hbc H23]].
  - left. split; [done|]. by eapply IH.
  - by right.
  - by right.
  - right. split; [|by etrans].
    intros ->. apply Hab. by apply (anti_symm label_le).
Qed.

Global Instance key_le_total : Total key_le.
Proof.
  intros k1. induction k1 as [|a k1 IH]; intros [|b k2];
    [by left|by left|by right|].
  rewrite !key_le_cons. destruct (decide (a = b)) as [->|Hne].
  - destruct (IH k2); [left|right]; by left.
  - destruct (total label_le a b); [left|right]; right; split; done.
Qed.

Lemma sort_keys_sorted (l : list key) : StronglySorted key_le (sort_keys l).
Proof. unfold sort_keys. apply StronglySorted_merge_sort; apply _. Qed.

(** The outer labels of sorted tuples are sorted. *)
Lemma heads_sorted (ks : list key) :
  StronglySorted key_le ks → StronglySorted label_le (omap head ks).
Proof.
  induction 1 as [|k ks Hs IH Hall]; [constructor|].
  cbn. destruct k as [|a k]; cbn; [done|].
  constructor; [done|]. apply Forall_forall.
  intros b (k' & Hk' & Hb)%list_elem_of_omap.
  rewrite Forall_forall in Hall. specialize (Hall k' Hk').
  destruct k' as [|b' k']; [done|]. cbn in Hb. injection Hb as ->.
  apply key_le_cons in Hall as [[-> _]|[_ ?]]; [reflexivity|done].
Qed.

End label_order.

(** * Blocks of outer labels *)

Section uniq.
Implicit Types (l t : list label).

Lemma uniq_cons x y l :
  uniq (x :: y :: l) = if decide (x = y) then uniq (y :: l) else x :: uniq (y :: l).
Proof. done. Qed.

Lemma uniq_sublist l : uniq l `sublist_of` l.
Proof.
  induction l as [|x [|y l] IH]; [done..|].
  rewrite uniq_cons. destruct (decide (x = y)).
  - by apply sublist_cons.
  - by apply sublist_skip.
Qed.

Lemma elem_of_uniq l x : x ∈ uniq l ↔ x ∈ l.
Proof.
  induction l as [|a [|b l] IH]; [done..|].
  rewrite uniq_cons. destruct (decide (a = b)) as [->|Hne].
  - rewrite IH. set_solver.
  - rewrite !elem_of_cons, IH. set_solver.
Qed.

Lemma StronglySorted_sublist {A} (R : relation A) (l1 l2 : list A) :
  l1 `sublist_of` l2 → StronglySorted R l2 → StronglySorted R l1.
Proof.
  induction 1 as [|x l1 l2 Hsub IH|x l1 l2 Hsub IH]; [done|..].
  - intros [Hall Hs]%StronglySorted_cons. constructor; [by apply IH|].
    rewrite Forall_forall in Hall |- *. intros y Hy. apply Hall.
    by eapply elem_of_sublist.
  - intros [_ Hs]%StronglySorted_cons. by apply IH.
Qed.

Lemma NoDup_uniq l : StronglySorted label_le l → NoDup (uniq l).
Proof.
  induction l as [|x [|y l] IH]; [constructor| |].
  - intros _. apply NoDup_singleton.
  - intros Hs. pose proof Hs as [Hall Hs']%StronglySorted_cons.
    rewrite uniq_cons. destruct (decide (x = y)) as [->|Hne]; [by apply IH|].
    constructor; [|by apply IH].
    rewrite elem_of_uniq. intros [->|Hin]%elem_of_cons; [done|].
    apply Hne. apply (anti_symm label_le).
    + rewrite Forall_forall in Hall. apply Hall. left.
    + apply StronglySorted_cons in Hs' as [Hall' _].
      rewrite Forall_forall in Hall'. by apply Hall'.
Qed.

(** A sorted column whose labels are those of a sorted list without
    repetition consists of the blocks of that list, in its order. *)
Lemma uniq_sorted_eq l t :
  StronglySorted label_le l → StronglySorted label_le t → NoDup t →
  (∀ x, x ∈ l ↔ x ∈ t) → uniq l = t.
Proof.
  intros Hl Ht Hnd Hiff. apply (StronglySorted_unique label_le).
  - eapply StronglySorted_sublist; [apply uniq_sublist|done].
  - done.
  - apply NoDup_Permutation; [by apply NoDup_uniq|done|].
    intros x. by rewrite elem_of_uniq.
Qed.

Lemma uniq_sorted_sublist l t :
  StronglySorted label_le l → StronglySorted label_le t → NoDup t →
  (∀ x, x ∈ l → x ∈ t) → uniq l `sublist_of` t.
Proof.
  intros Hl Ht Hnd Hsub.
  assert (uniq l = filter (λ x, x ∈ uniq l) t) as ->; [|apply sublist_filter].
  apply (StronglySorted_unique label_le).
  - eapply StronglySorted_sublist; [apply uniq_sublist|done].
  - eapply StronglySorted_sublist; [apply sublist_filter|done].
  - apply NoDup_Permutation; [by apply NoDup_uniq|by apply NoDup_filter|].
    intros x. rewrite list_elem_of_filter, elem_of_uniq. naive_solver.
Qed.

Lemma uniq_fmap (f : label → label) l :
  (∀ x y, x ∈ l → y ∈ l → f x = f y → x = y) →
  uniq (f <$> l) = f <$> uniq l.
Proof.
  induction l as [|x [|y l] IH]; [done..|]. intros Hinj.
  change (f <$> x :: y :: l) with (f x :: f y :: (f <$> l)).
  rewrite !uniq_cons.
  assert (uniq (f y :: (f <$> l)) = f <$> uniq (y :: l)) as ->.
  { apply IH. intros a b Ha Hb. apply Hinj; by right. }
  destruct (decide (x = y)) as [->|Hne].
  - by rewrite decide_True.
  - rewrite decide_False; [done|]. intros Hf. apply Hne, Hinj; [left|right; left|done].
Qed.

End uniq.

(** * The outer index level through the reshaping operations *)

Section outer_level.
Implicit Types (df : DataFrame) (s : Series) (ks : list key) (l : label).

Lemma level0_heads df : level0 df = heads (index df).
Proof. done. Qed.

Lemma elem_of_heads ks l : l ∈ heads ks ↔ ∃ k, k ∈ ks ∧ head k = Some l.
Proof. apply list_elem_of_omap. Qed.

Lemma heads_sort_keys ks l : l ∈ heads (sort_keys ks) ↔ l ∈ heads ks.
Proof. rewrite !elem_of_heads. by setoid_rewrite elem_of_sort_keys. Qed.

Lemma heads_fmap (f : key → key) ks l :
  (∀ k, k ∈ ks → head (f k) = head k) →
  l ∈ heads (f <$> ks) ↔ l ∈ heads ks.
Proof.
  intros Hf. rewrite !elem_of_heads. split.
  - intros (k' & (k & -> & Hk)%list_elem_of_fmap & Hh).
    exists k. split; [done|]. by rewrite <-Hf.
  - intros (k & Hk & Hh). exists (f k). split.
    + apply list_elem_of_fmap. by exists k.
    + by rewrite Hf.
Qed.

Lemma heads_sorted_sort_keys ks : StronglySorted label_le (heads (sort_keys ks)).
Proof. apply heads_sorted, sort_keys_sorted. Qed.

(** [groupby] *)

Lemma index_groupby_agg agg names cols (rs : list (key * list cell)) :
  index (groupby_agg agg names cols rs) = sort_keys rs.*1.
Proof.
  unfold index, groupby_agg. cbn. rewrite <-list_fmap_compose.
  rewrite <-(list_fmap_id (sort_keys rs.*1)) at 2. by apply list_fmap_ext.
Qed.

Lemma elem_of_rows_groupby_agg agg names cols (rs : list (key * list cell)) k cs :
  (k, cs) ∈ rows (groupby_agg agg names cols rs)
  ↔ k ∈ rs.*1 ∧ cs = agg (filter (λ r, r.1 = k) rs).*2.
Proof.
  unfold groupby_agg. cbn. rewrite list_elem_of_fmap. split.
  - intros (k' & Heq & Hk). rewrite elem_of_sort_keys in Hk. by simplify_eq.
  - intros [Hk ->]. exists k. split; [done|]. by apply elem_of_sort_keys.
Qed.

(** [loc] *)

Lemma loc_Ok labels df df' :
  loc labels df = Ok df' →
  Forall (λ c, c ∈ level0 df) labels
  ∧ index_names df' = index_names df
  ∧ columns df' = columns df
  ∧ ∀ r, r ∈ rows df' ↔ ∃ c, c ∈ labels ∧ head r.1 = Some c ∧ r ∈ rows df.
Proof.
  unfold loc. destruct (decide _) as [Hall|]; [|done]. intros [= <-].
  split; [done|]. split; [done|]. split; [done|].
  intros r. cbn. rewrite list_elem_of_bind. split.
  - intros (c & [Hh Hr]%list_elem_of_filter & Hc). eauto.
  - intros (c & Hc & Hh & Hr). exists c. split; [|done].
    by apply list_elem_of_filter.
Qed.

Lemma loc_Raise labels df c :
  c ∈ labels → c ∉ level0 df → loc labels df = Raise KeyError.
Proof.
  intros Hc Hnot. unfold loc. destruct (decide _) as [Hall|]; [|done].
  rewrite Forall_forall in Hall. by destruct (Hnot (Hall c Hc)).
Qed.

Lemma level0_loc labels df df' l :
  loc labels df = Ok df' → l ∈ level0 df' ↔ l ∈ labels.
Proof.
  intros (Hall & _ & _ & Hrows)%loc_Ok. rewrite Forall_forall in Hall.
  unfold level0, index. rewrite !list_elem_of_omap. split.
  - intros (k & ([k' cs] & -> & Hr)%list_elem_of_fmap & Hh).
    apply Hrows in Hr as (c & Hc & Hh' & _). cbn in *. congruence.
  - intros Hl. pose proof (Hall l Hl) as Hin.
    unfold level0, index in Hin.
    apply list_elem_of_omap in Hin as (k & ([k' cs] & -> & Hr)%list_elem_of_fmap & Hh).
    exists k'. split; [|done]. apply list_elem_of_fmap.
    exists (k', cs). split; [done|]. apply Hrows. eauto.
Qed.

(** [stack] *)

Lemma elem_of_stack df k' v :
  (k', v) ∈ s_items (stack df)
  ↔ ∃ k cs c z, (k, cs) ∈ rows df ∧ (c, Some z) ∈ zip (columns df) cs
                ∧ k' = k ++ [c] ∧ v = Some z.
Proof.
  unfold stack. cbn. rewrite list_elem_of_bind. split.
  - intros ([k cs] & Hin & Hr). cbn in Hin.
    apply list_elem_of_omap in Hin as ([c [z|]] & Hcz & Heq); [|done].
    cbn in Heq. injection Heq as <- <-. by exists k, cs, c, z.
  - intros (k & cs & c & z & Hr & Hcz & -> & ->).
    exists (k, cs). split; [|done]. cbn.
    apply list_elem_of_omap. by exists (c, Some z).
Qed.

(** Stacking keeps the outer labels of the rows that hold a value. *)
Lemma heads_stack df l :
  (∀ r, r ∈ rows df → r.1 ≠ []) →
  l ∈ heads (s_index (stack df))
  ↔ ∃ k cs c z, (k, cs) ∈ rows df ∧ (c, Some z) ∈ zip (columns df) cs
                ∧ head k = Some l.
Proof.
  intros Hne. unfold s_index. rewrite elem_of_heads. split.
  - intros (k' & ([k0 v] & -> & Hin)%list_elem_of_fmap & Hh).
    apply elem_of_stack in Hin as (k & cs & c & z & Hr & Hcz & -> & ->).
    exists k, cs, c, z. split; [done|]. split; [done|].
    specialize (Hne _ Hr). cbn in *. by destruct k.
  - intros (k & cs & c & z & Hr & Hcz & Hh).
    exists (k ++ [c]). split.
    + apply list_elem_of_fmap. exists (k ++ [c], Some z). split; [done|].
      apply elem_of_stack. by exists k, cs, c, z.
    + by destruct k.
Qed.

Lemma s_index_droplevel_stack df k :
  k ∈ s_index (series_droplevel_last (stack df))
  ↔ ∃ cs c z, (k, cs) ∈ rows df ∧ (c, Some z) ∈ zip (columns df) cs.
Proof.
  unfold s_index, series_droplevel_last. cbn [s_items].
  rewrite <-list_fmap_compose, list_elem_of_fmap. split.
  - intros ([k' v] & -> & Hin). cbn.
    apply elem_of_stack in Hin as (k & cs & c & z & Hr & Hcz & -> & ->).
    rewrite removelast_last. eauto.
  - intros (cs & c & z & Hr & Hcz). exists (k ++ [c], Some z). split.
    + cbn. by rewrite removelast_last.
    + apply elem_of_stack. by exists k, cs, c, z.
Qed.

End outer_level.

#[local] Arguments project : simpl never.

Section pivots.
Implicit Types (df : DataFrame) (s : Series) (ks : list key) (l : label).

Lemma fst_fmap_pair {A B} (g : A → B) (K : list A) :
  ((λ k, (k, g k)) <$> K).*1 = K.
Proof.
  rewrite <-list_fmap_compose. rewrite <-(list_fmap_id K) at 2.
  by apply list_fmap_ext.
Qed.

Lemma fst_fmap_key {A B C} (f : A → C) (l : list (A * B)) :
  ((λ it, (f it.1, it.2)) <$> l).*1 = f <$> l.*1.
Proof. rewrite <-!list_fmap_compose. by apply list_fmap_ext. Qed.

Lemma level_pos_first name ns : level_pos name (Some name :: ns) = Ok 0%nat.
Proof. unfold level_pos. cbn. by rewrite decide_True. Qed.

Lemma level_pos_later name n ns p :
  name ≠ n → level_pos name (Some n :: ns) = Ok p → ∃ p', p = S p'.
Proof.
  intros Hne. unfold level_pos. cbn.
  rewrite decide_False by congruence.
  destruct (list_find _ ns) as [[i x]|]; [|done]. cbn. intros [= <-]. eauto.
Qed.

Lemma head_project ps (k : key) : head (project (0%nat :: ps) k) = head k.
Proof.
  unfold project. destruct k as [|a k]; [|done]. cbn.
  induction ps as [|p ps IH]; [done|]. cbn. by rewrite lookup_nil.
Qed.

Lemma mapM_level_pos_first n names ns ps :
  mapM (λ x, level_pos x (Some n :: ns)) (n :: names) = Ok ps →
  ∃ ps', ps = 0%nat :: ps'.
Proof.
  cbn [mapM]. rewrite level_pos_first. cbn.
  destruct (mapM _ names) as [ps'|]; [|done]. cbn. intros [= <-]. eauto.
Qed.

(** [unstack] *)

Lemma unstack_Ok level fill s df :
  unstack level fill s = Ok df →
  ∃ p, level_pos level (s_names s) = Ok p
       ∧ index_names df = delete p (s_names s)
       ∧ index df = sort_keys (delete p <$> s_index s).
Proof.
  unfold unstack. destruct (level_pos level (s_names s)) as [p|]; [|done]. cbn.
  destruct (decide _); [|done]. intros [= <-]. exists p.
  split; [done|]. split; [done|].
  unfold index, s_index. cbn. rewrite <-!list_fmap_compose.
  set (K := sort_keys _).
  rewrite <-(list_fmap_id K) at 2. by apply list_fmap_ext.
Qed.

(** Pivoting an inner level keeps the outer labels and leaves them sorted. *)
Lemma level0_unstack level fill s df n ns :
  unstack level fill s = Ok df → s_names s = Some n :: ns → level ≠ n →
  StronglySorted label_le (level0 df)
  ∧ ∀ l, l ∈ level0 df ↔ l ∈ heads (s_index s).
Proof.
  intros (p & Hp & _ & Hidx)%unstack_Ok Hnames Hne.
  rewrite Hnames in Hp. apply level_pos_later in Hp as [p' ->]; [|done].
  rewrite level0_heads, Hidx. split; [apply heads_sorted_sort_keys|].
  intros l. rewrite heads_sort_keys. apply heads_fmap.
  by intros [|a k] _.
Qed.

(** [groupby(...).sum()] with the outer level as first key *)

Lemma series_groupby_sum_Ok n names s s' ns :
  series_groupby_sum (n :: names) s = Ok s' → s_names s = Some n :: ns →
  s_names s' = Some n :: (Some <$> names)
  ∧ ∀ l, l ∈ heads (s_index s') ↔ l ∈ heads (s_index s).
Proof.
  unfold series_groupby_sum. intros H Hnames. rewrite Hnames in H.
  destruct (mapM _ (n :: names)) as [ps|] eqn:Hps; [|done].
  apply mapM_level_pos_first in Hps as [ps' ->].
  cbn [mbind result_bind mret result_ret] in H. injection H as <-.
  split; [done|].
  intros l. unfold s_index at 1. cbn [s_items].
  rewrite fst_fmap_pair, heads_sort_keys, (fst_fmap_key (project (0%nat :: ps'))).
  apply heads_fmap.
  intros k _. apply head_project.
Qed.

Lemma groupby_levels_sum_Ok n names df df' ns :
  groupby_levels_sum (n :: names) df = Ok df' → index_names df = Some n :: ns →
  index_names df' = Some n :: (Some <$> names)
  ∧ columns df' = columns df
  ∧ StronglySorted label_le (level0 df')
  ∧ (∀ l, l ∈ level0 df' ↔ l ∈ level0 df)
  ∧ ∀ k cs, (k, cs) ∈ rows df' →
      (∃ k0, k0 ∈ index df ∧ head k = head k0)
      ∧ ∃ rs, cs = agg_sum (length (columns df)) rs.
Proof.
  unfold groupby_levels_sum. intros H Hnames. rewrite Hnames in H.
  destruct (mapM _ (n :: names)) as [ps|] eqn:Hps; [|done].
  apply mapM_level_pos_first in Hps as [ps' ->].
  cbn [mbind result_bind mret result_ret] in H. injection H as <-.
  split; [done|]. split; [done|].
  rewrite !level0_heads, index_groupby_agg, (fst_fmap_key (project (0%nat :: ps'))).
  fold (index df).
  split; [apply heads_sorted_sort_keys|]. split.
  - intros l. rewrite heads_sort_keys. apply heads_fmap.
    intros k _. apply head_project.
  - intros k cs [Hk ->]%elem_of_rows_groupby_agg. split; [|eauto].
    rewrite (fst_fmap_key (project (0%nat :: ps'))) in Hk.
    apply list_elem_of_fmap in Hk as (k0 & -> & Hr).
    exists k0. split; [done|apply head_project].
Qed.

End pivots.

(** * The Country level of the seven tables *)

Section country_level.
Implicit Types (df : DataFrame) (s : Series) (l : label).

Lemma agg_sum_has_value (cols : list label) rs :
  cols ≠ [] → ∃ c z, (c, Some z) ∈ zip cols (agg_sum (length cols) rs).
Proof.
  destruct cols as [|c cols]; [done|]. intros _. unfold agg_sum.
  cbn [length seq fmap list_fmap zip zip_with]. eexists _, _. left.
Qed.

(** Stacking a table whose rows all hold a value keeps its outer labels. *)
Lemma heads_stack_full df l :
  (∀ k cs, (k, cs) ∈ rows df →
     k ≠ [] ∧ ∃ c z, (c, Some z) ∈ zip (columns df) cs) →
  l ∈ heads (s_index (stack df)) ↔ l ∈ level0 df.
Proof.
  intros Hrows. rewrite heads_stack by (intros [k cs] Hr; by apply (Hrows k cs)).
  rewrite level0_heads, elem_of_heads. split.
  - intros (k & cs & c & z & Hr & _ & Hh). exists k. split; [|done].
    unfold index. apply list_elem_of_fmap. by exists (k, cs).
  - intros (k & ([k' cs] & -> & Hr)%list_elem_of_fmap & Hh). cbn in Hh.
    destruct (Hrows k' cs Hr) as (_ & c & z & Hcz). by exists k', cs, c, z.
Qed.

Lemma emissions_by_year_Ok emissions df :
  e_materials emissions ≠ [] → emissions_by_year emissions = Ok df →
  StronglySorted label_le (level0 df)
  ∧ ∀ l, l ∈ level0 df ↔ l ∈ LStr <$> countries.
Proof.
  intros Hmats. unfold emissions_by_year.
  destruct (loc _ _) as [df1|] eqn:Hloc; [|done].
  cbn [mbind result_bind].
  destruct (unstack _ _ _) as [df2|] eqn:Hun; [|done]. intros [= <-].
  change (level0 (set_last_name "Mat" df2)) with (level0 df2).
  pose proof (loc_Ok _ _ _ Hloc) as (_ & Hnames & Hcols & Hrows).
  eapply level0_unstack in Hun as [Hsorted Hheads];
    [|cbn [stack s_names]; rewrite Hnames; reflexivity|done].
  split; [done|]. intros l. rewrite Hheads, heads_stack_full.
  { by eapply level0_loc. }
  intros k cs (c & _ & _ & Hr)%Hrows.
  apply elem_of_rows_groupby_agg in Hr as [Hk ->]. split.
  - rewrite <-list_fmap_compose in Hk.
    by apply list_elem_of_fmap in Hk as (r & -> & _).
  - rewrite Hcols. cbn [columns groupby_agg]. apply agg_sum_has_value.
    by destruct (e_materials emissions).
Qed.

Lemma emissions_first_Ok emissions df :
  emissions_first emissions = Ok df →
  index_names df = Some <$> ["Country"; "Scenario"; "Year"; "Tech"]
  ∧ columns df = LStr <$> e_materials emissions
  ∧ (∀ k, k ∈ index df → k ≠ [])
  ∧ ∀ l, l ∈ level0 df ↔ l ∈ LStr <$> countries.
Proof.
  unfold emissions_first. intros Hloc.
  pose proof (loc_Ok _ _ _ Hloc) as (_ & Hnames & Hcols & Hrows).
  split; [done|]. split; [done|]. split; [|intros l; by eapply level0_loc].
  intros k ([k' cs] & -> & (c & _ & _ & Hr)%Hrows)%list_elem_of_fmap.
  apply elem_of_rows_groupby_agg in Hr as [Hk _]. cbn.
  rewrite <-list_fmap_compose in Hk.
  by apply list_elem_of_fmap in Hk as (r & -> & _).
Qed.

Lemma emissions_by_mat_and_tech_Ok emissions df_em df_et :
  e_materials emissions ≠ [] →
  emissions_by_mat_and_tech emissions = Ok (df_em, df_et) →
  (StronglySorted label_le (level0 df_em)
   ∧ ∀ l, l ∈ level0 df_em ↔ l ∈ LStr <$> countries)
  ∧ (StronglySorted label_le (level0 df_et)
     ∧ ∀ l, l ∈ level0 df_et ↔ l ∈ LStr <$> countries).
Proof.
  intros Hmats. unfold emissions_by_mat_and_tech.
  destruct (emissions_first emissions) as [df1|] eqn:Hfirst; [|done].
  cbn [mbind result_bind].
  apply emissions_first_Ok in Hfirst as (Hnames & Hcols & Hne & Hl0).
  destruct (groupby_levels_sum ["Country"; "Scenario"] df1) as [dfm|] eqn:Hm;
    [|done].
  cbn [mbind result_bind].
  destruct (groupby_levels_sum ["Country"; "Scenario"; "Tech"] df1)
    as [df2|] eqn:Ht; [|done].
  cbn [mbind result_bind].
  destruct (unstack _ _ _) as [df3|] eqn:Hun; [|done]. intros [= <- <-].
  change (level0 (set_last_name "Mat" df3)) with (level0 df3).
  eapply groupby_levels_sum_Ok in Hm as (_ & _ & Hsm & Hlm & _); [|exact Hnames].
  eapply groupby_levels_sum_Ok in Ht as (Hn2 & Hc2 & _ & Hl2 & Hr2); [|exact Hnames].
  split.
  { split; [done|]. intros l. by rewrite Hlm. }
  eapply level0_unstack in Hun as [Hsorted Hheads];
    [|cbn [stack s_names]; rewrite Hn2; reflexivity|done].
  split; [done|]. intros l. rewrite Hheads, heads_stack_full.
  { by rewrite Hl2. }
  intros k cs Hr. destruct (Hr2 k cs Hr) as ((k0 & Hk0 & Hh) & rs & ->). split.
  - specialize (Hne k0 Hk0). intros ->. by destruct k0.
  - rewrite Hc2, Hcols.
    apply agg_sum_has_value. by destruct (e_materials emissions).
Qed.

End country_level.

Section jobs_country_level.
Implicit Types (df : DataFrame) (s : Series) (l : label).

Lemma agg_first_one_value (X : list (list cell)) (v : cell) z :
  [v] ∈ X → v = Some z → ∃ z', agg_first 1 X = [Some z'].
Proof.
  intros Hin ->. unfold agg_first. cbn [seq fmap list_fmap].
  destruct (column_values 0 X) as [|z' zs] eqn:E; [|by exists z'].
  exfalso. assert (z ∈ column_values 0 X) as Hz; [|rewrite E in Hz; set_solver].
  unfold column_values. apply list_elem_of_omap. by exists [Some z].
Qed.

Lemma employment_series_Ok jobs sj :
  employment_series jobs = Ok sj →
  s_names sj = Some <$> ["Country"; "Scenario"; "Year"; "Tech"; "Indicator"]
  ∧ (∀ l, l ∈ heads (s_index sj) → l ∈ LStr <$> countries_alt)
  ∧ (Forall (λ r, is_Some (j_value r)) (kept_jobs jobs) →
     ∀ l, l ∈ LStr <$> countries_alt → l ∈ heads (s_index sj)).
Proof.
  unfold employment_series. fold (kept_jobs jobs).
  destruct (loc _ _) as [df1|] eqn:Hloc; [|done]. intros [= <-].
  pose proof (loc_Ok _ _ _ Hloc) as (_ & Hnames & Hcols & Hrows).
  split; [|split].
  - cbn [series_droplevel_last stack s_names]. by rewrite removelast_last, Hnames.
  - intros l (k & Hk & Hh)%elem_of_heads.
    apply s_index_droplevel_stack in Hk as (cs & _ & _ & Hr & _).
    apply (level0_loc _ _ _ l Hloc). rewrite level0_heads, elem_of_heads.
    exists k. split; [|done]. unfold index. apply list_elem_of_fmap.
    by exists (k, cs).
  - intros Hvalues l Hl. apply (level0_loc _ _ _ l Hloc) in Hl.
    rewrite level0_heads, elem_of_heads in Hl.
    destruct Hl as (k & ([k' cs] & -> & Hr)%list_elem_of_fmap & Hh). cbn in Hh.
    apply elem_of_heads. exists k'. split; [|done].
    apply s_index_droplevel_stack. exists cs.
    pose proof Hr as (_ & _ & _ & Hg)%Hrows.
    apply elem_of_rows_groupby_agg in Hg as [Hk ->].
    rewrite <-list_fmap_compose in Hk.
    apply list_elem_of_fmap in Hk as (r0 & Hk0 & Hr0). cbn in Hk0.
    rewrite Forall_forall in Hvalues.
    destruct (Hvalues r0 Hr0) as [z Hz].
    destruct (agg_first_one_value
                (filter (λ r : key * list cell, r.1 = k')
                   ((λ r, ([LStr (j_country r); LStr (j_scenario r);
                            LInt (j_Year r); LStr (j_tech r);
                            LStr (j_Indicator r)], [j_value r]))
                      <$> kept_jobs jobs)).*2
                (j_value r0) z) as [z' Hz']; [|done|].
    { apply list_elem_of_fmap. exists (k', [j_value r0]). split; [done|].
      apply list_elem_of_filter. split; [done|].
      apply list_elem_of_fmap. exists r0. by rewrite Hk0. }
    rewrite Hz' in Hr. rewrite Hz', Hcols. cbn [columns groupby_agg zip zip_with].
    eexists _, z'. split; [done|left].
Qed.

Lemma employment_Ok jobs df_jy df_jyf df_jt df_ji :
  employment jobs = Ok (df_jy, df_jyf, df_jt, df_ji) →
  ∃ sj, employment_series jobs = Ok sj
        ∧ Forall (λ df, StronglySorted label_le (level0 df)
                        ∧ ∀ l, l ∈ level0 df ↔ l ∈ heads (s_index sj))
                 [df_jy; df_jyf; df_jt; df_ji].
Proof.
  unfold employment.
  destruct (employment_series jobs) as [sj|] eqn:Hsj; [|done].
  cbn [mbind result_bind].
  pose proof (employment_series_Ok _ _ Hsj) as (Hnames & _).
  destruct (unstack "Year" 0 sj) as [d1|] eqn:H1; [|done].
  cbn [mbind result_bind].
  destruct (series_groupby_sum ["Country"; "Scenario"; "Year"; "Tech"] sj)
    as [s2|] eqn:Hs2; [|done].
  cbn [mbind result_bind].
  destruct (unstack "Year" 0 s2) as [d2|] eqn:H2; [|done].
  destruct (series_groupby_sum ["Country"; "Scenario"; "Indicator"; "Tech"] sj)
    as [s3|] eqn:Hs3; [|done].
  cbn [mbind result_bind].
  destruct (unstack "Tech" 0 s3) as [d3|] eqn:H3; [|done].
  destruct (series_groupby_sum ["Country"; "Scenario"; "Indicator"] sj)
    as [s4|] eqn:Hs4; [|done].
  cbn [mbind result_bind].
  destruct (unstack "Indicator" 0 s4) as [d4|] eqn:H4; [|done].
  intros [= <- <- <- <-]. exists sj. split; [done|].
  eapply series_groupby_sum_Ok in Hs2 as [Hn2 Hh2]; [|exact Hnames].
  eapply series_groupby_sum_Ok in Hs3 as [Hn3 Hh3]; [|exact Hnames].
  eapply series_groupby_sum_Ok in Hs4 as [Hn4 Hh4]; [|exact Hnames].
  eapply level0_unstack in H1 as [So1 Hl1]; [|exact Hnames|done].
  eapply level0_unstack in H2 as [So2 Hl2]; [|exact Hn2|done].
  eapply level0_unstack in H3 as [So3 Hl3]; [|exact Hn3|done].
  eapply level0_unstack in H4 as [So4 Hl4]; [|exact Hn4|done].
  apply Forall_cons. split; [split; [done|]; intros l; by rewrite Hl2, Hh2|].
  apply Forall_cons. split; [by split|].
  apply Forall_cons. split; [split; [done|]; intros l; by rewrite Hl3, Hh3|].
  apply Forall_cons. split; [split; [done|]; intros l; by rewrite Hl4, Hh4|].
  apply Forall_nil_2.
Qed.

End jobs_country_level.

Section configured_countries.
Implicit Types (df : DataFrame) (l : label).

Lemma countries_sorted :
  StronglySorted label_le (LStr <$> countries) ∧ NoDup (LStr <$> countries).
Proof. split; apply (bool_decide_unpack _); vm_compute; exact I. Qed.

Lemma countries_alt_sorted :
  StronglySorted label_le (LStr <$> countries_alt)
  ∧ NoDup (LStr <$> countries_alt).
Proof. split; apply (bool_decide_unpack _); vm_compute; exact I. Qed.

Lemma countries_alt_countries l :
  l ∈ LStr <$> countries_alt → l ∈ LStr <$> countries.
Proof.
  intros (c & -> & [_ Hc]%list_elem_of_filter)%list_elem_of_fmap.
  apply list_elem_of_fmap. by exists c.
Qed.

Lemma NoDup_fmap_inj_on {A B} (f : A → B) (t : list A) x y :
  NoDup (f <$> t) → x ∈ t → y ∈ t → f x = f y → x = y.
Proof.
  intros Hnd [i Hi]%list_elem_of_lookup [j Hj]%list_elem_of_lookup Hf.
  pose proof (proj1 (NoDup_alt _) Hnd) as Halt.
  assert (i = j) as ->; [|congruence].
  apply (Halt i j (f x)); rewrite list_lookup_fmap; [by rewrite Hi|].
  by rewrite Hj, Hf.
Qed.

Lemma rename_inj_on_countries x y :
  x ∈ LStr <$> countries → y ∈ LStr <$> countries →
  rename_label rename_dict x = rename_label rename_dict y → x = y.
Proof.
  apply NoDup_fmap_inj_on. apply (bool_decide_unpack _). vm_compute. exact I.
Qed.

Lemma level0_rename_index mapper df :
  level0 (rename_index mapper df) = rename_label mapper <$> level0 df.
Proof.
  unfold level0. rewrite rename_index_index.
  induction (index df) as [|k ks IH]; [done|].
  cbn. rewrite IH. by destruct k.
Qed.

Lemma renamed_country_level df :
  StronglySorted label_le (level0 df) →
  (∀ l, l ∈ level0 df ↔ l ∈ LStr <$> countries) →
  uniq (level0 (rename_index rename_dict df)) = country_names.
Proof.
  intros Hsorted Hl. destruct countries_sorted as [Hs Hnd].
  rewrite level0_rename_index, uniq_fmap.
  - by rewrite (uniq_sorted_eq _ (LStr <$> countries)).
  - intros x y Hx%Hl Hy%Hl. by apply rename_inj_on_countries.
Qed.

Lemma renamed_country_level_alt df :
  StronglySorted label_le (level0 df) →
  (∀ l, l ∈ level0 df → l ∈ LStr <$> countries_alt) →
  uniq (level0 (rename_index rename_dict df)) `sublist_of` country_names_alt
  ∧ ((∀ l, l ∈ LStr <$> countries_alt → l ∈ level0 df) →
     uniq (level0 (rename_index rename_dict df)) = country_names_alt).
Proof.
  intros Hsorted Hl. destruct countries_alt_sorted as [Hs Hnd].
  rewrite level0_rename_index, uniq_fmap.
  2:{ intros x y Hx%Hl%countries_alt_countries Hy%Hl%countries_alt_countries.
      by apply rename_inj_on_countries. }
  split.
  - change country_names_alt
      with (rename_label rename_dict <$> (LStr <$> countries_alt)).
    apply fmap_sublist. by apply uniq_sorted_sublist.
  - intros Hall. rewrite (uniq_sorted_eq _ (LStr <$> countries_alt)); try done.
    intros x. split; [apply Hl|apply Hall].
Qed.

Lemma emissions_by_year_Raise emissions c :
  c ∈ countries → c ∉ e_Country <$> e_rows emissions →
  emissions_by_year emissions = Raise KeyError.
Proof.
  intros Hc Hnot. unfold emissions_by_year.
  rewrite (loc_Raise _ _ (LStr c)); [done|..].
  - apply list_elem_of_fmap. by exists c.
  - rewrite level0_heads, index_groupby_agg, heads_sort_keys, elem_of_heads.
    intros (k & Hk & Hh). rewrite <-list_fmap_compose in Hk.
    apply list_elem_of_fmap in Hk as (r & -> & Hr). cbn in Hh.
    injection Hh as <-. apply Hnot.
    unfold read_emissions in Hr.
    apply list_elem_of_fmap in Hr as (r0 & -> & Hr0). cbn.
    apply list_elem_of_fmap. by exists r0.
Qed.

Lemma employment_Raise jobs c :
  c ∈ countries_alt → c ∉ j_country <$> kept_jobs jobs →
  employment jobs = Raise KeyError.
Proof.
  intros Hc Hnot. unfold employment, employment_series. fold (kept_jobs jobs).
  rewrite (loc_Raise _ _ (LStr c)); [done|..].
  - apply list_elem_of_fmap. by exists c.
  - rewrite level0_heads, index_groupby_agg, heads_sort_keys, elem_of_heads.
    intros (k & Hk & Hh). rewrite <-list_fmap_compose in Hk.
    apply list_elem_of_fmap in Hk as (r & -> & Hr). cbn in Hh.
    injection Hh as <-. apply Hnot.
    apply list_elem_of_fmap. by exists r.
Qed.

Lemma dict_get_table (name : string) (df df' : DataFrame) (rest : dict string DataFrame)
    (name' : string) :
  dict_get ((name', df') :: rest) name = Some df →
  (name = name' ∧ df = df') ∨ (name ≠ name' ∧ dict_get rest name = Some df).
Proof. cbn. destruct (decide (name = name')); [intros [= ->]|]; eauto. Qed.

End configured_countries.

Ltac not_listed H :=
  exfalso; unfold emissions_tables, jobs_tables in H; set_unfold in H;
  intuition discriminate.

Lemma load_dfs_country_levels emissions jobs res :
  e_materials emissions ≠ [] → load_dfs emissions jobs = Ok res →
  res.*1 = table_names
  ∧ (∀ name df, name ∈ emissions_tables → dict_get res name = Some df →
       uniq (level0 df) = country_names)
  ∧ (∀ name df, name ∈ jobs_tables → dict_get res name = Some df →
       uniq (level0 df) `sublist_of` country_names_alt
       ∧ (Forall (λ r, is_Some (j_value r)) (kept_jobs jobs) →
          uniq (level0 df) = country_names_alt)).
Proof.
  intros Hmats. unfold load_dfs, aggregate_tables.
  destruct (emissions_by_year emissions) as [df_ey|] eqn:Hey; [|done].
  destruct (emissions_by_mat_and_tech emissions) as [[df_em df_et]|] eqn:Het;
    [|done].
  destruct (employment jobs) as [[[[df_jy df_jyf] df_jt] df_ji]|] eqn:Hj; [|done].
  cbn [mbind result_bind mret result_ret fmap list_fmap fst snd]. intros [= <-].
  apply emissions_by_year_Ok in Hey as [Sey Ley]; [|done].
  apply emissions_by_mat_and_tech_Ok in Het as [[Sem Lem] [Set' Let']]; [|done].
  apply employment_Ok in Hj as (sj & Hsj & Hall).
  apply employment_series_Ok in Hsj as (_ & Hsub & Hfull).
  apply Forall_cons in Hall as [[Sjy Ljy] Hall].
  apply Forall_cons in Hall as [[Sjyf Ljyf] Hall].
  apply Forall_cons in Hall as [[Sjt Ljt] Hall].
  apply Forall_cons in Hall as [[Sji Lji] _].
  split; [done|]. split.
  - intros name df Hname Hget.
    repeat (apply dict_get_table in Hget as [[-> ->]|[_ Hget]];
            [first [by apply renamed_country_level | not_listed Hname]|]).
    done.
  - intros name df Hname Hget.
    assert (∀ d, StronglySorted label_le (level0 d) →
                 (∀ l, l ∈ level0 d ↔ l ∈ heads (s_index sj)) →
                 uniq (level0 (rename_index rename_dict d))
                   `sublist_of` country_names_alt
                 ∧ (Forall (λ r, is_Some (j_value r)) (kept_jobs jobs) →
                    uniq (level0 (rename_index rename_dict d)) = country_names_alt))
      as Hjobs.
    { intros d Sd Ld.
      destruct (renamed_country_level_alt d Sd) as [Hs Heq].
      { intros l Hl%Ld. by apply Hsub. }
      split; [done|]. intros Hvalues. apply Heq.
      intros l Hl. apply Ld. by apply Hfull. }
    repeat (apply dict_get_table in Hget as [[-> ->]|[_ Hget]];
            [first [by apply Hjobs | not_listed Hname]|]).
    done.
Qed.

(** C3, as amended.  When [load_dfs] succeeds on an emissions file with at
    least one material column, the Country level of the three emissions
    tables consists of the five configured countries, under their full
    names and in configured order; the Country level of the four jobs
    tables holds only the four countries other than the United Kingdom, in
    configured order, and all four of them when every kept jobs row has a
    value.  A configured country absent from the emissions rows makes
    [load_dfs] raise [KeyError]; one of the four absent from the kept jobs
    rows makes the jobs block raise [KeyError], so [load_dfs] raises. *)
Theorem configured_countries_in_tables emissions jobs :
  e_materials emissions ≠ [] →
  (∀ res, load_dfs emissions jobs = Ok res →
     res.*1 = table_names
     ∧ (∀ name df, name ∈ emissions_tables → dict_get res name = Some df →
          uniq (level0 df) = country_names)
     ∧ (∀ name df, name ∈ jobs_tables → dict_get res name = Some df →
          uniq (level0 df) `sublist_of` country_names_alt
          ∧ (Forall (λ r, is_Some (j_value r)) (kept_jobs jobs) →
             uniq (level0 df) = country_names_alt)))
  ∧ (∀ c, c ∈ countries → c ∉ e_Country <$> e_rows emissions →
       load_dfs emissions jobs = Raise KeyError)
  ∧ (∀ c, c ∈ countries_alt → c ∉ j_country <$> kept_jobs jobs →
       employment jobs = Raise KeyError
       ∧ ∃ e, load_dfs emissions jobs = Raise e).
Proof.
  intros Hmats. split; [|split].
  - intros res Hres. by apply (load_dfs_country_levels emissions jobs).
  - intros c Hc Hnot. unfold load_dfs, aggregate_tables.
    by rewrite (emissions_by_year_Raise emissions c).
  - intros c Hc Hnot. split; [by apply (employment_Raise jobs c)|].
    unfold load_dfs, aggregate_tables.
    rewrite (employment_Raise jobs c) by done.
    destruct (emissions_by_year emissions) as [df_ey|e]; [|by exists e].
    destruct (emissions_by_mat_and_tech emissions) as [[df_em df_et]|e];
      [|by exists e].
    by exists KeyError.
Qed.

Lemma configured_countries_in_tables_witness :
  e_materials ex_emissions ≠ []
  ∧ (∀ res, load_dfs ex_emissions ex_jobs = Ok res →
       res.*1 = table_names
       ∧ (∀ name df, name ∈ emissions_tables → dict_get res name = Some df →
            uniq (level0 df) = country_names)
       ∧ (∀ name df, name ∈ jobs_tables → dict_get res name = Some df →
            uniq (level0 df) `sublist_of` country_names_alt
            ∧ (Forall (λ r, is_Some (j_value r)) (kept_jobs ex_jobs) →
               uniq (level0 df) = country_names_alt))).
Proof.
  assert (e_materials ex_emissions ≠ []) as H by (vm_compute; discriminate).
  split; [exact H|].
  apply (configured_countries_in_tables ex_emissions ex_jobs H).
Defined.

(** C3, as stated, fails on the sample inputs: the jobs file has no row for
    the United Kingdom, [load_dfs] succeeds all the same, and the jobs tables
    it returns have no United Kingdom in their Country level. *)
Lemma jobs_tables_lack_united_kingdom :
  "UK" ∈ countries
  ∧ ("UK" ∉ j_country <$> j_rows ex_jobs)
  ∧ ∃ res df,
      load_dfs ex_emissions ex_jobs = Ok res
      ∧ dict_get res "jobs_year" = Some df
      ∧ LStr "United Kingdom" ∈ country_names
      ∧ (LStr "United Kingdom" ∉ level0 df)
      ∧ uniq (level0 df) ≠ country_names.
Proof.
  split; [|split].
  - apply (bool_decide_unpack _). vm_compute. exact I.
  - apply (bool_decide_unpack _). vm_compute. exact I.
  - eexists _, _. split; [vm_compute; reflexivity|].
    split; [vm_compute; reflexivity|].
    split; [|split].
    + apply (bool_decide_unpack _). vm_compute. exact I.
    + apply (bool_decide_unpack _). vm_compute. exact I.
    + vm_compute. discriminate.
Qed.

(** * The index levels of the tables and the depth of the variables *)

Section table_levels.
Implicit Types (df : DataFrame) (s : Series).

Lemma unstack_names level fill s df names p :
  unstack level fill s = Ok df → s_names s = names →
  level_pos level names = Ok p → index_names df = delete p names.
Proof.
  intros (p' & Hp' & Hn & _)%unstack_Ok <- Hp. congruence.
Qed.

Lemma emissions_by_year_names emissions df :
  emissions_by_year emissions = Ok df →
  index_names df = [Some "Country"; Some "Scenario"; Some "Mat"].
Proof.
  unfold emissions_by_year.
  destruct (loc _ _) as [df1|] eqn:Hloc; [|done]. cbn [mbind result_bind].
  destruct (unstack _ _ _) as [df2|] eqn:Hun; [|done]. intros [= <-].
  apply loc_Ok in Hloc as (_ & Hnames & _).
  eapply (unstack_names _ _ _ _ _ 2) in Hun;
    [|cbn [stack s_names]; rewrite Hnames; reflexivity|reflexivity].
  unfold set_last_name. cbn [index_names]. by rewrite Hun.
Qed.

Lemma emissions_by_mat_and_tech_names emissions df_em df_et :
  emissions_by_mat_and_tech emissions = Ok (df_em, df_et) →
  index_names df_em = [Some "Country"; Some "Scenario"]
  ∧ index_names df_et = [Some "Country"; Some "Scenario"; Some "Mat"].
Proof.
  unfold emissions_by_mat_and_tech.
  destruct (emissions_first emissions) as [df1|] eqn:Hfirst; [|done].
  cbn [mbind result_bind].
  apply emissions_first_Ok in Hfirst as (Hnames & _).
  destruct (groupby_levels_sum ["Country"; "Scenario"] df1) as [dfm|] eqn:Hm;
    [|done].
  cbn [mbind result_bind].
  destruct (groupby_levels_sum ["Country"; "Scenario"; "Tech"] df1)
    as [df2|] eqn:Ht; [|done].
  cbn [mbind result_bind].
  destruct (unstack _ _ _) as [df3|] eqn:Hun; [|done]. intros [= <- <-].
  eapply groupby_levels_sum_Ok in Hm as (Hnm & _); [|exact Hnames].
  eapply groupby_levels_sum_Ok in Ht as (Hn2 & _); [|exact Hnames].
  split; [done|].
  eapply (unstack_names _ _ _ _ _ 2) in Hun;
    [|cbn [stack s_names]; rewrite Hn2; reflexivity|reflexivity].
  unfold set_last_name. cbn [index_names]. by rewrite Hun.
Qed.

Lemma employment_names jobs df_jy df_jyf df_jt df_ji :
  employment jobs = Ok (df_jy, df_jyf, df_jt, df_ji) →
  index_names df_jy = [Some "Country"; Some "Scenario"; Some "Tech"]
  ∧ index_names df_jyf
    = [Some "Country"; Some "Scenario"; Some "Tech"; Some "Indicator"]
  ∧ index_names df_jt = [Some "Country"; Some "Scenario"; Some "Indicator"]
  ∧ index_names df_ji = [Some "Country"; Some "Scenario"].
Proof.
  unfold employment.
  destruct (employment_series jobs) as [sj|] eqn:Hsj; [|done].
  cbn [mbind result_bind].
  pose proof (employment_series_Ok _ _ Hsj) as (Hnames & _).
  destruct (unstack "Year" 0 sj) as [d1|] eqn:H1; [|done].
  cbn [mbind result_bind].
  destruct (series_groupby_sum ["Country"; "Scenario"; "Year"; "Tech"] sj)
    as [s2|] eqn:Hs2; [|done].
  cbn [mbind result_bind].
  destruct (unstack "Year" 0 s2) as [d2|] eqn:H2; [|done].
  destruct (series_groupby_sum ["Country"; "Scenario"; "Indicator"; "Tech"] sj)
    as [s3|] eqn:Hs3; [|done].
  cbn [mbind result_bind].
  destruct (unstack "Tech" 0 s3) as [d3|] eqn:H3; [|done].
  destruct (series_groupby_sum ["Country"; "Scenario"; "Indicator"] sj)
    as [s4|] eqn:Hs4; [|done].
  cbn [mbind result_bind].
  destruct (unstack "Indicator" 0 s4) as [d4|] eqn:H4; [|done].
  intros [= <- <- <- <-].
  eapply series_groupby_sum_Ok in Hs2 as [Hn2 _]; [|exact Hnames].
  eapply series_groupby_sum_Ok in Hs3 as [Hn3 _]; [|exact Hnames].
  eapply series_groupby_sum_Ok in Hs4 as [Hn4 _]; [|exact Hnames].
  eapply (unstack_names _ _ _ _ _ 2) in H1; [|exact Hnames|reflexivity].
  eapply (unstack_names _ _ _ _ _ 2) in H2; [|exact Hn2|reflexivity].
  eapply (unstack_names _ _ _ _ _ 3) in H3; [|exact Hn3|reflexivity].
  eapply (unstack_names _ _ _ _ _ 2) in H4; [|exact Hn4|reflexivity].
  by rewrite H1, H2, H3, H4.
Qed.

End table_levels.

Section variables.
Implicit Types (df : DataFrame) (v : nested).

Lemma mapM_result_inv {A B} (f : A → result B) (l : list A) (k : list B) :
  mapM f l = Ok k → Forall2 (λ x y, f x = Ok y) l k.
Proof.
  revert k. induction l as [|x l IH]; intros k; cbn.
  - intros [= <-]. constructor.
  - destruct (f x) as [y|] eqn:Hy; [|done]. cbn.
    destruct (mapM f l) as [k'|]; [|done]. cbn. intros [= <-].
    constructor; [done|by apply IH].
Qed.

Lemma Forall_dict_set {K V} `{EqDecision K} (P : K * V → Prop)
    (d : dict K V) k x :
  Forall P d → P (k, x) → Forall P (dict_set d k x).
Proof.
  induction 1 as [|[k' x'] d Hx Hd IH]; intros HP; cbn.
  - by constructor.
  - destruct (decide (k = k')); constructor; auto.
Qed.

Lemma Forall_dict_of_pairs {K V} `{EqDecision K} (P : K * V → Prop)
    (l : list (K * V)) :
  Forall P l → Forall P (dict_of_pairs l).
Proof.
  unfold dict_of_pairs. intros Hl.
  assert (Forall P (@nil (K * V))) as Hacc by constructor.
  revert Hacc. generalize (@nil (K * V)).
  induction Hl as [|[k x] l Hx Hl IH]; intros acc Hacc; cbn; [done|].
  apply IH. by apply Forall_dict_set.
Qed.

Lemma df_to_dict_levels_multi a b inner df flag :
  df_to_dict_levels (a :: b :: inner) df flag
  = d ← mapM (λ ng, v ← df_to_dict_levels (b :: inner) (droplevel0 ng.2) true;
                    mret (ng.1, v))
             (groupby_level0 df);
    mret (Node (dict_of_pairs d)).
Proof. done. Qed.

Lemma df_to_dict_levels_depth levels :
  ∀ df flag v, df_to_dict_levels levels df flag = Ok v →
    depth_is (length levels - 1) v.
Proof.
  induction levels as [|a rest IH]; intros df flag v.
  - cbn. destruct (to_dict_index _); [|done]. by intros [= <-].
  - destruct rest as [|b inner].
    + cbn. destruct (to_dict_index _); [|done]. by intros [= <-].
    + rewrite df_to_dict_levels_multi.
      destruct (mapM _ (groupby_level0 df)) as [d|] eqn:Hd; [|done].
      cbn [mbind result_bind mret result_ret]. intros [= <-].
      apply mapM_result_inv in Hd.
      replace (length (a :: b :: inner) - 1)%nat with (S (length inner))
        by (cbn; lia).
      cbn [depth_is]. apply Forall_dict_of_pairs.
      apply Forall_forall. intros y [i Hi]%list_elem_of_lookup.
      destruct (Forall2_lookup_r _ _ _ _ _ Hd Hi) as (ng & _ & Hng).
      cbn beta in Hng.
      destruct (df_to_dict_levels (b :: inner) (droplevel0 ng.2) true)
        as [v'|] eqn:Hv'; cbn in Hng; [|done].
      injection Hng as <-. cbn [snd].
      apply IH in Hv'. cbn in Hv'. by rewrite Nat.sub_0_r in Hv'.
Qed.

Lemma load_dfs_levels emissions jobs res :
  load_dfs emissions jobs = Ok res →
  (λ nd, (nd.1, index_names nd.2)) <$> res = table_levels.
Proof.
  unfold load_dfs, aggregate_tables.
  destruct (emissions_by_year emissions) as [df_ey|] eqn:Hey; [|done].
  destruct (emissions_by_mat_and_tech emissions) as [[df_em df_et]|] eqn:Het;
    [|done].
  destruct (employment jobs) as [[[[df_jy df_jyf] df_jt] df_ji]|] eqn:Hj; [|done].
  cbn [mbind result_bind mret result_ret fmap list_fmap fst snd]. intros [= <-].
  apply emissions_by_year_names in Hey.
  apply emissions_by_mat_and_tech_names in Het as [Hem Het].
  apply employment_names in Hj as (Hjy & Hjyf & Hjt & Hji).
  cbn [fmap list_fmap fst snd rename_index set_rows index_names].
  by rewrite Hey, Hem, Het, Hjy, Hjyf, Hjt, Hji.
Qed.

Lemma load_dfs_multiindex emissions jobs res :
  load_dfs emissions jobs = Ok res →
  Forall (λ nd, is_multiindex nd.2 = true) res.
Proof.
  intros Hres%load_dfs_levels.
  assert (Forall (λ tl : string * list (option string), 2 ≤ length tl.2)%nat
            table_levels) as Hlev by (repeat constructor).
  rewrite <-Hres, Forall_fmap in Hlev.
  eapply Forall_impl; [exact Hlev|]. intros [name df] Hlen. cbn in *.
  unfold is_multiindex. by apply bool_decide_eq_true.
Qed.

End variables.

(** X1.  The index levels of the seven tables [load_dfs] returns are fixed:
    Country, Scenario, Mat for the two emissions pivots, Country, Scenario
    for [emissions_mat] and [jobs_ind], and so on; every table has at least
    two levels. *)
Theorem load_dfs_index_levels emissions jobs (res : dict string DataFrame) :
  load_dfs emissions jobs = Ok res →
  (λ nd, (nd.1, index_names nd.2)) <$> res = table_levels
  ∧ Forall (λ nd, is_multiindex nd.2 = true) res.
Proof.
  intros Hres. split; [by apply (load_dfs_levels emissions jobs)|].
  by apply (load_dfs_multiindex emissions jobs).
Qed.

Lemma load_dfs_index_levels_witness :
  ∃ res, load_dfs ex_emissions ex_jobs = Ok res
         ∧ (λ nd, (nd.1, index_names nd.2)) <$> res = table_levels
         ∧ Forall (λ nd, is_multiindex nd.2 = true) res.
Proof.
  eexists. split; [vm_compute; reflexivity|].
  eapply (load_dfs_index_levels ex_emissions ex_jobs).
  vm_compute. reflexivity.
Defined.

(** X2.  Whenever [df_to_dict] returns, its result has one outer dictionary
    level per index level but the last, on every branch; no well-formedness
    of the table is needed. *)
Theorem df_to_dict_depth (df : DataFrame) (flag : bool) (v : nested) :
  df_to_dict df flag = Ok v →
  depth_is (length (index_names df) - 1) v.
Proof. apply df_to_dict_levels_depth. Qed.

Lemma df_to_dict_depth_witness :
  ∃ v, df_to_dict ex_two_level true = Ok v ∧ depth_is 1 v.
Proof.
  eexists. split; [vm_compute; reflexivity|].
  apply (df_to_dict_depth ex_two_level true). vm_compute. reflexivity.
Defined.

(** X3.  When [main] succeeds, the template receives exactly the seven
    names, in the order of the source, and the variable of each table is
    nested as deep as the table has index levels but one: two dictionaries
    above the rows for [emissions_year], one for [emissions_mat], and so
    on. *)
Theorem main_binds_seven_variables emissions jobs (preserve_zeros : bool)
    (vars : dict string nested) :
  main emissions jobs preserve_zeros = Ok vars →
  vars.*1 = table_names
  ∧ Forall2 (λ nv tl, nv.1 = tl.1 ∧ depth_is (length tl.2 - 1) nv.2)
            vars table_levels.
Proof.
  unfold main. destruct (load_dfs emissions jobs) as [res|] eqn:Hres; [|done].
  cbn [mbind result_bind]. unfold template_variables.
  destruct (mapM _ res) as [d|] eqn:Hd; [|done].
  cbn [mbind result_bind mret result_ret]. intros [= <-].
  apply mapM_result_inv in Hd.
  pose proof (load_dfs_levels _ _ _ Hres) as Hlev.
  assert (Forall2 (λ (nd : string * DataFrame) (y : string * nested),
                     y.1 = nd.1
                     ∧ depth_is (length (index_names nd.2) - 1) y.2) res d)
    as HF.
  { eapply Forall2_impl; [exact Hd|]. intros [name df] [name' v] Hy. cbn in *.
    destruct (df_to_dict df _) as [v0|] eqn:Hv0; cbn in Hy; [|done].
    injection Hy as <- <-. split; [done|].
    by eapply df_to_dict_levels_depth. }
  assert (d.*1 = table_names) as Hnames.
  { assert (d.*1 = res.*1) as ->.
    { clear -HF. induction HF as [|x y l k [Hxy _] _ IH]; [done|].
      cbn. by rewrite IH, Hxy. }
    change table_names with (table_levels.*1).
    rewrite <-Hlev, <-list_fmap_compose. by apply list_fmap_ext. }
  assert (NoDup d.*1) as Hnd.
  { rewrite Hnames. apply (bool_decide_unpack _). vm_compute. exact I. }
  rewrite dict_of_pairs_nodup by done. split; [done|].
  rewrite <-Hlev. apply Forall2_fmap_r. apply Forall2_flip.
  eapply Forall2_impl; [exact HF|]. intros [name df] [name' v] [Hn Hdpt].
  cbn in *. done.
Qed.

Lemma main_binds_seven_variables_witness :
  ∃ vars, main ex_emissions ex_jobs false = Ok vars
          ∧ vars.*1 = table_names
          ∧ Forall2 (λ nv tl, nv.1 = tl.1 ∧ depth_is (length tl.2 - 1) nv.2)
                    vars table_levels.
Proof.
  eexists. split; [vm_compute; reflexivity|].
  eapply (main_binds_seven_variables ex_emissions ex_jobs false).
  vm_compute. reflexivity.
Defined.

(** X4.  [preserve_zeros] has no effect on what [main] hands to the
    template: every table [load_dfs] builds has a multi-level index, and on
    such a table [df_to_dict] drops the zeros at the leaves whatever flag it
    was called with. *)
Theorem main_ignores_preserve_zeros emissions jobs :
  main emissions jobs true = main emissions jobs false.
Proof.
  unfold main. destruct (load_dfs emissions jobs) as [res|] eqn:Hres; [|done].
  cbn [mbind result_bind]. unfold template_variables.
  rewrite (mapM_result_ext
             (λ nd, v ← df_to_dict nd.2 (negb true); mret (nd.1, v))
             (λ nd, v ← df_to_dict nd.2 (negb false); mret (nd.1, v))); [done|].
  eapply Forall_impl; [by apply (load_dfs_multiindex emissions jobs)|].
  intros [name df] Hm. cbn in *. by rewrite !df_to_dict_multi.
Qed.

(** * More on the renaming and on [df_to_dict] *)

Section rename_twice.

Lemma rename_label_idem l :
  rename_label rename_dict (rename_label rename_dict l)
  = rename_label rename_dict l.
Proof.
  destruct l as [s|z]; [|done]. unfold rename_label at 2.
  destruct (dict_get rename_dict s) as [s'|] eqn:E.
  - apply dict_get_elem_of in E. unfold rename_dict in E. set_unfold in E.
    destruct E as [E|[E|[E|[E|[E|[]]]]]]; injection E as -> ->; reflexivity.
  - done.
Qed.

End rename_twice.

(** X5.  The renaming is idempotent: no full country name is itself a code,
    so renaming a table that has been renamed changes nothing. *)
Theorem renaming_is_idempotent (df : DataFrame) :
  rename_index rename_dict (rename_index rename_dict df)
  = rename_index rename_dict df.
Proof.
  unfold rename_index, set_rows. cbn [index_names columns rows]. f_equal.
  rewrite <-list_fmap_compose. apply list_fmap_ext. intros i [k cs] _. cbn.
  f_equal. rewrite <-list_fmap_compose. apply list_fmap_ext.
  intros j l _. apply rename_label_idem.
Qed.

(** X6.  On a well-formed single-level table [df_to_dict] with the zeros
    kept loses nothing: the rows of the table, in their order, and its column
    labels, in their order, are read back from the dictionary. *)
Theorem flat_table_round_trip (df : DataFrame) :
  wf_table df → length (index_names df) = 1%nat →
  ∃ d, df_to_dict df false = Ok (Leaf d)
       ∧ rows_of_dict d = rows df
       ∧ Forall (λ e, e.2.*1 = columns df) d.
Proof.
  intros Hwf Hn. exists (flat_dict df).
  split; [by apply (df_to_dict_flat_wf df false)|]. split.
  - unfold rows_of_dict, flat_dict. rewrite <-list_fmap_compose.
    rewrite <-(list_fmap_id (rows df)) at 2. apply list_fmap_ext.
    intros i [k cs] Hi. apply list_elem_of_lookup_2 in Hi. cbn.
    pose proof (flat_key df (k, cs) Hwf Hn Hi) as Hk. cbn in Hk.
    pose proof (wf_row_length df (k, cs) Hwf Hi) as Hlen. cbn in Hlen.
    rewrite <-Hk. f_equal. apply snd_zip. lia.
  - unfold flat_dict. apply Forall_fmap, Forall_forall. intros [k cs] Hr. cbn.
    pose proof (wf_row_length df (k, cs) Hwf Hr) as Hlen. cbn in Hlen.
    apply fst_zip. lia.
Qed.

Lemma flat_table_round_trip_witness :
  wf_table ex_flat
  ∧ ∃ d, df_to_dict ex_flat false = Ok (Leaf d)
         ∧ rows_of_dict d = rows ex_flat
         ∧ Forall (λ e, e.2.*1 = columns ex_flat) d.
Proof.
  split; [exact wf_ex_flat|].
  apply (flat_table_round_trip ex_flat); [exact wf_ex_flat|reflexivity].
Defined.

(** X7.  A table without rows gives an empty dictionary: [{}] at the outer
    level when the index has several levels, the empty row mapping
    otherwise; the column labels and the flag play no part. *)
Theorem df_to_dict_no_rows (names : list (option string)) (cols : list label)
    (flag : bool) :
  df_to_dict (mkDF names cols []) flag
  = Ok (if bool_decide (2 ≤ length names)%nat then Node [] else Leaf []).
Proof.
  destruct names as [|a [|b inner]]; by destruct flag.
Qed.

Section leaves_after_dropping.
Implicit Types (df : DataFrame) (v : nested).

(** Induction over the index levels for a property of the result with the
    zeros dropped. *)
Lemma df_to_dict_induct (Q : DataFrame → nested → Prop) :
  (∀ df, wf_table df → length (index_names df) = 1%nat →
     Q df (Leaf (flat_dict (zero_filter df)))) →
  (∀ df d, wf_table df → (2 ≤ length (index_names df))%nat →
     d.*1 = sort_labels (level0 df) →
     (∀ l v', (l, v') ∈ d → Q (droplevel0 (group_of df l)) v') →
     Q df (Node d)) →
  ∀ n df, wf_table df → length (index_names df) = S n →
    ∃ v, df_to_dict df true = Ok v ∧ Q df v.
Proof.
  intros Hleaf Hnode. induction n as [|n IH]; intros df Hwf Hn.
  - eexists. split; [by apply (df_to_dict_flat_wf df true)|]. by apply Hleaf.
  - rewrite df_to_dict_multi
      by (unfold is_multiindex; rewrite Hn; apply bool_decide_eq_true; lia).
    set (P := λ (ng : label * DataFrame) (y : label * nested),
                y.1 = ng.1 ∧ Q (droplevel0 ng.2) y.2).
    destruct (mapM_result_Ok
                (λ ng, v ← df_to_dict (droplevel0 ng.2) true; mret (ng.1, v))
                P (groupby_level0 df)) as (d & -> & HF).
    { apply Forall_forall. intros ng (name & -> & Hname)%list_elem_of_fmap.
      fold (group_of df name). cbn [fst snd].
      destruct (IH (droplevel0 (group_of df name))) as (v & -> & Hv).
      - apply wf_group; [done|lia].
      - cbn. rewrite length_tl, Hn. cbn. lia.
      - exists (name, v). by split. }
    assert (d.*1 = sort_labels (level0 df)) as Hkeys.
    { rewrite groupby_level0_groups in HF.
      apply Forall2_fmap_l in HF.
      clear -HF. induction HF as [|x [y1 y2] l k [Hxy _] _ IH']; [done|].
      cbn in *. by rewrite IH', Hxy. }
    cbn [mbind result_bind mret result_ret].
    rewrite dict_of_pairs_nodup by (rewrite Hkeys; apply NoDup_sort_labels).
    eexists. split; [done|]. apply Hnode; [done|lia|done|].
    intros l v' [i Hi]%list_elem_of_lookup.
    destruct (Forall2_lookup_r _ _ _ _ _ HF Hi) as (ng & Hng & HP).
    apply list_elem_of_lookup_2 in Hng.
    apply list_elem_of_fmap in Hng as (name & -> & _).
    destruct HP as [Hl HP]. cbn in Hl. by subst name.
Qed.

Lemma removelast_cons_cons {A} (x y : A) l :
  removelast (x :: y :: l) = x :: removelast (y :: l).
Proof. done. Qed.

Lemma nested_get_nonempty v path row : nested_get v path = Some row → path ≠ [].
Proof. by destruct path. Qed.

Lemma leaf_no_zero df :
  wf_table df → length (index_names df) = 1%nat →
  no_zero_rows (Leaf (flat_dict (zero_filter df)))
  ∧ no_zero_columns (Leaf (flat_dict (zero_filter df))).
Proof.
  intros Hwf Hn. pose proof (wf_zero_filter df Hwf) as Hwf'.
  assert (length (index_names (zero_filter df)) = 1%nat) as Hn' by done.
  split.
  - intros path row. rewrite nested_get_leaf.
    destruct path as [|l [|??]]; [done| |done].
    intros (cs' & Hr' & ->)%flat_dict_get; [|done..].
    pose proof Hr' as (cs & Hr & Hnz & ->)%elem_of_rows_zero_filter.
    assert (existsb nonzero (select (nonzero_columns df) cs) = true) as Hsel.
    { pose proof (existsb_select_row df ([l], cs) (wf_cells df Hwf) Hr) as Hs.
      cbn in Hs. by rewrite Hs. }
    apply existsb_exists in Hsel as (x & Hx & Hxnz).
    apply list_elem_of_In, list_elem_of_lookup in Hx as [i Hi].
    pose proof (wf_row_length _ _ Hwf' Hr') as Hlen. cbn [snd] in Hlen.
    destruct (lookup_lt_is_Some_2 (columns (zero_filter df)) i) as [c Hc].
    { rewrite <-Hlen. by eapply lookup_lt_Some. }
    exists c, x. split; [|done].
    apply (row_dict_get _ [l] _ c x Hwf' Hr'). eauto.
  - intros path row c x. rewrite nested_get_leaf.
    destruct path as [|l [|??]]; [done| |done].
    intros (cs' & Hr' & ->)%flat_dict_get; [|done..].
    intros (i & Hc & Hx)%(row_dict_get _ [l] cs' c x Hwf' Hr').
    assert (nonzero_columns (zero_filter df) !! i = Some true) as Hcol.
    { unfold zero_filter at 1. rewrite nonzero_columns_drop_zero_cols.
      apply lookup_replicate_2.
      rewrite <-(length_select _ (columns (drop_zero_rows df)))
        by by rewrite length_nonzero_columns.
      apply lookup_lt_Some in Hc. exact Hc. }
    apply nonzero_columns_lookup in Hcol as (_ & [k2 cs2] & x2 & Hr2 & Hx2 & Hnz2).
    cbn in Hx2.
    pose proof (flat_key _ _ Hwf' Hn' Hr2) as Hk2. cbn in Hk2.
    exists [scalar k2], (zip (columns (zero_filter df)) cs2), x2.
    split; [done|]. split; [|split; [|done]].
    + rewrite nested_get_leaf. apply flat_dict_get; [done..|].
      exists cs2. split; [by rewrite <-Hk2|done].
    + apply (row_dict_get _ k2 cs2 c x2 Hwf' Hr2). eauto.
Qed.

Lemma no_zero_induct n :
  ∀ df, wf_table df → length (index_names df) = S n →
    ∃ v, df_to_dict df true = Ok v ∧ no_zero_rows v ∧ no_zero_columns v.
Proof.
  apply (df_to_dict_induct (λ _ v, no_zero_rows v ∧ no_zero_columns v)).
  - apply leaf_no_zero.
  - intros df d Hwf Hn Hkeys Hd. split.
    + intros [|l rest] row; [done|]. rewrite nested_get_node.
      destruct (dict_get d l) as [v'|] eqn:Hg; [|done]. cbn.
      apply dict_get_elem_of, Hd in Hg as [Hrows _]. apply Hrows.
    + intros [|l rest] row c x; [done|]. rewrite nested_get_node.
      destruct (dict_get d l) as [v'|] eqn:Hg; [|done]. cbn.
      pose proof Hg as [_ Hcols]%dict_get_elem_of%Hd.
      intros Hrow Hget.
      destruct (Hcols rest row c x Hrow Hget)
        as (rest' & row' & x' & Hsame & Hrow' & Hget' & Hnz).
      exists (l :: rest'), row', x'. split; [|split; [|done]].
      * apply nested_get_nonempty in Hrow, Hrow'.
        destruct rest as [|r0 rest]; [done|].
        destruct rest' as [|r0' rest']; [done|].
        rewrite !removelast_cons_cons. by f_equal.
      * rewrite nested_get_node, Hg. done.
Qed.

End leaves_after_dropping.

(** C8.  On a table whose row index has more than one level the result of
    [df_to_dict] does not depend on [drop_full_zeros]: each group is
    converted by a recursive call that leaves the argument out.  So the zero
    filter is applied at the leaves also when the caller passed [False]: on
    a well-formed table the call returns, and its result has no row that is
    zero everywhere and no column that is zero in its whole leaf, whatever
    the flag. *)
Theorem multiindex_ignores_drop_full_zeros (df : DataFrame) :
  is_multiindex df = true →
  df_to_dict df false = df_to_dict df true
  ∧ (∀ flag,
       df_to_dict df flag
       = d ← mapM (λ ng, v ← df_to_dict (droplevel0 ng.2) true; mret (ng.1, v))
                  (groupby_level0 df);
         mret (Node (dict_of_pairs d)))
  ∧ (wf_table df →
     ∀ flag, ∃ v, df_to_dict df flag = Ok v
                  ∧ no_zero_rows v ∧ no_zero_columns v).
Proof.
  intros Hm. split; [|split].
  - by rewrite !df_to_dict_multi.
  - intros flag. by apply df_to_dict_multi.
  - intros Hwf flag.
    assert (df_to_dict df flag = df_to_dict df true) as ->
      by (by rewrite !df_to_dict_multi).
    destruct (index_names df) as [|a rest] eqn:E; [by destruct Hwf|].
    apply (no_zero_induct (length rest)); [done|by rewrite E].
Qed.

Lemma multiindex_ignores_drop_full_zeros_witness :
  is_multiindex ex_two_level = true
  ∧ wf_table ex_two_level
  ∧ df_to_dict ex_two_level false = df_to_dict ex_two_level true
  ∧ ∃ v, df_to_dict ex_two_level false = Ok v
         ∧ no_zero_rows v ∧ no_zero_columns v.
Proof.
  split; [reflexivity|]. split; [exact wf_ex_two_level|].
  destruct (multiindex_ignores_drop_full_zeros ex_two_level eq_refl)
    as (Heq & _ & Hdrop).
  split; [exact Heq|]. exact (Hdrop wf_ex_two_level false).
Defined.

(** X8.  With the zeros dropped (the flag set, or any multi-level table) the
    result of [df_to_dict] on a well-formed table has no row that is zero
    everywhere and no column that is zero in its whole leaf. *)
Theorem no_zero_row_or_column_survives (df : DataFrame) (flag : bool) :
  wf_table df → flag = true ∨ is_multiindex df = true →
  ∃ v, df_to_dict df flag = Ok v ∧ no_zero_rows v ∧ no_zero_columns v.
Proof.
  intros Hwf Hdrop.
  assert (df_to_dict df flag = df_to_dict df true) as ->.
  { destruct Hdrop as [->|Hm]; [done|]. by rewrite !df_to_dict_multi. }
  destruct (index_names df) as [|a rest] eqn:E; [by destruct Hwf|].
  apply (no_zero_induct (length rest)); [done|by rewrite E].
Qed.

Lemma no_zero_row_or_column_survives_witness :
  wf_table ex_two_level
  ∧ ∃ v, df_to_dict ex_two_level false = Ok v
         ∧ no_zero_rows v ∧ no_zero_columns v.
Proof.
  split; [exact wf_ex_two_level|].
  apply (no_zero_row_or_column_survives ex_two_level false);
    [exact wf_ex_two_level|right; reflexivity].
Defined.

Section outer_keys.
Implicit Types (df : DataFrame) (v : nested).

Lemma sort_labels_sorted (l : list label) : StronglySorted label_le (sort_labels l).
Proof. unfold sort_labels. apply StronglySorted_merge_sort; apply _. Qed.

Lemma keys_sorted_leaf d : keys_sorted (Leaf d).
Proof. by intros [|??] d'. Qed.

Lemma keys_sorted_induct n :
  ∀ df, wf_table df → length (index_names df) = S n →
    ∃ v, df_to_dict df true = Ok v
         ∧ keys_sorted v
         ∧ ((2 ≤ length (index_names df))%nat →
            ∃ d, v = Node d ∧ d.*1 = sort_labels (level0 df)).
Proof.
  apply (df_to_dict_induct
           (λ df v, keys_sorted v
                    ∧ ((2 ≤ length (index_names df))%nat →
                       ∃ d, v = Node d ∧ d.*1 = sort_labels (level0 df)))).
  - intros df _ Hn. split; [apply keys_sorted_leaf|]. rewrite Hn. lia.
  - intros df d Hwf Hn Hkeys Hd. split; [|by exists d].
    intros [|l rest] d0; cbn.
    + intros [= <-]. rewrite Hkeys.
      split; [apply sort_labels_sorted|apply NoDup_sort_labels].
    + destruct (dict_get d l) as [v'|] eqn:Hg; [|done]. cbn.
      apply dict_get_elem_of, Hd in Hg as [Hsorted _]. apply Hsorted.
Qed.

End outer_keys.

(** X9.  On a well-formed table the keys of every outer dictionary of the
    result are sorted and pairwise different, and the keys of the outermost
    one are the distinct labels of the first index level: the order in which
    a template iterates over them does not depend on the order of the
    rows. *)
Theorem outer_keys_are_sorted (df : DataFrame) (flag : bool) :
  wf_table df →
  ∃ v, df_to_dict df flag = Ok v
       ∧ keys_sorted v
       ∧ (is_multiindex df = true →
          ∃ d, v = Node d ∧ d.*1 = sort_labels (level0 df)).
Proof.
  intros Hwf.
  destruct (index_names df) as [|a [|b inner]] eqn:E; [by destruct Hwf| |].
  - exists (Leaf (flat_dict (if flag then zero_filter df else df))).
    split; [apply df_to_dict_flat_wf; [done|by rewrite E]|].
    split; [apply keys_sorted_leaf|].
    unfold is_multiindex. rewrite E. intros Hm%bool_decide_eq_true.
    cbn in Hm. lia.
  - assert (is_multiindex df = true) as Hm.
    { unfold is_multiindex. rewrite E. apply bool_decide_eq_true. cbn. lia. }
    destruct (keys_sorted_induct (S (length inner)) df Hwf) as (v & Hv & Hs & Hd).
    { by rewrite E. }
    exists v. split; [by rewrite df_to_dict_multi, <-(df_to_dict_multi df true)|].
    split; [done|]. intros _. apply Hd. rewrite E. cbn. lia.
Qed.

Lemma outer_keys_are_sorted_witness :
  wf_table ex_two_level
  ∧ ∃ v, df_to_dict ex_two_level false = Ok v
         ∧ keys_sorted v
         ∧ (is_multiindex ex_two_level = true →
            ∃ d, v = Node d ∧ d.*1 = sort_labels (level0 ex_two_level)).
Proof.
  split; [exact wf_ex_two_level|].
  apply (outer_keys_are_sorted ex_two_level false). exact wf_ex_two_level.
Defined.

(** * Rows that [loc] leaves out *)

Section loc_after_groupby.
Implicit Types (ks : list key) (l : label).

Global Instance key_le_antisymm : AntiSymm (=) key_le.
Proof.
  intros k1. induction k1 as [|a k1 IH]; intros [|b k2]; try done.
  rewrite !key_le_cons.
  intros [[-> H12]|[Hab H12]] [[Heq H21]|[Hba H21]]; try done.
  - f_equal. by apply IH.
  - destruct Hab. by apply (anti_symm label_le).
Qed.



Lemma NoDup_sort_keys ks : NoDup (sort_keys ks).
Proof.
  unfold sort_keys. rewrite merge_sort_Permutation. apply NoDup_remove_dups.
Qed.




End loc_after_groupby.

Section unlisted_rows.





End unlisted_rows.





(** * Repeated keys in the emissions file *)

Section first_of_group.







End first_of_group.



(** * Well-formedness through the reshaping operations *)

Section good_tables.
Context (P : label → Prop).
Implicit Types (df : DataFrame) (s : Series) (k : key) (l : label).

Lemma NoDup_fst_inj {A B} (l : list (A * B)) x1 x2 :
  NoDup l.*1 → x1 ∈ l → x2 ∈ l → x1.1 = x2.1 → x1 = x2.
Proof.
  intros Hnd H1 H2 Heq. destruct x1 as [a b1], x2 as [a' b2]. cbn in Heq.
  subst a'. f_equal. by eapply NoDup_fst_functional.
Qed.

Lemma Forall_sublist_of {A} (Q : A → Prop) (l1 l2 : list A) :
  l1 `sublist_of` l2 → Forall Q l2 → Forall Q l1.
Proof.
  intros Hsub. rewrite !Forall_forall. intros H x Hx.
  apply H. by eapply elem_of_sublist.
Qed.

Lemma Forall_project ps k : Forall P k → Forall P (project ps k).
Proof.
  intros Hk. unfold project. apply Forall_forall.
  intros l (p & _ & Hp)%list_elem_of_omap.
  rewrite Forall_forall in Hk. by eapply Hk, list_elem_of_lookup_2.
Qed.

Lemma length_project ps k :
  Forall (λ p, (p < length k)%nat) ps → length (project ps k) = length ps.
Proof.
  unfold project. induction 1 as [|p ps Hp _ IH]; [done|].
  change (omap ?f (p :: ps)) with
    (match f p with Some y => y :: omap f ps | None => omap f ps end).
  cbn beta. destruct (lookup_lt_is_Some_2 k p Hp) as [l ->]. cbn. by rewrite IH.
Qed.

Lemma level_pos_lt name (names : list (option string)) p :
  level_pos name names = Ok p → (p < length names)%nat.
Proof.
  unfold level_pos. destruct (list_find _ names) as [[i x]|] eqn:Hf; [|done].
  intros [= <-]. apply list_find_Some in Hf as (Hi & _). by eapply lookup_lt_Some.
Qed.

Lemma mapM_level_pos_lt (names : list (option string)) keys ps :
  mapM (λ n, level_pos n names) keys = Ok ps →
  length ps = length keys ∧ Forall (λ p, (p < length names)%nat) ps.
Proof.
  intros H%mapM_result_inv. split.
  - symmetry. by eapply Forall2_length.
  - induction H as [|n p keys ps Hp _ IH]; constructor; [|done].
    by eapply level_pos_lt.
Qed.

Lemma level_pos_Ok name (names : list (option string)) :
  Some name ∈ names → ∃ p, level_pos name names = Ok p.
Proof.
  intros Hin. unfold level_pos.
  destruct (list_find_elem_of (λ n, n = Some name) names (Some name) Hin eq_refl)
    as [[i x] ->]. eauto.
Qed.

Lemma mapM_level_pos_Ok (names : list (option string)) keys :
  Forall (λ n, Some n ∈ names) keys →
  ∃ ps, mapM (λ n, level_pos n names) keys = Ok ps.
Proof.
  induction 1 as [|n keys Hn _ [ps IH]]; [by eexists|].
  destruct (level_pos_Ok n names Hn) as [p Hp].
  exists (p :: ps). cbn [mapM]. by rewrite Hp, IH.
Qed.

(** [groupby(...).agg()] *)

Lemma good_groupby_agg agg names cols (rs : list (key * list cell)) :
  names ≠ [] → NoDup cols →
  (∀ X, length (agg X) = length cols) →
  Forall (λ r, length r.1 = length names ∧ Forall P r.1) rs →
  good_table P (groupby_agg agg names cols rs).
Proof.
  intros Hnames Hnd Hagg Hrs. rewrite Forall_forall in Hrs.
  assert (∀ k, k ∈ sort_keys rs.*1 → length k = length names ∧ Forall P k) as Hk.
  { intros k Hk. rewrite elem_of_sort_keys in Hk.
    apply list_elem_of_fmap in Hk as (r & -> & Hr). by apply Hrs. }
  split; [split|].
  - apply Forall_forall. intros [k cs] [Hin _]%elem_of_rows_groupby_agg.
    cbn. rewrite length_fmap. apply Hk. by apply elem_of_sort_keys.
  - apply Forall_forall. intros [k cs] [_ ->]%elem_of_rows_groupby_agg.
    cbn. apply Hagg.
  - rewrite index_groupby_agg. apply NoDup_sort_keys.
  - done.
  - cbn. by destruct names.
  - rewrite index_groupby_agg. apply Forall_forall. intros k Hin. by apply Hk.
Qed.

(** [.loc[labels]] *)

Lemma good_loc (Q : label → Prop) labels df df' :
  good_table Q df → NoDup labels → loc labels df = Ok df' →
  (∀ k c, k ∈ index df → c ∈ labels → head k = Some c → Forall P k) →
  good_table P df'.
Proof.
  intros [[Hlev Hcells Hidx Hcols Hnamed] _] Hnd Hloc HP.
  pose proof (loc_Ok _ _ _ Hloc) as (_ & Hn & Hc & Hrows).
  rewrite Forall_forall in Hlev. unfold rectangular in Hcells.
  rewrite Forall_forall in Hcells.
  split; [split|].
  - apply Forall_forall. intros r (_ & _ & _ & Hr)%Hrows. rewrite Hn. by apply Hlev.
  - apply Forall_forall. intros r (_ & _ & _ & Hr)%Hrows. rewrite Hc. by apply Hcells.
  - revert Hloc. unfold loc. destruct (decide _); [|done]. intros [= <-].
    unfold index. cbn [rows set_rows].
    apply (NoDup_fmap_2_strong fst).
    + intros x1 x2 (c1 & [_ H1]%list_elem_of_filter & _)%list_elem_of_bind
        (c2 & [_ H2]%list_elem_of_filter & _)%list_elem_of_bind Heq.
      by apply (NoDup_fst_inj (rows df)).
    + apply NoDup_bind; [| |done].
      * intros c1 c2 r _ _ [H1 _]%list_elem_of_filter [H2 _]%list_elem_of_filter.
        congruence.
      * intros c _. apply NoDup_filter. by eapply NoDup_fmap_1.
  - by rewrite Hc.
  - by rewrite Hn.
  - apply Forall_forall.
    intros k ([k' cs] & -> & (c & Hc' & Hh & Hr)%Hrows)%list_elem_of_fmap.
    apply (HP _ c); [|done..]. unfold index. apply list_elem_of_fmap. by exists (k', cs).
Qed.

(** [.stack()] *)

Lemma fmap_bind {A B C} (g : B → C) (f : A → list B) (l : list A) :
  g <$> (l ≫= f) = l ≫= (λ x, g <$> f x).
Proof.
  induction l as [|x l IH]; [done|]. cbn. by rewrite fmap_app, IH.
Qed.

Lemma fst_zip_sublist {A B} (l : list A) (k : list B) :
  (zip l k).*1 `sublist_of` l.
Proof.
  revert k. induction l as [|a l IH]; intros [|c k]; cbn; try done.
  - apply sublist_nil_l.
  - by apply sublist_skip.
Qed.

Lemma NoDup_stack_row k (l : list (label * cell)) :
  NoDup l.*1 →
  NoDup (omap (λ cv : label * cell,
                 match cv.2 with
                 | Some z => Some (k ++ [cv.1], Some z)
                 | None => None
                 end) l).*1.
Proof.
  induction l as [|[c v] l IH]; [constructor|].
  rewrite fmap_cons. intros [Hnotin Hl]%NoDup_cons. specialize (IH Hl).
  change (omap ?f ((c, v) :: l)) with
    (match f (c, v) with Some y => y :: omap f l | None => omap f l end).
  cbn beta. cbn [fst snd]. destruct v as [z|]; [|done].
  rewrite fmap_cons. apply NoDup_cons. split; [|done].
  intros ([? ?] & Hk & ([c' [z'|]] & Hin & Heq)%list_elem_of_omap)%list_elem_of_fmap;
    [|done].
  cbn in Heq. injection Heq as <- <-. cbn in Hk.
  apply app_inj_tail in Hk as [_ ->].
  apply Hnotin. apply list_elem_of_fmap. by exists (c', Some z').
Qed.

Lemma good_stack df :
  good_table P df → Forall P (columns df) → good_series P (stack df).
Proof.
  intros [[Hlev Hcells Hidx Hcols Hnamed] HPi] HPc.
  rewrite Forall_forall in Hlev. rewrite Forall_forall in HPi.
  rewrite Forall_forall in HPc.
  assert (∀ k cs, (k, cs) ∈ rows df → k ∈ index df) as Hin.
  { intros k cs Hr. unfold index. apply list_elem_of_fmap. by exists (k, cs). }
  split.
  - apply Forall_forall.
    intros [k' v] (k & cs & c & z & Hr & _ & -> & ->)%elem_of_stack.
    cbn. rewrite !length_app. cbn. f_equal. apply (Hlev _ Hr).
  - unfold s_index, stack. cbn [s_items]. rewrite fmap_bind.
    apply NoDup_bind.
    + intros [k1 cs1] [k2 cs2] k' H1 H2
        ([? ?] & -> & ([c1 [z1|]] & _ & Heq1)%list_elem_of_omap)%list_elem_of_fmap
        ([? ?] & Hk & ([c2 [z2|]] & _ & Heq2)%list_elem_of_omap)%list_elem_of_fmap;
        try done.
      cbn in Heq1, Heq2. injection Heq1 as <- <-. injection Heq2 as <- <-.
      cbn in Hk. apply app_inj_tail in Hk as [-> _].
      by apply (NoDup_fst_inj (rows df)).
    + intros [k cs] Hr. cbn [fst snd]. apply NoDup_stack_row.
      eapply sublist_NoDup; [exact Hcols|apply fst_zip_sublist].
    + by eapply NoDup_fmap_1.
  - apply Forall_forall.
    intros [k' v] (k & cs & c & z & Hr & _ & -> & ->)%elem_of_stack. by eexists.
  - apply Forall_forall.
    intros k' ([? v] & -> & (k & cs & c & z & Hr & Hz & -> & ->)%elem_of_stack)
      %list_elem_of_fmap.
    cbn. apply Forall_app. split; [by eapply HPi, Hin|].
    apply Forall_singleton, HPc. by eapply elem_of_zip_l.
Qed.

End good_tables.

Section good_pivots.
Context (P : label → Prop).
Implicit Types (df : DataFrame) (s : Series) (k : key) (l : label).

Lemma good_table_any df : good_table P df → good_table (λ _, True) df.
Proof.
  intros [Hwf _]. split; [done|]. apply Forall_forall. intros k _.
  by apply Forall_true.
Qed.

(** [.stack().droplevel(-1)] on a table with a single column *)

Lemma good_droplevel_stack df c :
  good_table P df → columns df = [c] →
  good_series P (series_droplevel_last (stack df)).
Proof.
  intros Hdf Hc. pose proof (good_table_any df Hdf) as Hany.
  apply good_stack in Hany as [Hlev Hidx Hval _]; [|by apply Forall_true].
  destruct Hdf as [_ HP].
  rewrite Forall_forall in Hlev. rewrite Forall_forall in Hval.
  rewrite Forall_forall in HP.
  split.
  - apply Forall_forall. intros [k v] ([k' v'] & [= -> ->] & Hin)%list_elem_of_fmap.
    pose proof Hin as (k & cs & c' & z & _ & _ & -> & ->)%elem_of_stack.
    specialize (Hlev _ Hin). cbn in Hlev |- *.
    rewrite !removelast_last. rewrite !length_app in Hlev. cbn in Hlev. lia.
  - unfold s_index, series_droplevel_last. cbn [s_items].
    rewrite <-list_fmap_compose.
    apply (NoDup_fmap_2_strong (λ it, removelast it.1)).
    + intros [k1 v1] [k2 v2] H1 H2 Heq. cbn in Heq.
      apply (NoDup_fst_inj (s_items (stack df))); [done..|]. cbn.
      apply elem_of_stack in H1 as (k1' & cs1 & c1 & z1 & _ & Hz1 & -> & ->).
      apply elem_of_stack in H2 as (k2' & cs2 & c2 & z2 & _ & Hz2 & -> & ->).
      rewrite !removelast_last in Heq. subst k2'.
      apply elem_of_zip_l in Hz1, Hz2. rewrite Hc in Hz1, Hz2.
      apply list_elem_of_singleton in Hz1, Hz2. by subst.
    + eapply NoDup_fmap_1. exact Hidx.
  - apply Forall_forall. intros [k v] ([k' v'] & [= -> ->] & Hin)%list_elem_of_fmap.
    by apply (Hval _ Hin).
  - apply Forall_forall.
    intros k ([? v] & -> & ([k' v'] & [= -> ->] & Hin)%list_elem_of_fmap)
      %list_elem_of_fmap.
    apply elem_of_stack in Hin as (k & cs & c' & z & Hr & _ & -> & ->).
    cbn. rewrite removelast_last. apply HP.
    unfold index. apply list_elem_of_fmap. by exists (k, cs).
Qed.

(** [s.groupby(keys).sum()] *)

Lemma good_series_groupby_sum keys s s' :
  good_series P s → series_groupby_sum keys s = Ok s' → good_series P s'.
Proof.
  intros [Hlev Hidx Hval HP]. unfold series_groupby_sum.
  destruct (mapM _ keys) as [ps|] eqn:Hps; [|done].
  cbn [mbind result_bind mret result_ret]. intros [= <-].
  apply mapM_level_pos_lt in Hps as [Hlen Hlt].
  rewrite Forall_forall in Hlev. rewrite Forall_forall in HP.
  set (keyed := (λ it : key * cell, (project ps it.1, it.2)) <$> s_items s).
  assert (∀ k, k ∈ sort_keys keyed.*1 →
            ∃ it, it ∈ s_items s ∧ k = project ps it.1) as Hk.
  { intros k Hk. rewrite elem_of_sort_keys in Hk. unfold keyed in Hk.
    rewrite <-list_fmap_compose in Hk.
    apply list_elem_of_fmap in Hk as (it & -> & Hit). eauto. }
  split.
  - apply Forall_forall. intros [k v] (k' & [= -> ->] & Hin)%list_elem_of_fmap.
    destruct (Hk _ Hin) as (it & Hit & ->). cbn.
    rewrite length_fmap, length_project; [done|].
    by rewrite (Hlev _ Hit).
  - unfold s_index. cbn [s_items]. rewrite fst_fmap_pair. apply NoDup_sort_keys.
  - apply Forall_forall. intros [k v] (k' & [= -> ->] & Hin)%list_elem_of_fmap.
    by eexists.
  - unfold s_index. cbn [s_items]. rewrite fst_fmap_pair.
    apply Forall_forall. intros k Hin. destruct (Hk _ Hin) as (it & Hit & ->).
    apply Forall_project, HP. unfold s_index. apply list_elem_of_fmap. by exists it.
Qed.

Lemma series_groupby_sum_succeeds keys s :
  Forall (λ n, Some n ∈ s_names s) keys → ∃ s', series_groupby_sum keys s = Ok s'.
Proof.
  intros [ps Hps]%mapM_level_pos_Ok. unfold series_groupby_sum. rewrite Hps.
  by eexists.
Qed.

(** [s.unstack(level, fill_value)] *)

Lemma good_unstack level fill s df :
  good_series P s → (2 ≤ length (s_names s))%nat →
  unstack level fill s = Ok df → good_table P df ∧ no_missing df.
Proof.
  intros [Hlev Hidx Hval HP] Hlen Hun.
  pose proof (unstack_Ok _ _ _ _ Hun) as (p & Hp & Hn & Hi).
  pose proof (level_pos_lt _ _ _ Hp) as Hlt.
  revert Hun. unfold unstack. rewrite Hp. cbn [mbind result_bind].
  destruct (decide _); [|done]. cbn [mret result_ret]. intros [= Hdf].
  rewrite Forall_forall in Hlev. rewrite Forall_forall in HP.
  rewrite Forall_forall in Hval.
  assert (∀ k, k ∈ index df → ∃ it, it ∈ s_items s ∧ k = delete p it.1) as Hk.
  { intros k. rewrite Hi, elem_of_sort_keys. unfold s_index.
    rewrite <-list_fmap_compose.
    intros (it & -> & Hit)%list_elem_of_fmap. eauto. }
  assert (∀ r, r ∈ rows df → r.1 ∈ index df) as Hri.
  { intros r Hr. unfold index. apply list_elem_of_fmap. by exists r. }
  split; [split; [split|]|].
  - apply Forall_forall. intros r Hr.
    destruct (Hk _ (Hri _ Hr)) as (it & Hit & ->).
    rewrite Hn, !length_delete; [by rewrite (Hlev _ Hit)|..].
    + by apply lookup_lt_is_Some_2.
    + apply lookup_lt_is_Some_2. by rewrite (Hlev _ Hit).
  - apply Forall_forall. intros r Hr. rewrite <-Hdf in Hr |- *.
    cbn [rows columns] in *. apply list_elem_of_fmap in Hr as (k & -> & _).
    cbn. by rewrite length_fmap.
  - rewrite Hi. apply NoDup_sort_keys.
  - rewrite <-Hdf. cbn [columns]. apply NoDup_sort_labels.
  - rewrite Hn. intros Hnil.
    assert (length (delete p (s_names s)) = 0%nat) as H0 by (by rewrite Hnil).
    rewrite length_delete in H0 by (by apply lookup_lt_is_Some_2). lia.
  - apply Forall_forall. intros k Hin. destruct (Hk _ Hin) as (it & Hit & ->).
    apply Forall_delete, HP. unfold s_index. apply list_elem_of_fmap. by exists it.
  - unfold no_missing. rewrite <-Hdf. cbn [rows]. apply Forall_forall.
    intros r (k & -> & _)%list_elem_of_fmap. cbn. apply Forall_forall.
    intros v (c & -> & _)%list_elem_of_fmap.
    destruct (dict_get _ _) as [v|] eqn:Hg; cbn; [|by eexists].
    apply dict_get_elem_of in Hg. by apply (Hval _ Hg).
Qed.

Lemma unstack_succeeds level fill s :
  Some level ∈ s_names s → NoDup (s_index s) →
  ∃ df, unstack level fill s = Ok df.
Proof.
  intros [p Hp]%level_pos_Ok Hnd. unfold unstack. rewrite Hp.
  cbn [mbind result_bind]. rewrite decide_True by done. by eexists.
Qed.

(** [df.groupby(keys).sum()] over index levels *)

Lemma good_groupby_levels_sum keys df df' :
  good_table P df → keys ≠ [] → groupby_levels_sum keys df = Ok df' →
  good_table P df' ∧ no_missing df'.
Proof.
  intros [[Hlev Hcells Hidx Hcols Hnamed] HPi] Hkeys.
  unfold groupby_levels_sum.
  destruct (mapM _ keys) as [ps|] eqn:Hps; [|done].
  cbn [mbind result_bind mret result_ret]. intros [= <-].
  apply mapM_level_pos_lt in Hps as [Hlen Hlt].
  rewrite Forall_forall in Hlev. rewrite Forall_forall in HPi. split.
  - apply good_groupby_agg; [done..| |].
    + intros X. unfold agg_sum. by rewrite length_fmap, length_seq.
    + apply Forall_forall. intros [k cs] ([k0 cs0] & [= -> ->] & Hr)%list_elem_of_fmap.
      cbn. split.
      * rewrite length_project; [done|]. specialize (Hlev _ Hr). cbn in Hlev.
        by rewrite Hlev.
      * apply Forall_project, HPi. unfold index. apply list_elem_of_fmap.
        by exists (k0, cs0).
  - unfold no_missing. apply Forall_forall.
    intros [k cs] [_ ->]%elem_of_rows_groupby_agg. cbn. unfold agg_sum.
    apply Forall_forall. intros v (j & -> & _)%list_elem_of_fmap. by eexists.
Qed.

Lemma groupby_levels_sum_succeeds keys df :
  Forall (λ n, Some n ∈ index_names df) keys →
  ∃ df', groupby_levels_sum keys df = Ok df'.
Proof.
  intros [ps Hps]%mapM_level_pos_Ok. unfold groupby_levels_sum. rewrite Hps.
  by eexists.
Qed.

(** [df.index.set_names(name, -1, True)] *)

Lemma good_set_last_name name df :
  good_table P df → good_table P (set_last_name name df).
Proof.
  intros [[Hlev Hcells Hidx Hcols Hnamed] HPi].
  assert (length (index_names (set_last_name name df))
          = length (index_names df)) as Hlen.
  { unfold set_last_name. cbn [index_names].
    destruct (index_names df) as [|n ns] eqn:E; [done|]. cbv beta iota.
    destruct (exists_last (l:=n :: ns)) as (ns' & x & ->); [done|].
    by rewrite removelast_last, !length_app. }
  split; [split|]; try done.
  - by rewrite Hlen.
  - intros Hnil. rewrite Hnil in Hlen. by destruct (index_names df).
Qed.

End good_pivots.

(** * Well-formedness of the seven tables *)

Section pipeline.
Context (P : label → Prop).
Implicit Types (df : DataFrame) (s : Series) (l : label).

Lemma good_loc_groupby {R} agg names cols labels
    (keyf : R → key * list cell) (rs : list R) df :
  names ≠ [] → NoDup cols → NoDup labels →
  (∀ X, length (agg X) = length cols) →
  Forall (λ r, length (keyf r).1 = length names
               ∧ ∀ c, c ∈ labels → head (keyf r).1 = Some c →
                      Forall P (keyf r).1) rs →
  loc labels (groupby_agg agg names cols (keyf <$> rs)) = Ok df →
  good_table P df.
Proof.
  intros Hn Hnd Hl Hagg Hrs Hloc. rewrite Forall_forall in Hrs.
  eapply (good_loc P (λ _, True)); [|done|exact Hloc|].
  - apply good_groupby_agg; [done..|].
    apply Forall_forall. intros r (r0 & -> & Hr0)%list_elem_of_fmap.
    split; [by apply Hrs|by apply Forall_true].
  - intros k c Hk Hc Hh.
    rewrite index_groupby_agg, elem_of_sort_keys, <-list_fmap_compose in Hk.
    apply list_elem_of_fmap in Hk as (r0 & -> & Hr0).
    by apply (Hrs _ Hr0) with c.
Qed.

Lemma loc_groupby_succeeds {R} agg names cols labels
    (keyf : R → key * list cell) (rs : list R) :
  Forall (λ c, ∃ r, r ∈ rs ∧ head (keyf r).1 = Some c) labels →
  ∃ df, loc labels (groupby_agg agg names cols (keyf <$> rs)) = Ok df.
Proof.
  intros H. unfold loc. rewrite decide_True; [by eexists|].
  eapply Forall_impl; [exact H|]. intros c (r & Hr & Hh). cbn beta.
  rewrite level0_heads, index_groupby_agg, heads_sort_keys, elem_of_heads.
  exists (keyf r).1. split; [|done].
  rewrite <-list_fmap_compose. apply list_elem_of_fmap. by exists r.
Qed.

Lemma length_agg_sum n X : length (agg_sum n X) = n.
Proof. unfold agg_sum. by rewrite length_fmap, length_seq. Qed.

Lemma length_agg_first n X : length (agg_first n X) = n.
Proof. unfold agg_first. by rewrite length_fmap, length_seq. Qed.

Lemma emissions_year_loc_good emissions df :
  NoDup (e_materials emissions) → labelled_emissions P emissions →
  loc (LStr <$> countries)
    (groupby_agg (agg_sum (length (LStr <$> e_materials emissions)))
       ["Country"; "Scenario"; "Year"] (LStr <$> e_materials emissions)
       ((λ r, ([LStr (e_Country r); LStr (e_Scenario r); LInt (e_Year r)],
               e_values r)) <$> read_emissions emissions)) = Ok df →
  good_table P df.
Proof.
  intros Hnd (HPm & HPr).
  apply good_loc_groupby; [done| |apply countries_sorted|apply length_agg_sum|].
  { by apply (NoDup_fmap_2_strong LStr); [congruence|]. }
  unfold read_emissions. apply Forall_fmap, Forall_forall. intros r Hr.
  cbn [compose fst snd e_Country e_Scenario e_Year e_tech].
  split; [done|]. intros c (c' & -> & Hc')%list_elem_of_fmap [= Heq].
  rewrite Forall_forall in HPr. rewrite <-Heq in Hc'.
  pose proof (HPr r Hr Hc') as HP. rewrite !Forall_cons in HP.
  rewrite !Forall_cons. tauto.
Qed.

Lemma emissions_first_good emissions df :
  NoDup (e_materials emissions) → labelled_emissions P emissions →
  emissions_first emissions = Ok df → good_table P df.
Proof.
  intros Hnd (HPm & HPr). unfold emissions_first.
  apply good_loc_groupby;
    [done| |apply countries_sorted|apply length_agg_first|].
  { by apply (NoDup_fmap_2_strong LStr); [congruence|]. }
  unfold read_emissions. apply Forall_fmap, Forall_forall. intros r Hr.
  cbn [compose fst snd e_Country e_Scenario e_Year e_tech].
  split; [done|]. intros c (c' & -> & Hc')%list_elem_of_fmap [= Heq].
  rewrite Forall_forall in HPr. rewrite <-Heq in Hc'. by apply HPr.
Qed.

Lemma emissions_by_year_good emissions df :
  NoDup (e_materials emissions) → labelled_emissions P emissions →
  emissions_by_year emissions = Ok df →
  good_table P df ∧ no_missing df.
Proof.
  intros Hnd Hok. unfold emissions_by_year.
  destruct (loc _ _) as [df1|] eqn:Hloc; [|done]. cbn [mbind result_bind].
  destruct (unstack _ _ _) as [df2|] eqn:Hun; [|done]. intros [= <-].
  pose proof (loc_Ok _ _ _ Hloc) as (_ & Hnames & Hcols & _).
  apply emissions_year_loc_good in Hloc; [|done..].
  apply good_unstack with (P:=P) in Hun as [Hg Hm].
  - split; [by apply good_set_last_name|done].
  - apply good_stack; [done|]. rewrite Hcols. apply Hok.
  - cbn [stack s_names]. rewrite Hnames. cbn. lia.
Qed.

Lemma emissions_by_mat_and_tech_good emissions df_em df_et :
  NoDup (e_materials emissions) → labelled_emissions P emissions →
  emissions_by_mat_and_tech emissions = Ok (df_em, df_et) →
  (good_table P df_em ∧ no_missing df_em)
  ∧ (good_table P df_et ∧ no_missing df_et).
Proof.
  intros Hnd Hok. unfold emissions_by_mat_and_tech.
  destruct (emissions_first emissions) as [df1|] eqn:Hfirst; [|done].
  cbn [mbind result_bind].
  destruct (groupby_levels_sum ["Country"; "Scenario"] df1) as [dfm|] eqn:Hm;
    [|done].
  cbn [mbind result_bind].
  destruct (groupby_levels_sum ["Country"; "Scenario"; "Tech"] df1)
    as [df2|] eqn:Ht; [|done].
  cbn [mbind result_bind].
  destruct (unstack _ _ _) as [df3|] eqn:Hun; [|done]. intros [= <- <-].
  pose proof (emissions_first_Ok _ _ Hfirst) as (Hnames & Hcols & _).
  apply emissions_first_good in Hfirst; [|done..].
  pose proof (groupby_levels_sum_Ok _ _ _ _ _ Ht Hnames) as (Hn2 & Hc2 & _).
  apply good_groupby_levels_sum with (P:=P) in Hm; [|done..].
  apply good_groupby_levels_sum with (P:=P) in Ht as [Hg2 _]; [|done..].
  split; [done|].
  apply good_unstack with (P:=P) in Hun as [Hg Hmis].
  - split; [by apply good_set_last_name|done].
  - apply good_stack; [done|]. rewrite Hc2, Hcols. apply Hok.
  - cbn [stack s_names]. rewrite Hn2. cbn. lia.
Qed.

Lemma employment_series_good jobs sj :
  labelled_jobs P jobs → employment_series jobs = Ok sj → good_series P sj.
Proof.
  intros HPr. unfold employment_series. fold (kept_jobs jobs).
  destruct (loc _ _) as [df1|] eqn:Hloc; [|done]. intros [= <-].
  pose proof (loc_Ok _ _ _ Hloc) as (_ & _ & Hcols & _).
  apply good_droplevel_stack with (c:=LStr (j_value_column jobs)); [|done].
  revert Hloc. apply good_loc_groupby;
    [done|apply NoDup_singleton|apply countries_alt_sorted
    |apply length_agg_first|].
  apply Forall_forall. intros r Hr. cbn [fst snd].
  split; [done|]. intros c (c' & -> & Hc')%list_elem_of_fmap [= Heq].
  unfold labelled_jobs in HPr.
  rewrite Forall_forall in HPr. rewrite <-Heq in Hc'. by apply HPr.
Qed.

Lemma employment_good jobs df_jy df_jyf df_jt df_ji :
  labelled_jobs P jobs → employment jobs = Ok (df_jy, df_jyf, df_jt, df_ji) →
  Forall (λ df, good_table P df ∧ no_missing df) [df_jy; df_jyf; df_jt; df_ji].
Proof.
  intros Hok. unfold employment.
  destruct (employment_series jobs) as [sj|] eqn:Hsj; [|done].
  cbn [mbind result_bind].
  pose proof (employment_series_Ok _ _ Hsj) as (Hnames & _).
  apply employment_series_good in Hsj; [|done].
  destruct (unstack "Year" 0 sj) as [d1|] eqn:H1; [|done].
  cbn [mbind result_bind].
  destruct (series_groupby_sum ["Country"; "Scenario"; "Year"; "Tech"] sj)
    as [s2|] eqn:Hs2; [|done].
  cbn [mbind result_bind].
  destruct (unstack "Year" 0 s2) as [d2|] eqn:H2; [|done].
  destruct (series_groupby_sum ["Country"; "Scenario"; "Indicator"; "Tech"] sj)
    as [s3|] eqn:Hs3; [|done].
  cbn [mbind result_bind].
  destruct (unstack "Tech" 0 s3) as [d3|] eqn:H3; [|done].
  destruct (series_groupby_sum ["Country"; "Scenario"; "Indicator"] sj)
    as [s4|] eqn:Hs4; [|done].
  cbn [mbind result_bind].
  destruct (unstack "Indicator" 0 s4) as [d4|] eqn:H4; [|done].
  intros [= <- <- <- <-].
  pose proof (series_groupby_sum_Ok _ _ _ _ _ Hs2 Hnames) as [Hn2 _].
  pose proof (series_groupby_sum_Ok _ _ _ _ _ Hs3 Hnames) as [Hn3 _].
  pose proof (series_groupby_sum_Ok _ _ _ _ _ Hs4 Hnames) as [Hn4 _].
  apply good_series_groupby_sum with (P:=P) in Hs2; [|done].
  apply good_series_groupby_sum with (P:=P) in Hs3; [|done].
  apply good_series_groupby_sum with (P:=P) in Hs4; [|done].
  apply good_unstack with (P:=P) in H1; [|done|rewrite Hnames; cbn; lia].
  apply good_unstack with (P:=P) in H2; [|done|rewrite Hn2; cbn; lia].
  apply good_unstack with (P:=P) in H3; [|done|rewrite Hn3; cbn; lia].
  apply good_unstack with (P:=P) in H4; [|done|rewrite Hn4; cbn; lia].
  repeat (apply Forall_cons; split; [done|]). apply Forall_nil_2.
Qed.

Lemma aggregate_tables_good emissions jobs res :
  NoDup (e_materials emissions) →
  labelled_emissions P emissions → labelled_jobs P jobs →
  aggregate_tables emissions jobs = Ok res →
  Forall (λ nd, good_table P nd.2 ∧ no_missing nd.2) res.
Proof.
  intros Hnd Hem Hjobs. unfold aggregate_tables.
  destruct (emissions_by_year emissions) as [df_ey|] eqn:Hey; [|done].
  destruct (emissions_by_mat_and_tech emissions) as [[df_em df_et]|] eqn:Het;
    [|done].
  destruct (employment jobs) as [[[[df_jy df_jyf] df_jt] df_ji]|] eqn:Hj; [|done].
  cbn [mbind result_bind mret result_ret]. intros [= <-].
  apply emissions_by_year_good in Hey; [|done..].
  apply emissions_by_mat_and_tech_good in Het as [Hgm Hgt]; [|done..].
  apply employment_good in Hj; [|done].
  rewrite !Forall_cons in Hj. destruct Hj as (? & ? & ? & ? & _).
  repeat (apply Forall_cons; split; [done|]). apply Forall_nil_2.
Qed.

End pipeline.

(** * When [load_dfs] and [main] return *)

Ltac by_computation := apply (bool_decide_unpack _); vm_compute; exact I.

Section returns.
Implicit Types (df : DataFrame) (s : Series) (l : label).

Lemma labelled_emissions_any emissions : labelled_emissions (λ _, True) emissions.
Proof.
  split; [by apply Forall_true|]. apply Forall_forall. intros r _ _.
  by apply Forall_true.
Qed.

Lemma labelled_jobs_any jobs : labelled_jobs (λ _, True) jobs.
Proof. apply Forall_forall. intros r _ _. by apply Forall_true. Qed.

Lemma read_emissions_countries emissions c :
  c ∈ e_Country <$> e_rows emissions →
  ∃ r, r ∈ read_emissions emissions ∧ e_Country r = c.
Proof.
  intros (r & -> & Hr)%list_elem_of_fmap. eexists (mkE _ _ _ _ _).
  split; [apply list_elem_of_fmap; by exists r|done].
Qed.

Lemma emissions_by_year_succeeds emissions :
  NoDup (e_materials emissions) →
  Forall (λ c, c ∈ e_Country <$> e_rows emissions) countries →
  ∃ df, emissions_by_year emissions = Ok df.
Proof.
  intros Hnd Hpresent. unfold emissions_by_year. cbv zeta.
  match goal with
  | |- context [loc ?l (groupby_agg ?a ?n ?c (?f <$> ?rs))] =>
      destruct (loc_groupby_succeeds a n c l f rs) as [df1 Hloc]
  end.
  { apply Forall_fmap. eapply Forall_impl; [exact Hpresent|].
    intros c (r & Hr & <-)%read_emissions_countries. by exists r. }
  rewrite Hloc. cbn [mbind result_bind].
  pose proof (loc_Ok _ _ _ Hloc) as (_ & Hnames & Hcols & _).
  apply (emissions_year_loc_good (λ _, True)) in Hloc;
    [|done|apply labelled_emissions_any].
  apply good_stack in Hloc as [_ Hidx _ _]; [|by apply Forall_true].
  destruct (unstack_succeeds "Year" 0 (stack df1)) as [df2 ->]; [|done|by eexists].
  cbn [stack s_names]. rewrite Hnames. by_computation.
Qed.

Lemma emissions_by_mat_and_tech_succeeds emissions :
  NoDup (e_materials emissions) →
  Forall (λ c, c ∈ e_Country <$> e_rows emissions) countries →
  ∃ dfs, emissions_by_mat_and_tech emissions = Ok dfs.
Proof.
  intros Hnd Hpresent. unfold emissions_by_mat_and_tech.
  assert (∃ df1, emissions_first emissions = Ok df1) as [df1 Hfirst].
  { unfold emissions_first. cbv zeta. apply loc_groupby_succeeds.
    apply Forall_fmap. eapply Forall_impl; [exact Hpresent|].
    intros c (r & Hr & <-)%read_emissions_countries. by exists r. }
  rewrite Hfirst. cbn [mbind result_bind].
  pose proof (emissions_first_Ok _ _ Hfirst) as (Hnames & _).
  apply (emissions_first_good (λ _, True)) in Hfirst;
    [|done|apply labelled_emissions_any].
  destruct (groupby_levels_sum_succeeds ["Country"; "Scenario"] df1)
    as [dfm Hm]; [rewrite Hnames; by_computation|].
  destruct (groupby_levels_sum_succeeds ["Country"; "Scenario"; "Tech"] df1)
    as [df2 Ht]; [rewrite Hnames; by_computation|].
  rewrite Hm, Ht. cbn [mbind result_bind].
  pose proof (groupby_levels_sum_Ok _ _ _ _ _ Ht Hnames) as (Hn2 & _).
  apply (good_groupby_levels_sum (λ _, True)) in Ht as [Hg2 _]; [|done..].
  apply good_stack in Hg2 as [_ Hidx _ _]; [|by apply Forall_true].
  destruct (unstack_succeeds "Tech" 0 (stack df2)) as [df3 ->]; [|done|by eexists].
  cbn [stack s_names]. rewrite Hn2. by_computation.
Qed.

Lemma employment_succeeds jobs :
  Forall (λ c, c ∈ j_country <$> kept_jobs jobs) countries_alt →
  ∃ dfs, employment jobs = Ok dfs.
Proof.
  intros Hpresent. unfold employment.
  assert (∃ sj, employment_series jobs = Ok sj) as [sj Hsj].
  { unfold employment_series. cbv zeta. fold (kept_jobs jobs).
    match goal with
    | |- context [loc ?l (groupby_agg ?a ?n ?c (?f <$> ?rs))] =>
        destruct (loc_groupby_succeeds a n c l f rs) as [df1 Hloc]
    end.
    { apply Forall_fmap. eapply Forall_impl; [exact Hpresent|].
      intros c (r & -> & Hr)%list_elem_of_fmap. by exists r. }
    rewrite Hloc. by eexists. }
  rewrite Hsj. cbn [mbind result_bind].
  pose proof (employment_series_Ok _ _ Hsj) as (Hnames & _).
  apply (employment_series_good (λ _, True)) in Hsj; [|apply labelled_jobs_any].
  destruct (unstack_succeeds "Year" 0 sj) as [d1 ->];
    [rewrite Hnames; by_computation|apply Hsj|].
  cbn [mbind result_bind].
  destruct (series_groupby_sum_succeeds ["Country"; "Scenario"; "Year"; "Tech"] sj)
    as [s2 Hs2]; [rewrite Hnames; by_computation|].
  destruct (series_groupby_sum_succeeds
              ["Country"; "Scenario"; "Indicator"; "Tech"] sj)
    as [s3 Hs3]; [rewrite Hnames; by_computation|].
  destruct (series_groupby_sum_succeeds ["Country"; "Scenario"; "Indicator"] sj)
    as [s4 Hs4]; [rewrite Hnames; by_computation|].
  pose proof (series_groupby_sum_Ok _ _ _ _ _ Hs2 Hnames) as [Hn2 _].
  pose proof (series_groupby_sum_Ok _ _ _ _ _ Hs3 Hnames) as [Hn3 _].
  pose proof (series_groupby_sum_Ok _ _ _ _ _ Hs4 Hnames) as [Hn4 _].
  rewrite Hs2, Hs3, Hs4. cbn [mbind result_bind].
  apply (good_series_groupby_sum (λ _, True)) in Hs2; [|done].
  apply (good_series_groupby_sum (λ _, True)) in Hs3; [|done].
  apply (good_series_groupby_sum (λ _, True)) in Hs4; [|done].
  destruct (unstack_succeeds "Year" 0 s2) as [d2 ->];
    [rewrite Hn2; by_computation|apply Hs2|].
  destruct (unstack_succeeds "Tech" 0 s3) as [d3 ->];
    [rewrite Hn3; by_computation|apply Hs3|].
  destruct (unstack_succeeds "Indicator" 0 s4) as [d4 ->];
    [rewrite Hn4; by_computation|apply Hs4|].
  by eexists.
Qed.

Lemma load_dfs_succeeds emissions jobs :
  NoDup (e_materials emissions) → countries_present emissions jobs →
  ∃ res, load_dfs emissions jobs = Ok res.
Proof.
  intros Hnd [He Hj]. unfold load_dfs, aggregate_tables.
  destruct (emissions_by_year_succeeds emissions) as [df_ey ->]; [done..|].
  destruct (emissions_by_mat_and_tech_succeeds emissions)
    as [[df_em df_et] ->]; [done..|].
  destruct (employment_succeeds jobs) as [[[[df_jy df_jyf] df_jt] df_ji] ->];
    [done|].
  by eexists.
Qed.

(** The renaming keeps index tuples apart when no label is already a full
    country name. *)

Lemma NoDup_snd_inj {A B} (l : list (A * B)) a1 a2 b :
  NoDup l.*2 → (a1, b) ∈ l → (a2, b) ∈ l → a1 = a2.
Proof.
  intros Hnd [i1 Hi1]%list_elem_of_lookup [i2 Hi2]%list_elem_of_lookup.
  pose proof (proj1 (NoDup_alt _) Hnd) as Halt.
  assert (i1 = i2) as ->; [|congruence].
  apply (Halt i1 i2 b); by rewrite list_lookup_fmap, ?Hi1, ?Hi2.
Qed.

Lemma rename_plain_inj l1 l2 :
  plain l1 → plain l2 →
  rename_label rename_dict l1 = rename_label rename_dict l2 → l1 = l2.
Proof.
  assert (∀ c x, dict_get rename_dict c = Some x → x ∈ full_names) as Hfull.
  { intros c x Hg%dict_get_elem_of. unfold full_names.
    apply list_elem_of_fmap. by exists (c, x). }
  destruct l1 as [s1|z1], l2 as [s2|z2]; cbn [plain rename_label]; intros H1 H2.
  - destruct (dict_get rename_dict s1) as [x1|] eqn:E1,
             (dict_get rename_dict s2) as [x2|] eqn:E2; intros [= Heq].
    + subst x2. f_equal.
      apply (NoDup_snd_inj rename_dict s1 s2 x1);
        [by_computation|by apply dict_get_elem_of..].
    + subst s2. by destruct (H2 (Hfull _ _ E1)).
    + subst s1. by destruct (H1 (Hfull _ _ E2)).
    + by subst.
  - by destruct (dict_get rename_dict s1).
  - by destruct (dict_get rename_dict s2).
  - done.
Qed.

Lemma rename_key_plain_inj (k1 k2 : key) :
  Forall plain k1 → Forall plain k2 →
  rename_label rename_dict <$> k1 = rename_label rename_dict <$> k2 → k1 = k2.
Proof.
  intros H1. revert k2. induction H1 as [|a k1 Ha _ IH]; intros [|b k2] H2 Heq;
    try done.
  apply Forall_cons in H2 as [Hb H2]. rewrite !fmap_cons in Heq.
  injection Heq as Hab Heq. f_equal; [by apply rename_plain_inj|by apply IH].
Qed.

Lemma rename_index_wf df :
  good_table plain df → wf_table (rename_index rename_dict df).
Proof.
  intros [[Hlev Hcells Hidx Hcols Hnamed] HP]. split; try done.
  - apply Forall_forall. intros r ([k cs] & -> & Hr)%list_elem_of_fmap.
    rewrite Forall_forall in Hlev. cbn. rewrite length_fmap. apply (Hlev _ Hr).
  - unfold rectangular in *. apply Forall_forall.
    intros r ([k cs] & -> & Hr)%list_elem_of_fmap.
    rewrite Forall_forall in Hcells. apply (Hcells _ Hr).
  - rewrite rename_index_index. apply NoDup_fmap_2_strong; [|done].
    rewrite Forall_forall in HP. intros k1 k2 H1 H2.
    apply rename_key_plain_inj; by apply HP.
Qed.

Lemma rename_index_no_missing df :
  no_missing df → no_missing (rename_index rename_dict df).
Proof.
  unfold no_missing. rewrite !Forall_forall.
  intros H r ([k cs] & -> & Hr)%list_elem_of_fmap. apply (H _ Hr).
Qed.

Lemma plain_inputs_labelled emissions jobs :
  plain_inputs emissions jobs →
  labelled_emissions plain emissions ∧ labelled_jobs plain jobs.
Proof.
  assert (∀ c, c ∈ countries → c ∉ full_names) as Hc.
  { apply Forall_forall. by_computation. }
  intros (Hm & He & Hj). split; [split|].
  - apply Forall_fmap. exact Hm.
  - eapply Forall_impl; [exact He|]. intros r Hr Hin. destruct (Hr Hin).
    repeat (apply Forall_cons; split; [cbn [plain]; by auto|]). apply Forall_nil_2.
  - eapply Forall_impl; [exact Hj|]. intros r Hr Hin. destruct (Hr Hin) as (?&?&?).
    assert (j_country r ∈ countries) as Hin'.
    { unfold countries_alt in Hin. by apply list_elem_of_filter in Hin as [_ ?]. }
    repeat (apply Forall_cons; split; [cbn [plain]; by auto|]). apply Forall_nil_2.
Qed.

Lemma load_dfs_wf emissions jobs res :
  NoDup (e_materials emissions) → plain_inputs emissions jobs →
  load_dfs emissions jobs = Ok res →
  Forall (λ nd, wf_table nd.2 ∧ no_missing nd.2) res.
Proof.
  intros Hnd [He Hj]%plain_inputs_labelled. unfold load_dfs.
  destruct (aggregate_tables emissions jobs) as [res0|] eqn:Hagg; [|done].
  cbn [mbind result_bind mret result_ret]. intros [= <-].
  apply (aggregate_tables_good plain) in Hagg; [|done..].
  apply Forall_fmap. eapply Forall_impl; [exact Hagg|].
  intros [n df] [Hg Hm]. cbn.
  split; [by apply rename_index_wf|by apply rename_index_no_missing].
Qed.

Lemma template_variables_succeeds dfs flag :
  Forall (λ nd, wf_table nd.2) dfs → ∃ vars, template_variables dfs flag = Ok vars.
Proof.
  intros Hwf. unfold template_variables.
  destruct (mapM_result_Ok
              (λ nd : string * DataFrame,
                 v ← df_to_dict nd.2 (negb flag); mret (nd.1, v))
              (λ _ _, True) dfs) as (d & -> & _); [|by eexists].
  eapply Forall_impl; [exact Hwf|]. intros [n df] Hdf. cbn [fst snd] in *.
  destruct (index_names df) as [|x ns] eqn:Hn; [by destruct (wf_named _ Hdf)|].
  destruct (df_to_dict_spec (length ns) df (negb flag) Hdf) as (v & -> & _).
  { by rewrite Hn. }
  by eexists.
Qed.

End returns.

(** X14.  Every table that [load_dfs] returns is well formed and has no
    missing cell: its index tuples are pairwise different and have one
    label per level, its column labels are pairwise different, every row
    has one cell per column, and every cell holds a number.  This holds
    when the material headers are distinct and no material, scenario,
    technology or indicator is called like one of the full country names
    that the renaming writes. *)
Theorem load_dfs_tables_are_well_formed emissions jobs res :
  NoDup (e_materials emissions) → plain_inputs emissions jobs →
  load_dfs emissions jobs = Ok res →
  Forall (λ nd, wf_table nd.2 ∧ no_missing nd.2) res.
Proof. apply load_dfs_wf. Qed.

Lemma load_dfs_tables_are_well_formed_witness :
  NoDup (e_materials ex_emissions) ∧ plain_inputs ex_emissions ex_jobs
  ∧ ∃ res, load_dfs ex_emissions ex_jobs = Ok res
           ∧ Forall (λ nd, wf_table nd.2 ∧ no_missing nd.2) res.
Proof.
  assert (NoDup (e_materials ex_emissions)) as Hnd by by_computation.
  assert (plain_inputs ex_emissions ex_jobs) as Hplain.
  { unfold plain_inputs. by_computation. }
  split; [exact Hnd|]. split; [exact Hplain|].
  eexists. split; [vm_compute; reflexivity|].
  apply (load_dfs_tables_are_well_formed ex_emissions ex_jobs _ Hnd Hplain).
  vm_compute. reflexivity.
Defined.

(** X15.  [load_dfs] returns its seven tables, without raising, whenever
    the material headers are distinct, every configured country has a row
    in the emissions file, and each of [KE], [RW], [UG], [ZM] has a row of
    the jobs file that passes the two filters. *)
Theorem load_dfs_returns emissions jobs :
  NoDup (e_materials emissions) → countries_present emissions jobs →
  ∃ res, load_dfs emissions jobs = Ok res ∧ res.*1 = table_names.
Proof.
  intros Hnd Hp. destruct (load_dfs_succeeds _ _ Hnd Hp) as [res Hres].
  exists res. split; [done|].
  pose proof (load_dfs_levels _ _ _ Hres) as Hl.
  apply (f_equal (fmap fst)) in Hl. rewrite <-list_fmap_compose in Hl.
  exact Hl.
Qed.

Lemma load_dfs_returns_witness :
  NoDup (e_materials ex_emissions) ∧ countries_present ex_emissions ex_jobs
  ∧ ∃ res, load_dfs ex_emissions ex_jobs = Ok res ∧ res.*1 = table_names.
Proof.
  assert (NoDup (e_materials ex_emissions)) as Hnd by by_computation.
  assert (countries_present ex_emissions ex_jobs) as Hp.
  { unfold countries_present. by_computation. }
  split; [exact Hnd|]. split; [exact Hp|].
  exact (load_dfs_returns ex_emissions ex_jobs Hnd Hp).
Defined.

(** X16.  [main] hands its variables to the template, without raising,
    for either setting of [preserve_zeros], whenever the material headers
    are distinct, every configured country has its rows in both files, and
    no material, scenario, technology or indicator is called like a full
    country name. *)
Theorem main_returns emissions jobs preserve_zeros :
  NoDup (e_materials emissions) → countries_present emissions jobs →
  plain_inputs emissions jobs →
  ∃ vars, main emissions jobs preserve_zeros = Ok vars.
Proof.
  intros Hnd Hp Hplain. unfold main.
  destruct (load_dfs_succeeds _ _ Hnd Hp) as [res Hres]. rewrite Hres.
  cbn [mbind result_bind]. apply template_variables_succeeds.
  eapply Forall_impl; [exact (load_dfs_wf _ _ _ Hnd Hplain Hres)|].
  by intros nd [? _].
Qed.

Lemma main_returns_witness :
  NoDup (e_materials ex_emissions) ∧ countries_present ex_emissions ex_jobs
  ∧ plain_inputs ex_emissions ex_jobs
  ∧ ∃ vars, main ex_emissions ex_jobs true = Ok vars.
Proof.
  assert (NoDup (e_materials ex_emissions)) as Hnd by by_computation.
  assert (countries_present ex_emissions ex_jobs) as Hp.
  { unfold countries_present. by_computation. }
  assert (plain_inputs ex_emissions ex_jobs) as Hplain.
  { unfold plain_inputs. by_computation. }
  split; [exact Hnd|]. split; [exact Hp|]. split; [exact Hplain|].
  exact (main_returns ex_emissions ex_jobs true Hnd Hp Hplain).
Defined.

(** * The numbers of [emissions_year] *)

Section yearly_totals.

Lemma int64_add_r a b : int64 (a + int64 b) = int64 (a + b).
Proof.
  unfold int64. f_equal.
  replace (a + ((b + 2 ^ 63) `mod` 2 ^ 64 - 2 ^ 63) + 2 ^ 63)
    with (a + (b + 2 ^ 63) `mod` 2 ^ 64) by lia.
  rewrite Z.add_mod_idemp_r by lia. f_equal. lia.
Qed.

(** Adding in [int64] gives the exact sum, wrapped once. *)
Lemma sum64_int64 (l : list Z) : sum64 l = int64 (foldr Z.add 0 l).
Proof.
  induction l as [|a l IH]; [done|].
  cbn [sum64 foldr]. fold (sum64 l). unfold add64. by rewrite IH, int64_add_r.
Qed.

Lemma agg_sum_lookup n X i :
  (i < n)%nat →
  agg_sum n X !! i = Some (Some (sum64 (column_values i X))).
Proof.
  intros Hi. unfold agg_sum. by rewrite list_lookup_fmap, lookup_seq_lt.
Qed.

Lemma column_values_cons_eq j (c : list cell) (rs : list (list cell)) :
  column_values j (c :: rs)
  = match mjoin (c !! j) with
    | Some z => z :: column_values j rs
    | None => column_values j rs
    end.
Proof. done. Qed.

Lemma sum_year_group emissions c s y i :
  foldr Z.add 0
    (column_values i
       (filter (λ r : key * list cell, r.1 = [LStr c; LStr s; LInt y])
          ((λ r, ([LStr (e_Country r); LStr (e_Scenario r); LInt (e_Year r)],
                  e_values r)) <$> read_emissions emissions)).*2)
  = yearly_total emissions c s y i.
Proof.
  unfold yearly_total, read_emissions. rewrite <-list_fmap_compose.
  induction (e_rows emissions) as [|r l IH]; [done|].
  rewrite fmap_cons, !filter_cons.
  cbn [compose fst snd e_Country e_Scenario e_Year e_values].
  destruct (decide (_ = [LStr c; LStr s; LInt y])) as [Heq|Hne],
           (decide (e_Country r = c ∧ e_Scenario r = s ∧ e_Year r = y))
             as [Hs|Hns].
  - rewrite !fmap_cons. cbn [snd foldr]. rewrite column_values_cons_eq, <-IH.
    unfold e_value, fillna. rewrite list_lookup_fmap.
    by destruct (e_values r !! i) as [[z|]|].
  - destruct Hns. by injection Heq.
  - destruct Hne. by destruct Hs as (-> & -> & ->).
  - exact IH.
Qed.

Lemma unstack_cell level fill s df p k cs j c :
  unstack level fill s = Ok df → level_pos level (s_names s) = Ok p →
  (k, cs) ∈ rows df → columns df !! j = Some c →
  cs !! j = Some (default (Some fill) (dict_get (s_items s) (insert_at p c k))).
Proof.
  unfold unstack. intros Hun Hp. rewrite Hp in Hun. cbn [mbind result_bind] in Hun.
  destruct (decide _); [|done]. injection Hun as <-. cbn [rows columns].
  intros (k' & [= <- ->] & _)%list_elem_of_fmap Hc.
  by rewrite list_lookup_fmap, Hc.
Qed.

End yearly_totals.

(** X17.  The numbers of the block [# emissions by year], for an emissions
    file whose numeric columns are [int64] (no empty cell, every number in
    range): in the row of a country, a scenario and a material, the cell of
    a year is the sum of that material over all rows of the file with that
    country, scenario and year, wrapped around to [int64]; where the file
    has no such row the cell is [0]. *)
Theorem emissions_year_cells emissions df c s m cs j y i :
  NoDup (e_materials emissions) →
  int64_columns emissions →
  emissions_by_year emissions = Ok df →
  ([LStr c; LStr s; LStr m], cs) ∈ rows df →
  columns df !! j = Some (LInt y) →
  e_materials emissions !! i = Some m →
  cs !! j = Some (Some (int64 (yearly_total emissions c s y i))).
Proof.
  intros Hnd _ Hdf Hrow Hcol Hm. revert Hdf. unfold emissions_by_year. cbv zeta.
  destruct (loc _ _) as [df1|] eqn:Hloc; [|done]. cbn [mbind result_bind].
  destruct (unstack _ _ _) as [df2|] eqn:Hun; [|done]. intros [= <-].
  change (rows (set_last_name "Mat" df2)) with (rows df2) in Hrow.
  change (columns (set_last_name "Mat" df2)) with (columns df2) in Hcol.
  pose proof (loc_Ok _ _ _ Hloc) as (_ & Hnames & Hcols & Hrows1).
  assert ((LStr <$> e_materials emissions) !! i = Some (LStr m)) as Hm'.
  { by rewrite list_lookup_fmap, Hm. }
  assert (i < length (LStr <$> e_materials emissions))%nat as Hi.
  { by eapply lookup_lt_Some. }
  assert (NoDup (LStr <$> e_materials emissions)) as Hnd'.
  { by apply (NoDup_fmap_2_strong LStr); [congruence|]. }
  assert (level_pos "Year" (s_names (stack df1)) = Ok 2%nat) as Hp.
  { change (s_names (stack df1)) with (index_names df1 ++ [None]).
    by rewrite Hnames. }
  pose proof (unstack_Ok _ _ _ _ Hun) as (p & Hp' & _ & Hidx).
  rewrite Hp in Hp'. injection Hp' as <-.
  assert ([LStr c; LStr s; LStr m] ∈ index df2) as Hk.
  { unfold index. apply list_elem_of_fmap. by eexists (_, _). }
  rewrite Hidx in Hk. unfold s_index in Hk. rewrite <-list_fmap_compose in Hk.
  rewrite (unstack_cell _ _ _ _ _ _ _ _ _ Hun Hp Hrow Hcol). f_equal.
  change (insert_at 2 (LInt y) [LStr c; LStr s; LStr m])
    with ([LStr c; LStr s; LInt y] ++ [LStr m]).
  set (keyed := (λ r, ([LStr (e_Country r); LStr (e_Scenario r); LInt (e_Year r)],
                       e_values r)) <$> read_emissions emissions) in *.
  set (n := length (LStr <$> e_materials emissions)) in *.
  destruct (dict_get _ _) as [v|] eqn:Hg.
  - apply dict_get_elem_of in Hg.
    apply elem_of_stack in Hg as (k3 & cs1 & col & z & Hr1 & Hz & Hkey & ->).
    apply app_inj_tail in Hkey as [<- <-].
    apply Hrows1 in Hr1 as (c' & Hc' & Hh & HrG).
    apply elem_of_rows_groupby_agg in HrG as [_ ->].
    rewrite Hcols in Hz. cbn [columns groupby_agg] in Hz.
    apply elem_of_lookup_zip_with_1 in Hz as (i' & x & v & [= <- <-] & Hx & Hv).
    assert (i' = i) as -> by (by eapply NoDup_lookup).
    rewrite agg_sum_lookup in Hv by done. injection Hv as <-.
    cbn [default from_option id]. f_equal.
    rewrite sum64_int64. f_equal. apply sum_year_group.
  - cbn [default from_option id]. f_equal. apply dict_get_None in Hg.
    unfold yearly_total.
    destruct (filter _ (e_rows emissions)) as [|r rs] eqn:Hf; [done|].
    destruct Hg.
    assert (r ∈ filter (λ r, e_Country r = c ∧ e_Scenario r = s ∧ e_Year r = y)
                  (e_rows emissions)) as [(HC & HS & HY) Hr]%list_elem_of_filter.
    { rewrite Hf. left. }
    assert (LStr c ∈ LStr <$> countries) as Hc.
    { rewrite elem_of_sort_keys in Hk.
      apply list_elem_of_fmap in Hk as ([k' v'] & Hdel & Hit).
      apply elem_of_stack in Hit as (k3 & cs1 & col & z & Hr1 & _ & -> & ->).
      apply Hrows1 in Hr1 as (c' & Hc' & Hh & HrG).
      apply elem_of_rows_groupby_agg in HrG as [Hk3 _].
      unfold keyed in Hk3. rewrite <-list_fmap_compose in Hk3.
      apply list_elem_of_fmap in Hk3 as (r0 & -> & _).
      cbn in Hdel, Hh. injection Hdel as -> _ _. by injection Hh as <-. }
    set (X := (filter (λ r0 : key * list cell, r0.1 = [LStr c; LStr s; LInt y])
                 keyed).*2).
    apply list_elem_of_fmap.
    exists ([LStr c; LStr s; LInt y] ++ [LStr m],
            Some (sum64 (column_values i X))).
    split; [done|]. apply elem_of_stack.
    exists [LStr c; LStr s; LInt y], (agg_sum n X), (LStr m),
      (sum64 (column_values i X)).
    split; [|split; [|done]].
    + apply Hrows1. exists (LStr c). split; [done|]. split; [done|].
      apply elem_of_rows_groupby_agg. split; [|done].
      unfold keyed, read_emissions. rewrite <-!list_fmap_compose.
      apply list_elem_of_fmap. exists r. split; [|done].
      cbn. by rewrite HC, HS, HY.
    + rewrite Hcols. cbn [columns groupby_agg].
      apply list_elem_of_lookup. exists i. apply lookup_zip_Some.
      split; [done|by apply agg_sum_lookup].
Qed.

Lemma emissions_year_cells_witness :
  NoDup (e_materials ex_emissions) ∧ int64_columns ex_emissions
  ∧ ∃ df, emissions_by_year ex_emissions = Ok df
          ∧ ([LStr "KE"; LStr "Base"; LStr "Steel"], [Some 5; Some 0]) ∈ rows df
          ∧ [Some 5; Some 0] !! 0%nat
            = Some (Some (int64 (yearly_total ex_emissions "KE" "Base" 2020 0))).
Proof.
  assert (NoDup (e_materials ex_emissions)) as Hnd by by_computation.
  assert (int64_columns ex_emissions) as Hint.
  { repeat (apply Forall_cons; split;
              [split; [reflexivity|];
               repeat (apply Forall_cons; split; [cbn; lia|]); apply Forall_nil_2|]).
    apply Forall_nil_2. }
  split; [exact Hnd|]. split; [exact Hint|].
  eexists. split; [vm_compute; reflexivity|].
  split; [by_computation|].
  eapply (emissions_year_cells ex_emissions _ "KE" "Base" "Steel"
            [Some 5; Some 0] 0 2020 0 Hnd Hint).
  - vm_compute. reflexivity.
  - by_computation.
  - vm_compute. reflexivity.
  - reflexivity.
Defined.

(** Two rows of [2^62] and the [5] of the sample file leave the range: the
    cell holds the sum wrapped around. *)
Example emissions_year_wraps_around :
  (λ df, rows df !! 0%nat)
    <$> emissions_by_year
          (mkECSV ["Steel"]
             (mkE "KE" "Base" 2020 "Solar" [Some (2 ^ 62)]
              :: mkE "KE" "Base" 2020 "Wind" [Some (2 ^ 62)]
              :: e_rows ex_emissions))
  = Ok (Some ([LStr "KE"; LStr "Base"; LStr "Steel"],
              [Some (-9223372036854775803); Some 0])).
Proof. vm_compute. reflexivity. Qed.

(** A scenario that is called like a full country name collides with the
    renamed country code: the renamed table has two rows with the same index
    tuple and [to_dict('index')] refuses it. *)
Example scenario_called_like_a_country :
  main (mkECSV ["Steel"]
          (mkE "KE" "KE" 2020 "Solar" [Some 5]
           :: mkE "KE" "Kenya" 2020 "Solar" [Some 2] :: e_rows ex_emissions))
    ex_jobs false
  = Raise ValueError.
Proof. vm_compute. reflexivity. Qed.

(** * The numbers of [jobs_year_full] *)

Section job_values.


End job_values.


